(** * duckdb-raquet: metadata parsing, band decoding and summary statistics

    A shallow embedding of
      - [src/include/raquet_metadata.hpp]  (the scanning descriptor parser),
      - [src/raster/band_decoder.cpp]      (gzip decompression, pixel decoding),
      - [src/raster/st_raster_stats.cpp]   (the four row-wise overloads of
                                            ST_RasterSummaryStats),
    followed by the properties established about them.

    Conventions.  A [std::string] is a [string]; a [size_t] position inside a
    string is a [nat] and [std::string::npos] is [None]; C++ [int] values are
    [Z]; a byte buffer is a [list byte]; a C++ exception is a value of [exn]
    carried in the left summand of [result]. *)

From Stdlib Require Import ZArith List String Ascii Bool Lia PeanoNat.
From Stdlib Require Import Strings.Byte DecimalString Uint63 Floats.
From Stdlib Require DecimalPos.
Import ListNotations.

Local Open Scope string_scope.

(* ================================================================== *)
(** * Part I.  Definitions                                             *)
(* ================================================================== *)

(** ** Characters and [std::string] primitives *)

Definition dquote : ascii := "034"%char.
Definition tab : ascii := "009"%char.
Definition newline : ascii := "010"%char.

(** Test descriptors are written with an apostrophe wherever the JSON text
    has a double quote; [json_text] puts the double quotes back. *)
Fixpoint json_text (s : string) : string :=
  match s with
  | EmptyString => EmptyString
  | String c r => String (if Ascii.eqb c "'" then dquote else c) (json_text r)
  end.

Definition str1 (c : ascii) : string := String c EmptyString.

(** [s.find(needle, pos)] and [s.find(ch, pos)]. *)
Definition find (s needle : string) (pos : nat) : option nat :=
  String.index pos needle s.

Definition find_char (s : string) (c : ascii) (pos : nat) : option nat :=
  String.index pos (str1 c) s.

(** [s.substr(pos, n)].  Every call below is made at a position that
    [char_at] or [find_char] has just answered for, or at the position after
    it, hence with [pos <= s.size()] ([char_at_bound], [find_char_bound]): the
    [std::out_of_range] of [substr] is never thrown. *)
Definition substr (s : string) (pos n : nat) : string := String.substring pos n s.

(** The suffix of [s] from position [pos] on. *)
Fixpoint drop (pos : nat) (s : string) : string :=
  match pos, s with
  | O, _ => s
  | S p, EmptyString => EmptyString
  | S p, String _ r => drop p r
  end.

(** [while (pos < s.size() && p(s[pos])) pos++], run on the suffix at [pos]. *)
Fixpoint advance_while (p : ascii -> bool) (rest : string) (pos : nat) : nat :=
  match rest with
  | EmptyString => pos
  | String c r => if p c then advance_while p r (S pos) else pos
  end.

Definition skip_while (p : ascii -> bool) (s : string) (pos : nat) : nat :=
  advance_while p (drop pos s) pos.

Definition is_blank (c : ascii) : bool :=
  Ascii.eqb c " " || Ascii.eqb c tab.

Definition is_blank_nl (c : ascii) : bool :=
  Ascii.eqb c " " || Ascii.eqb c tab || Ascii.eqb c newline.

Definition not_delim (c : ascii) : bool :=
  negb (Ascii.eqb c ",") && negb (Ascii.eqb c "}") && negb (Ascii.eqb c "]").

(** [while (!val.empty() && (val.back() == ' ' || val.back() == '\t')) val.pop_back()]. *)
Fixpoint rtrim (val : string) : string :=
  match val with
  | EmptyString => EmptyString
  | String c r =>
      match rtrim r with
      | EmptyString => if is_blank c then EmptyString else str1 c
      | r' => String c r'
      end
  end.

Definition is_empty (s : string) : bool :=
  match s with EmptyString => true | _ => false end.

(** ** [std::stoi]

    Leading [isspace] characters are skipped, an optional sign is read, then
    the longest run of decimal digits.  No digit at all is
    [std::invalid_argument]; a value outside [int] is [std::out_of_range].
    Both are [None] here: the only caller catches everything. *)

Definition isspace (c : ascii) : bool :=
  let n := nat_of_ascii c in
  Nat.eqb n 32 || (Nat.leb 9 n && Nat.leb n 13).

Definition digit_val (c : ascii) : option Z :=
  let n := nat_of_ascii c in
  if Nat.leb 48 n && Nat.leb n 57 then Some (Z.of_nat (n - 48)) else None.

Fixpoint drop_spaces (s : string) : string :=
  match s with
  | String c r => if isspace c then drop_spaces r else s
  | EmptyString => EmptyString
  end.

(** Reads the digits of [s] into the accumulator; [seen] records whether at
    least one digit was consumed. *)
Fixpoint read_digits (s : string) (seen : bool) (acc : Z) : bool * Z :=
  match s with
  | EmptyString => (seen, acc)
  | String c r =>
      match digit_val c with
      | Some d => read_digits r true (acc * 10 + d)%Z
      | None => (seen, acc)
      end
  end.

Definition INT_MIN : Z := (- 2 ^ 31)%Z.
Definition INT_MAX : Z := (2 ^ 31 - 1)%Z.

Definition stoi (s : string) : option Z :=
  let s1 := drop_spaces s in
  let '(neg, s2) :=
    match s1 with
    | String c r =>
        if Ascii.eqb c "-" then (true, r)
        else if Ascii.eqb c "+" then (false, r)
        else (false, s1)
    | EmptyString => (false, s1)
    end in
  let '(seen, v) := read_digits s2 false 0%Z in
  if seen then
    let v := if neg then (- v)%Z else v in
    if (INT_MIN <=? v)%Z && (v <=? INT_MAX)%Z then Some v else None
  else None.

(** ** raquet_metadata.hpp *)

Record RaquetMetadata := mkMeta {
  compression : string;
  block_width : Z;
  block_height : Z;
  min_zoom : Z;
  max_zoom : Z;
  pixel_zoom : Z;
  num_blocks : Z;
  scheme : string;
  crs : string;
  bands : list (string * string)
}.

(** The search pattern ["key":] built by the extractors. *)
Definition search_key (key : string) : string :=
  str1 dquote ++ key ++ str1 dquote ++ ":".

Definition char_at (s : string) (pos : nat) : option ascii := String.get pos s.

Definition extract_json_string (json key : string) : string :=
  let search := search_key key in
  match find json search 0 with
  | None => ""
  | Some pos0 =>
      let pos := pos0 + String.length search in
      let pos := skip_while is_blank json pos in
      match char_at json pos with
      | None => ""                                   (* pos >= json.size() *)
      | Some c =>
          if Ascii.eqb c dquote then
            let pos := S pos in
            match find_char json dquote pos with
            | None => ""
            | Some e => substr json pos (e - pos)
            end
          else
            let e := skip_while not_delim json pos in
            rtrim (substr json pos (e - pos))
      end
  end.

Definition extract_json_int (json key : string) (default_val : Z) : Z :=
  let val := extract_json_string json key in
  if is_empty val then default_val
  else match stoi val with
       | Some v => v
       | None => default_val                         (* catch (...) *)
       end.

(** The brace-matching loop of [extract_json_object], on the suffix at [pos]:
    [while (pos < json.size() && depth > 0) { ...; pos++; }]. *)
Fixpoint match_braces (rest : string) (pos : nat) (depth : Z) : nat :=
  match rest with
  | EmptyString => pos
  | String c r =>
      if (0 <? depth)%Z then
        let depth :=
          if Ascii.eqb c "{" then (depth + 1)%Z
          else if Ascii.eqb c "}" then (depth - 1)%Z
          else depth in
        match_braces r (S pos) depth
      else pos
  end.

Definition extract_json_object (json key : string) : string :=
  let search := search_key key in
  match find json search 0 with
  | None => ""
  | Some pos0 =>
      let pos := pos0 + String.length search in
      let pos := skip_while is_blank_nl json pos in
      match char_at json pos with
      | None => ""
      | Some c =>
          if Ascii.eqb c "{" then
            let start := pos in
            let pos := match_braces (drop (S pos) json) (S pos) 1%Z in
            substr json start (pos - start)
          else ""
      end
  end.

(** The [while (pos < bands_str.size())] loop of [parse_bands].  Every
    iteration leaves [pos] strictly larger, so [String.length bands_str]
    iterations are enough; [fuel] counts them. *)
Fixpoint parse_bands_loop (fuel : nat) (bands_str : string) (pos : nat)
  : list (string * string) :=
  match fuel with
  | O => []
  | S fuel' =>
      if Nat.ltb pos (String.length bands_str) then
        match find_char bands_str "{" pos with
        | None => []
        | Some obj_start =>
            match find_char bands_str "}" obj_start with
            | None => []
            | Some obj_end =>
                let band_obj := substr bands_str obj_start (obj_end - obj_start + 1) in
                let name := extract_json_string band_obj "name" in
                let type := extract_json_string band_obj "type" in
                let tl := parse_bands_loop fuel' bands_str (obj_end + 1) in
                if negb (is_empty name) && negb (is_empty type)
                then (name, type) :: tl else tl
            end
        end
      else []
  end.

Definition parse_bands (json : string) : list (string * string) :=
  match find json (search_key "bands") 0 with
  | None => []
  | Some bands_pos =>
      match find_char json "[" bands_pos with
      | None => []
      | Some arr_start =>
          match find_char json "]" arr_start with
          | None => []
          | Some arr_end =>
              let bands_str := substr json (arr_start + 1) (arr_end - arr_start - 1) in
              parse_bands_loop (String.length bands_str) bands_str 0
          end
      end
  end.

Definition parse_metadata (json : string) : RaquetMetadata :=
  let compression0 := extract_json_string json "compression" in
  let compression := if is_empty compression0 then "none" else compression0 in
  let crs := extract_json_string json "crs" in
  let tiling := extract_json_object json "tiling" in
  if negb (is_empty tiling) then
    {| compression := compression;
       block_width := extract_json_int tiling "block_width" 256;
       block_height := extract_json_int tiling "block_height" 256;
       min_zoom := extract_json_int tiling "min_zoom" 0;
       max_zoom := extract_json_int tiling "max_zoom" 26;
       pixel_zoom := extract_json_int tiling "pixel_zoom" 0;
       num_blocks := extract_json_int tiling "num_blocks" 0;
       scheme := extract_json_string tiling "scheme";
       crs := crs;
       bands := parse_bands json |}
  else
    {| compression := compression;
       block_width := 256;
       block_height := 256;
       min_zoom := 0;
       max_zoom := 26;
       pixel_zoom := 0;
       num_blocks := 0;
       scheme := "quadbin";
       crs := crs;
       bands := parse_bands json |}.

(** The descriptor of the spec's worked example (§8). *)
Definition descriptor_example : string :=
  json_text "{'compression':'gzip','tiling':{'min_zoom':0,'max_zoom':10,'block_width':512,'block_height':512,'scheme':'quadbin'},'crs':'EPSG:3857','bands':[{'name':'elevation','type':'float32'}]}".

(** ** Exceptions

    Every exception the sources throw derives from [std::exception]; the
    row-wise adapters catch exactly that class. *)

Inductive exn : Type :=
| runtime_error (what : string)        (* std::runtime_error *)
| invalid_argument (what : string)     (* std::invalid_argument *)
| length_error (what : string)         (* std::length_error *)
| bad_alloc                            (* std::bad_alloc *)
| unknown_pixel_type (name : string).  (* raised by the pixel type registry *)

Definition result (A : Type) : Type := (exn + A)%type.

Definition Ok {A} (a : A) : result A := inr a.
Definition Throw {A} (e : exn) : result A := inl e.

Definition bind {A B} (m : result A) (k : A -> result B) : result B :=
  match m with
  | inl e => inl e
  | inr a => k a
  end.

Notation "x <- m ;; k" := (bind m (fun x => k))
  (at level 61, m at next level, right associativity).

Definition to_string (z : Z) : string := NilZero.string_of_int (Z.to_int z).

Definition get_band_type (meta : RaquetMetadata) (band_index : Z) : result string :=
  if (band_index <? 0)%Z || (Z.of_nat (List.length (bands meta)) <=? band_index)%Z
  then Throw (invalid_argument "Band index out of range")
  else Ok (snd (nth (Z.to_nat band_index) (bands meta) ("", ""))).

(** [RaquetMetadata::get_band_type(const std::string &)]: the loop over
    [bands], which returns at the first band of that name. *)
Fixpoint find_band_type (bands : list (string * string)) (band_name : string)
  : option string :=
  match bands with
  | [] => None
  | band :: rest =>
      if String.eqb (fst band) band_name then Some (snd band)
      else find_band_type rest band_name
  end.

Definition get_band_type_by_name (meta : RaquetMetadata) (band_name : string)
  : result string :=
  match find_band_type (bands meta) band_name with
  | Some type => Ok type
  | None => Throw (invalid_argument ("Band not found: " ++ band_name))
  end.

(** ** band_decoder.cpp: [decompress_gzip] *)

Definition wrap64 (z : Z) : Z := (z mod 2 ^ 64)%Z.   (* size_t arithmetic *)
Definition to_uInt (z : Z) : Z := (z mod 2 ^ 32)%Z.  (* static_cast<uInt> *)

(** zlib's return codes (zlib.h). *)
Definition Z_OK : Z := 0%Z.
Definition Z_STREAM_END : Z := 1%Z.
Definition Z_BUF_ERROR : Z := (-5)%Z.

(** zlib is an external library.  [inflateInit2 k] is the return code of the
    [k]-th stream initialisation of a call ([0] for the first pass, [1] for the
    retry).  [inflate input room] is one [inflate(&strm, Z_FINISH)] pass over
    [input] with [room] bytes of output space: the return code and the bytes
    written, which never exceed the room ([strm.avail_out] is then the room
    minus their number). *)
Class Zlib : Type := {
  inflateInit2 : nat -> Z;
  inflate : list byte -> Z -> Z * list byte;
  inflate_fits : forall input room,
    (0 <= room)%Z -> (Z.of_nat (List.length (snd (inflate input room))) <= room)%Z
}.

(** One call of [inflate]: the size of the [result] vector at that moment and
    the [avail_out] handed to zlib. *)
Record attempt : Type := mkAttempt { buffer_size : Z; room : Z }.

(** [std::vector<uint8_t>] operations on the output buffer. *)
Definition zeros (n : Z) : list byte := repeat x00 (Z.to_nat n).

Definition resize (v : list byte) (n : Z) : list byte :=
  (firstn (Z.to_nat n) v ++ zeros (n - Z.of_nat (List.length v)))%list.

(** zlib writes its output at [next_out], the start of the buffer. *)
Definition written (out buf : list byte) : list byte :=
  (out ++ skipn (List.length out) buf)%list.

(** [size_t estimated_size = 256 * 256; if (size > 100) estimated_size = size * 50;] *)
Definition estimated_size (size : Z) : Z :=
  if (100 <? size)%Z then wrap64 (size * 50) else (256 * 256)%Z.

(** What zlib is given to read: [next_in = input.data()] and
    [avail_in = static_cast<uInt>(input.size())], where [input] is the copy of
    the [size] bytes at [mem]. *)
Definition stream_input (mem : list byte) (size : Z) : list byte :=
  let input := firstn (Z.to_nat size) mem in
  firstn (Z.to_nat (to_uInt (Z.of_nat (List.length input)))) input.

(** [ret == Z_BUF_ERROR && strm.avail_out == 0]. *)
Definition buffer_exhausted (ret avail_out : Z) : bool :=
  (ret =? Z_BUF_ERROR)%Z && (avail_out =? 0)%Z.

Section Decompress.
Context {zlib : Zlib}.

(** [data] is [None] for [nullptr]; otherwise the bytes at the pointer, of
    which the first [size] are read.  The first component of the value is
    the log of the [inflate] calls made, in order. *)
Definition decompress_gzip_log (data : option (list byte)) (size : Z)
  : list attempt * result (list byte) :=
  if (size =? 0)%Z then ([], Ok [])
  else
    match data with
    | None => ([], Throw (runtime_error "Null data pointer for decompression"))
    | Some mem =>
        let result0 := zeros (estimated_size size) in
        let input := stream_input mem size in
        let avail1 := to_uInt (Z.of_nat (List.length result0)) in
        let ret := inflateInit2 0 in
        if negb (ret =? Z_OK)%Z then
          ([], Throw (runtime_error ("inflateInit2 failed: " ++ to_string ret)))
        else
          let a1 := mkAttempt (Z.of_nat (List.length result0)) avail1 in
          let '(ret, out1) := inflate input avail1 in
          let avail_out := (avail1 - Z.of_nat (List.length out1))%Z in
          let result1 := written out1 result0 in
          if buffer_exhausted ret avail_out then
            let result2 := resize result1 (wrap64 (Z.of_nat (List.length result1) * 4)) in
            let avail2 := to_uInt (Z.of_nat (List.length result2)) in
            let ret := inflateInit2 1 in
            if negb (ret =? Z_OK)%Z then
              ([a1], Throw (runtime_error "inflateInit2 retry failed"))
            else
              let a2 := mkAttempt (Z.of_nat (List.length result2)) avail2 in
              let '(ret, out2) := inflate input avail2 in
              let avail_out2 := (avail2 - Z.of_nat (List.length out2))%Z in
              let result3 := written out2 result2 in
              let decompressed_size := (Z.of_nat (List.length result3) - avail_out2)%Z in
              if negb (ret =? Z_STREAM_END)%Z then
                ([a1; a2], Throw (runtime_error ("inflate retry failed: " ++ to_string ret)))
              else ([a1; a2], Ok (resize result3 decompressed_size))
          else if negb (ret =? Z_STREAM_END)%Z then
            ([a1], Throw (runtime_error ("inflate failed: " ++ to_string ret)))
          else
            let decompressed_size := (Z.of_nat (List.length result1) - avail_out)%Z in
            ([a1], Ok (resize result1 decompressed_size))
    end.

Definition decompress_gzip (data : option (list byte)) (size : Z)
  : result (list byte) :=
  snd (decompress_gzip_log data size).

End Decompress.

(** ** The pixel type registry ([band_decoder.hpp], not among the sources) *)

(** Modelled from the spec: the closed set of numeric encodings of §3,
    "unsigned/signed integers of 8/16/32/64 bits, 32/64-bit floating point";
    the declaration of [BandDataType] is in [band_decoder.hpp]. *)
Inductive BandDataType : Type :=
| UINT8 | INT8 | UINT16 | INT16 | UINT32 | INT32 | UINT64 | INT64
| FLOAT32 | FLOAT64.

(** Modelled from the spec: [parseType(name) -> PixelType], which "raises
    [UnknownPixelType] for an unrecognized name" (§4.3); [parse_dtype] is
    defined in [band_decoder.hpp]. *)
Definition parse_dtype (dtype_str : string) : result BandDataType :=
  if String.eqb dtype_str "uint8" then Ok UINT8
  else if String.eqb dtype_str "int8" then Ok INT8
  else if String.eqb dtype_str "uint16" then Ok UINT16
  else if String.eqb dtype_str "int16" then Ok INT16
  else if String.eqb dtype_str "uint32" then Ok UINT32
  else if String.eqb dtype_str "int32" then Ok INT32
  else if String.eqb dtype_str "uint64" then Ok UINT64
  else if String.eqb dtype_str "int64" then Ok INT64
  else if String.eqb dtype_str "float32" then Ok FLOAT32
  else if String.eqb dtype_str "float64" then Ok FLOAT64
  else Throw (unknown_pixel_type dtype_str).

(** Modelled from the spec: the byte width of each encoding (§3). *)
Definition dtype_size (dtype : BandDataType) : Z :=
  match dtype with
  | UINT8 | INT8 => 1
  | UINT16 | INT16 => 2
  | UINT32 | INT32 | FLOAT32 => 4
  | UINT64 | INT64 | FLOAT64 => 8
  end%Z.

(** Modelled from the spec: "interpreting the underlying bytes according to
    [type]'s width/signedness/domain" (§4.3).  The unsigned value of a
    little-endian byte sequence. *)
Definition le_value (bs : list byte) : Z :=
  fold_right (fun b acc => (Z.of_N (Byte.to_N b) + 256 * acc)%Z) 0%Z bs.

(** Modelled from the spec: the two's complement reading of [bits] bits. *)
Definition as_signed (bits : Z) (u : Z) : Z :=
  if (u <? 2 ^ (bits - 1))%Z then u else (u - 2 ^ bits)%Z.

(** Modelled from the spec: "widens the result to a 64-bit floating-point
    value" (§4.3).  An integer below [2^64] in magnitude, rounded once (to
    nearest even) by the final addition. *)
Definition float_of_Z (z : Z) : float :=
  let a := Z.abs z in
  let hi := of_uint63 (Uint63.of_Z (a / 2 ^ 32)) in
  let lo := of_uint63 (Uint63.of_Z (a mod 2 ^ 32)) in
  let m := (hi * of_uint63 (Uint63.of_Z (2 ^ 32)) + lo)%float in
  if (z <? 0)%Z then (- m)%float else m.

(** Modelled from the spec: the value of an IEEE-754 bit pattern with
    [ebits] exponent bits and [mbits] fraction bits (8/23 for the 32-bit,
    11/52 for the 64-bit floating-point encoding of §3). *)
Definition float_of_bits (ebits mbits : Z) (u : Z) : float :=
  let frac := (u mod 2 ^ mbits)%Z in
  let e := ((u / 2 ^ mbits) mod 2 ^ ebits)%Z in
  let bias := (2 ^ (ebits - 1) - 1)%Z in
  let mag :=
    if (e =? 2 ^ ebits - 1)%Z then (if (frac =? 0)%Z then infinity else nan)
    else if (e =? 0)%Z then Z.ldexp (float_of_Z frac) (1 - bias - mbits)
    else Z.ldexp (float_of_Z (2 ^ mbits + frac)) (e - bias - mbits) in
  if Z.testbit u (ebits + mbits) then (- mag)%float else mag.

(** Modelled from the spec: [readValue(buffer, offset, type) -> float64]
    "reads the value at the given element offset (not byte offset)
    interpreting the underlying bytes according to [type]'s
    width/signedness/domain, and widens the result to a 64-bit floating-point
    value"; "the registry does not itself re-validate array length" (§4.3).
    The function ([get_pixel_value] of [band_decoder.hpp]) receives a bare
    pointer; [data] is the extent of the buffer behind it, and [None] stands
    for an access whose bytes are not all inside that extent.  Bytes are taken
    in host (little-endian) order. *)
Definition get_pixel_value (data : list byte) (offset : Z) (dtype : BandDataType)
  : option float :=
  let w := dtype_size dtype in
  let start := (offset * w)%Z in
  if (start + w <=? Z.of_nat (List.length data))%Z then
    let u := le_value (firstn (Z.to_nat w) (skipn (Z.to_nat start) data)) in
    Some match dtype with
         | UINT8 | UINT16 | UINT32 | UINT64 => float_of_Z u
         | INT8 => float_of_Z (as_signed 8 u)
         | INT16 => float_of_Z (as_signed 16 u)
         | INT32 => float_of_Z (as_signed 32 u)
         | INT64 => float_of_Z (as_signed 64 u)
         | FLOAT32 => float_of_bits 8 23 u
         | FLOAT64 => float_of_bits 11 52 u
         end
  else None.

(** ** band_decoder.cpp: [decode_pixel] and [decode_band] *)

(** What a decoding call does: it returns, it throws, or it reads the element
    at [offset] although that element is not inside the buffer. *)
Inductive outcome (A : Type) : Type :=
| Returns (a : A)
| Throws (e : exn)
| ReadsPastEnd (offset : Z).

Arguments Returns {A} a.
Arguments Throws {A} e.
Arguments ReadsPastEnd {A} offset.

(** The buffer behind an input pointer: [size] bytes, none behind [nullptr]. *)
Definition extent (data : option (list byte)) (size : Z) : list byte :=
  match data with
  | None => []
  | Some mem => firstn (Z.to_nat size) mem
  end.

(** The free store behind [std::vector<double>].  [max_size] is the
    vector's [max_size()], which the library bounds by the number of doubles
    that [size_t] bytes hold; [allocates n] tells whether a request for [n]
    elements within [max_size] is granted.  An empty vector takes no
    storage, so a request for no element is always granted. *)
Class Heap : Type := {
  max_size : Z;
  allocates : Z -> bool;
  max_size_fits : (0 <= max_size <= (2 ^ 64 - 1) / 8)%Z;
  allocates_zero : allocates 0 = true
}.

Section Decode.
Context {zlib : Zlib} {heap : Heap}.

(** The buffer [data] points to after the [if (compressed)] of both
    decoders. *)
Definition band_buffer (band_data : option (list byte)) (band_size : Z)
           (compressed : bool) : result (list byte) :=
  if compressed then decompress_gzip band_data band_size
  else Ok (extent band_data band_size).

(** [static_cast<size_t>(pixel_y) * width + pixel_x] in [size_t] arithmetic. *)
Definition pixel_offset (pixel_x pixel_y width : Z) : Z :=
  wrap64 (wrap64 (wrap64 pixel_y * wrap64 width) + wrap64 pixel_x).

Definition decode_pixel (band_data : option (list byte)) (band_size : Z)
           (dtype_str : string) (pixel_x pixel_y width : Z) (compressed : bool)
  : outcome float :=
  match parse_dtype dtype_str with
  | inl e => Throws e
  | inr dtype =>
      match band_buffer band_data band_size compressed with
      | inl e => Throws e
      | inr data =>
          let offset := pixel_offset pixel_x pixel_y width in
          match get_pixel_value data offset dtype with
          | Some v => Returns v
          | None => ReadsPastEnd offset
          end
      end
  end.

(** The [for (size_t i = 0; i < pixel_count; i++)] loop of [decode_band],
    from element [i] on, [n] elements. *)
Fixpoint read_elements (data : list byte) (dtype : BandDataType) (i : Z) (n : nat)
  : outcome (list float) :=
  match n with
  | O => Returns []
  | S n' =>
      match get_pixel_value data i dtype with
      | None => ReadsPastEnd i
      | Some v =>
          match read_elements data dtype (i + 1) n' with
          | Returns vs => Returns (v :: vs)
          | other => other
          end
      end
  end.

(** [std::vector<double> result(pixel_count)] stands between the buffer and
    the loop: a count above [max_size()] is [std::length_error], a request the
    free store refuses is [std::bad_alloc], and in both cases no element is
    read. *)
Definition decode_band (band_data : option (list byte)) (band_size : Z)
           (dtype_str : string) (width height : Z) (compressed : bool)
  : outcome (list float) :=
  match parse_dtype dtype_str with
  | inl e => Throws e
  | inr dtype =>
      match band_buffer band_data band_size compressed with
      | inl e => Throws e
      | inr data =>
          let pixel_count := wrap64 (wrap64 width * wrap64 height) in
          if (max_size <? pixel_count)%Z then
            Throws (length_error "cannot create std::vector larger than max_size()")
          else if negb (allocates pixel_count) then Throws bad_alloc
          else read_elements data dtype 0 (Z.to_nat pixel_count)
      end
  end.

End Decode.

(** A stand-in codec for running the decoders on concrete buffers: the
    stream is its own decompressed form; a pass delivers it whole when the
    room suffices and otherwise fills the room and reports [Z_BUF_ERROR]. *)
Definition stored_inflate (input : list byte) (room : Z) : Z * list byte :=
  if (Z.of_nat (List.length input) <=? room)%Z then (Z_STREAM_END, input)
  else (Z_BUF_ERROR, firstn (Z.to_nat room) input).

Lemma stored_inflate_fits : forall input room,
  (0 <= room)%Z ->
  (Z.of_nat (List.length (snd (stored_inflate input room))) <= room)%Z.
Proof.
  intros input room Hroom. unfold stored_inflate.
  destruct (Z.leb_spec (Z.of_nat (List.length input)) room); simpl.
  - assumption.
  - rewrite length_firstn. lia.
Qed.

Definition stored_zlib : Zlib :=
  {| inflateInit2 := fun _ => Z_OK;
     inflate := stored_inflate;
     inflate_fits := stored_inflate_fits |}.

(** A stand-in free store for running [decode_band]: the [max_size()] of a
    64-bit libstdc++, and room for 2^20 doubles. *)
Lemma model_heap_fits : (0 <= (2 ^ 63 - 1) / 8 <= (2 ^ 64 - 1) / 8)%Z.
Proof. split; discriminate. Qed.

Definition model_heap : Heap :=
  {| max_size := ((2 ^ 63 - 1) / 8)%Z;
     allocates := fun n => (n <=? 2 ^ 20)%Z;
     max_size_fits := model_heap_fits;
     allocates_zero := eq_refl |}.

(** ** The streaming statistics engine ([band_decoder.hpp], not among the sources) *)

Module BandStats.
(** Modelled from the spec: [BandStats] of §3, with the fields the adapters
    read from the value [compute_band_stats] returns; the struct is declared
    in [band_decoder.hpp]. *)
Record t : Type := mk {
  count : Z;
  sum : float;
  mean : float;
  min : float;
  max : float;
  stddev : float
}.
End BandStats.

Module Engine.

(** Modelled from the spec: the nodata match rule of §4.5, "if
    [nodataValue] is itself not-a-number, any sample that is not-a-number is
    treated as nodata"; "all other comparisons use exact floating-point
    equality (no epsilon tolerance)".  The code is part of
    [compute_band_stats] in [band_decoder.hpp]. *)
Definition matches_nodata (nodata v : float) : bool :=
  if is_nan nodata then is_nan v else (v =? nodata)%float.

(** Modelled from the spec: "a sample is excluded when [hasNodata] is true
    and the sample's value matches [nodataValue]" (§4.5). *)
Definition excluded (has_nodata : bool) (nodata v : float) : bool :=
  has_nodata && matches_nodata nodata v.

(** Modelled from the spec: the running state of §4.5, count, sum, Welford
    mean and second moment, min, max. *)
Record acc : Type := mkAcc {
  n : Z; s : float; m : float; m2 : float; lo : float; hi : float
}.

(** Modelled from the spec: the state before any sample is visited. *)
Definition acc0 : acc :=
  mkAcc 0 0%float 0%float 0%float infinity neg_infinity.

(** Modelled from the spec: "maintain running count, sum, min, max as values
    are visited"; "Welford's incremental mean/variance update" (§4.5). *)
Definition step (a : acc) (v : float) : acc :=
  let n' := (n a + 1)%Z in
  let delta := (v - m a)%float in
  let m' := (m a + delta / float_of_Z n')%float in
  mkAcc n' (s a + v)%float m' (m2 a + delta * (v - m'))%float
        (if (v <? lo a)%float then v else lo a)
        (if (hi a <? v)%float then v else hi a).

(** Modelled from the spec: "[stddev] is the square root of the resulting
    population variance.  When [count == 0], [sum = 0], and [mean], [min],
    [max], [stddev] are reported as undefined" (§4.5), "null/NaN" in the
    floating-point fields of the struct (§3). *)
Definition finish (a : acc) : BandStats.t :=
  if (n a =? 0)%Z then BandStats.mk 0 0%float nan nan nan nan
  else BandStats.mk (n a) (s a) (m a) (lo a) (hi a)
                    (sqrt (m2 a / float_of_Z (n a)))%float.

(** Modelled from the spec: one sample, filtered then accumulated (§4.5). *)
Definition visit (has_nodata : bool) (nodata : float) (a : acc) (v : float) : acc :=
  if excluded has_nodata nodata v then a else step a v.

(** Modelled from the spec: the aggregate over the decoded samples in
    row-major order, "for each decoded value, apply the nodata filter before
    including it in the aggregate" (§4.5). *)
Definition stats_of_samples (has_nodata : bool) (nodata : float)
           (samples : list float) : BandStats.t :=
  finish (fold_left (visit has_nodata nodata) samples acc0).

(** Modelled from the spec: the decoded value of every element offset
    [0 .. count) in row-major order (§4.5), for a buffer that holds them
    all. *)
Definition samples_of (data : list byte) (dtype : BandDataType) (count : nat)
  : list float :=
  flat_map (fun i => match get_pixel_value data (Z.of_nat i) dtype with
                     | Some v => [v]
                     | None => []
                     end) (seq 0 count).

Section WithZlib.
Context {zlib : Zlib}.

(** Modelled from the spec: "decompress once (per 4.2); iterate every element
    offset [0..width*height] in row-major order via the Pixel Type Registry"
    (§4.5).  Implementations "must never read past the provided buffer's
    logical end" (§4.3): a buffer that does not hold [width*height] elements
    is an [InvalidInput]. *)
Definition decoded_samples (band_data : option (list byte)) (band_size : Z)
           (dtype_str : string) (width height : Z) (compressed : bool)
  : result (list float) :=
  dtype <- parse_dtype dtype_str ;;
  data <- band_buffer band_data band_size compressed ;;
  let pixel_count := wrap64 (wrap64 width * wrap64 height) in
  if (pixel_count * dtype_size dtype <=? Z.of_nat (List.length data))%Z then
    Ok (samples_of data dtype (Z.to_nat pixel_count))
  else Throw (invalid_argument "Band buffer smaller than width*height").

(** Modelled from the spec: [computeStats(bandBytes, pixelTypeName, width,
    height, compressed, hasNodata, nodataValue) -> BandStats] of §4.5;
    [compute_band_stats] is defined in [band_decoder.hpp]. *)
Definition compute_band_stats (band_data : option (list byte)) (band_size : Z)
           (dtype_str : string) (width height : Z) (compressed : bool)
           (has_nodata : bool) (nodata : float) : result BandStats.t :=
  samples <- decoded_samples band_data band_size dtype_str width height compressed ;;
  Ok (stats_of_samples has_nodata nodata samples).
End WithZlib.

End Engine.

(** ** st_raster_stats.cpp: the row-wise adapters *)

(** One entry of a flat vector: its slot in the data array and its bit in the
    validity mask. *)
Record cell (A : Type) : Type := mkCell { is_valid : bool; value : A }.
Arguments mkCell {A} is_valid value.
Arguments is_valid {A} c.
Arguments value {A} c.

(** One element of [meta.band_info]. *)
Record BandInfo : Type := mkBandInfo { has_nodata : bool; nodata : float }.

(** What the adapters use and the sources do not contain:
    [raquet::compute_band_stats] (declared in [band_decoder.hpp]), and the
    [band_info] member of the metadata parsed from a descriptor, which the
    [RaquetMetadata] of [raquet_metadata.hpp] neither declares nor fills. *)
Class Backend : Type := {
  compute_band_stats :
    option (list byte) -> Z -> string -> Z -> Z -> bool -> bool -> float ->
    result BandStats.t;
  band_info : string -> list BandInfo
}.

(** [try { body } catch (const std::exception &e) { handler }]. *)
Definition try_catch {A} (body : result A) (handler : exn -> result A) : result A :=
  match body with
  | inl e => handler e
  | inr a => Ok a
  end.

(** A row of the result vector: [None] once [result_validity.SetInvalid(i)]. *)
Definition row_result : Type := option BandStats.t.

(** [for (idx_t i = 0; i < args.size(); i++) body]: an exception that leaves
    the body of one row leaves the whole function. *)
Fixpoint for_each_row {A} (body : A -> result row_result) (rows : list A)
  : result (list row_result) :=
  match rows with
  | [] => Ok []
  | r :: rs =>
      x <- body r ;;
      xs <- for_each_row body rs ;;
      Ok (x :: xs)
  end.

Definition size_of (band : list byte) : Z := Z.of_nat (List.length band).

Section RowWise.
Context {backend : Backend}.

(** *** [(band, dtype, width, height, compression, nodata)] *)

Definition row6 : Type :=
  (cell (list byte) * string * Z * Z * string * cell float)%type.

(** The [try] block of one row. *)
Definition STRasterSummaryStats_try (r : row6) : result BandStats.t :=
  let '(band, dtype, width, height, compression, nodata) := r in
  let compressed := String.eqb compression "gzip" in
  let has_nodata := is_valid nodata in
  compute_band_stats (Some (value band)) (size_of (value band))
    dtype width height compressed has_nodata (value nodata).

Definition STRasterSummaryStats_row (r : row6) : result row_result :=
  let '(band, _, _, _, _, _) := r in
  if negb (is_valid band) then Ok None
  else if (size_of (value band) =? 0)%Z then Ok None
  else
    try_catch (stats <- STRasterSummaryStats_try r ;; Ok (Some stats))
              (fun _ => Ok None).

Definition STRasterSummaryStatsFunction (args : list row6)
  : result (list row_result) :=
  for_each_row STRasterSummaryStats_row args.

(** *** [(band, dtype, width, height, compression)] *)

Definition row5 : Type := (cell (list byte) * string * Z * Z * string)%type.

Definition STRasterSummaryStatsSimple_try (r : row5) : result BandStats.t :=
  let '(band, dtype, width, height, compression) := r in
  let compressed := String.eqb compression "gzip" in
  compute_band_stats (Some (value band)) (size_of (value band))
    dtype width height compressed false 0%float.

Definition STRasterSummaryStatsSimple_row (r : row5) : result row_result :=
  let '(band, _, _, _, _) := r in
  if negb (is_valid band) then Ok None
  else if (size_of (value band) =? 0)%Z then Ok None
  else
    try_catch (stats <- STRasterSummaryStatsSimple_try r ;; Ok (Some stats))
              (fun _ => Ok None).

Definition STRasterSummaryStatsSimpleFunction (args : list row5)
  : result (list row_result) :=
  for_each_row STRasterSummaryStatsSimple_row args.

(** *** [(band, metadata)] *)

Definition row2 : Type := (cell (list byte) * string)%type.

(** [meta.bands.empty() ? "uint8" : meta.bands[0].second]. *)
Definition first_band_type (meta : RaquetMetadata) : string :=
  match bands meta with
  | [] => "uint8"
  | band0 :: _ => snd band0
  end.

(** [has_nodata] and [nodata] as computed from [meta.band_info[0]]. *)
Definition first_band_nodata (info : list BandInfo) : bool * float :=
  match info with
  | [] => (false, 0%float)
  | info0 :: _ =>
      (has_nodata info0, if has_nodata info0 then nodata info0 else 0%float)
  end.

Definition STRasterSummaryStatsMetadata_try (r : row2) : result BandStats.t :=
  let '(band, metadata) := r in
  let meta := parse_metadata metadata in
  let dtype := first_band_type meta in
  let compressed := String.eqb (compression meta) "gzip" in
  let '(has_nodata, nodata) := first_band_nodata (band_info metadata) in
  compute_band_stats (Some (value band)) (size_of (value band))
    dtype (block_width meta) (block_height meta) compressed has_nodata nodata.

Definition STRasterSummaryStatsMetadata_row (r : row2) : result row_result :=
  let '(band, _) := r in
  if negb (is_valid band) then Ok None
  else if (size_of (value band) =? 0)%Z then Ok None
  else
    try_catch (stats <- STRasterSummaryStatsMetadata_try r ;; Ok (Some stats))
              (fun _ => Ok None).

Definition STRasterSummaryStatsMetadataFunction (args : list row2)
  : result (list row_result) :=
  for_each_row STRasterSummaryStatsMetadata_row args.

(** *** [(band, metadata, band_index)] *)

Definition row3 : Type := (cell (list byte) * string * Z)%type.

(** [has_nodata] and [nodata] as computed from [meta.band_info[band_idx]]. *)
Definition indexed_band_nodata (info : list BandInfo) (band_idx : Z) : bool * float :=
  if (band_idx <? Z.of_nat (List.length info))%Z then
    match nth_error info (Z.to_nat band_idx) with
    | Some e => (has_nodata e, if has_nodata e then nodata e else 0%float)
    | None => (false, 0%float)
    end
  else (false, 0%float).

Definition STRasterSummaryStatsMetadataBand_try (r : row3) : result BandStats.t :=
  let '(band, metadata, band_idx) := r in
  let meta := parse_metadata metadata in
  dtype <- get_band_type meta band_idx ;;
  let compressed := String.eqb (compression meta) "gzip" in
  let '(has_nodata, nodata) := indexed_band_nodata (band_info metadata) band_idx in
  compute_band_stats (Some (value band)) (size_of (value band))
    dtype (block_width meta) (block_height meta) compressed has_nodata nodata.

Definition STRasterSummaryStatsMetadataBand_row (r : row3) : result row_result :=
  let '(band, _, band_idx) := r in
  if negb (is_valid band) then Ok None
  else if (size_of (value band) =? 0)%Z || (band_idx <? 0)%Z then Ok None
  else
    try_catch (stats <- STRasterSummaryStatsMetadataBand_try r ;; Ok (Some stats))
              (fun _ => Ok None).

Definition STRasterSummaryStatsMetadataBandFunction (args : list row3)
  : result (list row_result) :=
  for_each_row STRasterSummaryStatsMetadataBand_row args.

End RowWise.

(** The backend used to run the adapters on concrete rows: the engine above
    over the stand-in codec, and a metadata structure whose [band_info] is
    never filled, as in the [parse_metadata] of the header. *)
Definition model_backend : Backend :=
  {| compute_band_stats := Engine.compute_band_stats (zlib := stored_zlib);
     band_info := fun _ => [] |}.

(** ** Vocabulary of the properties

    Stand-in data for running the model on concrete inputs, and the notions
    in which the properties of Part II are stated. *)

(** A descriptor with a tiling object that has no scheme key. *)
Definition tiling_without_scheme : string :=
  json_text "{'tiling':{'min_zoom':0}}".

(** A codec whose streams expand: the decompressed form of a stream is the
    stream repeated [k] times.  Used to drive [decompress_gzip] into its
    retry on a concrete input. *)
Definition expand (k : nat) (input : list byte) : list byte :=
  List.concat (repeat input k).

Definition expanding_inflate (k : nat) (input : list byte) (room : Z) : Z * list byte :=
  let out := expand k input in
  if (Z.of_nat (List.length out) <=? room)%Z then (Z_STREAM_END, out)
  else (Z_BUF_ERROR, firstn (Z.to_nat room) out).

Lemma expanding_inflate_fits : forall k input room,
  (0 <= room)%Z ->
  (Z.of_nat (List.length (snd (expanding_inflate k input room))) <= room)%Z.
Proof.
  intros k input room Hroom. unfold expanding_inflate.
  destruct (Z.leb_spec (Z.of_nat (List.length (expand k input))) room); simpl.
  - assumption.
  - rewrite length_firstn. lia.
Qed.

Definition expanding_zlib (k : nat) : Zlib :=
  {| inflateInit2 := fun _ => Z_OK;
     inflate := expanding_inflate k;
     inflate_fits := expanding_inflate_fits k |}.

(** A codec every stream of which decompresses to [total] zero bytes: a
    pass delivers them when the room suffices and otherwise fills the room
    and reports [Z_BUF_ERROR].  Used for streams too large to write out. *)
Definition flood_inflate (total : Z) (input : list byte) (room : Z) : Z * list byte :=
  if (total <=? room)%Z then (Z_STREAM_END, zeros total)
  else (Z_BUF_ERROR, zeros room).

Lemma flood_inflate_fits : forall total input room,
  (0 <= room)%Z ->
  (Z.of_nat (List.length (snd (flood_inflate total input room))) <= room)%Z.
Proof.
  intros total input room Hroom. unfold flood_inflate, zeros.
  destruct (Z.leb_spec total room); cbn [snd]; rewrite repeat_length; lia.
Qed.

Definition flood_zlib (total : Z) : Zlib :=
  {| inflateInit2 := fun _ => Z_OK;
     inflate := flood_inflate total;
     inflate_fits := flood_inflate_fits total |}.

(** The first pass of a call on [size] bytes at [mem], and the retry pass. *)
Definition first_pass {zlib : Zlib} (mem : list byte) (size : Z) : Z * list byte :=
  inflate (stream_input mem size) (to_uInt (estimated_size size)).

Definition retry_pass {zlib : Zlib} (mem : list byte) (size : Z) : Z * list byte :=
  inflate (stream_input mem size) (to_uInt (4 * estimated_size size)).

(** The first pass reported the output buffer exhausted. *)
Definition first_pass_exhausted {zlib : Zlib} (mem : list byte) (size : Z) : bool :=
  let room := to_uInt (estimated_size size) in
  let p := first_pass mem size in
  buffer_exhausted (fst p) (room - Z.of_nat (List.length (snd p))).

Definition throws_runtime_error {A} (r : result A) : Prop :=
  exists what, r = Throw (runtime_error what).

Definition returns {A} (r : result A) : Prop := exists a, r = Ok a.

(** The band cell of a row, for each overload. *)
Definition band6 (r : row6) : cell (list byte) := let '(band, _, _, _, _, _) := r in band.
Definition band5 (r : row5) : cell (list byte) := let '(band, _, _, _, _) := r in band.
Definition band2 (r : row2) : cell (list byte) := let '(band, _) := r in band.
Definition band3 (r : row3) : cell (list byte) := let '(band, _, _) := r in band.

(** A reason for a row to be null: a NULL band, an empty band, or an
    exception raised inside the row's [try] block. *)
Definition null_cause {A : Type} (band_of : A -> cell (list byte))
           (try_block : A -> result BandStats.t) (r : A) : Prop :=
  is_valid (band_of r) = false \/
  value (band_of r) = [] \/
  exists e, try_block r = Throw e.

(** The batch function [F] returns a result for every batch; the result of
    each row is the one its row function gives on that row alone, and it is
    null whenever the row has a [null_cause]. *)
Definition null_rules {A : Type} (band_of : A -> cell (list byte))
           (try_block : A -> result BandStats.t)
           (row : A -> result row_result)
           (F : list A -> result (list row_result)) : Prop :=
  forall args, exists out,
    F args = Ok out /\
    Forall2 (fun r o => row r = Ok o /\ (null_cause band_of try_block r -> o = None))
            args out.

(** The bytes of a 2 by 2 [uint8] band. *)
Definition sample_bytes : list byte := [x01; x02; x03; x04].

(** A batch for the five-argument overload: a good row, a NULL band, and a
    row whose pixel type the registry rejects. *)
Definition sample_batch : list row5 :=
  [ (mkCell true sample_bytes, "uint8", 2%Z, 2%Z, "none");
    (mkCell false [], "uint8", 2%Z, 2%Z, "none");
    (mkCell true sample_bytes, "uint9", 2%Z, 2%Z, "none") ].

(** The batch function of the three-argument overload ends with an
    exception on the one-row batch [r]. *)
Definition surfaces_hard_error {backend : Backend} (r : row3) : Prop :=
  exists e, STRasterSummaryStatsMetadataBandFunction [r] = Throw e.






(** The samples the filter keeps. *)
Definition kept (nodata : float) (samples : list float) : list float :=
  filter (fun v => negb (Engine.matches_nodata nodata v)) samples.

(** *** The band list as described

    The definitions from here to [bands_described] follow the description of
    the band list extraction, on the text itself and with no positions; they
    are compared with [parse_bands] in Part II. *)

(** What follows the first occurrence of [key] in [s]. *)
Fixpoint after_first (key s : string) : option string :=
  if prefix key s then Some (drop (String.length key) s)
  else match s with
       | EmptyString => None
       | String _ r => after_first key r
       end.

(** [s] cut at the first occurrence of the character [c]: what precedes it
    and what follows it. *)
Fixpoint split_at (c : ascii) (s : string) : option (string * string) :=
  match s with
  | EmptyString => None
  | String a r =>
      if Ascii.eqb a c then Some (EmptyString, r)
      else match split_at c r with
           | Some (u, v) => Some (String a u, v)
           | None => None
           end
  end.

(** The span between the first '[' after the first occurrence of ["bands":]
    and the first ']' after that '['. *)
Definition bands_span (json : string) : option string :=
  match after_first (search_key "bands") json with
  | None => None
  | Some rest =>
      match split_at "[" rest with
      | None => None
      | Some (_, inner) =>
          match split_at "]" inner with
          | None => None
          | Some (span, _) => Some span
          end
      end
  end.

(** The objects of a span, left to right.  Outside an object ([cur = None])
    the scan looks for the next '{'; inside one it collects characters up to
    the first '}', which closes the object whatever was opened in between.
    An object still open at the end of the span is not one. *)
Fixpoint objects_from (cur : option string) (s : string) : list string :=
  match s with
  | EmptyString => []
  | String a r =>
      match cur with
      | None =>
          if Ascii.eqb a "{" then objects_from (Some "{") r
          else objects_from None r
      | Some obj =>
          if Ascii.eqb a "}" then (obj ++ "}") :: objects_from None r
          else objects_from (Some (obj ++ str1 a)) r
      end
  end.

(** The (name, type) pair of a band object; none when either is empty. *)
Definition band_entry (obj : string) : list (string * string) :=
  let name := extract_json_string obj "name" in
  let type := extract_json_string obj "type" in
  if is_empty name || is_empty type then [] else [(name, type)].

(** The band list as described: the entries of the objects of the span, in
    order; empty when there is no span. *)
Definition bands_described (json : string) : list (string * string) :=
  match bands_span json with
  | None => []
  | Some span => flat_map band_entry (objects_from None span)
  end.

(** ** Vocabulary of the further properties

    Stand-in data and the notions in which the properties of Part III are
    stated: the text-level reading of the extractors, and the text of a
    descriptor written out from its metadata. *)

(** A metadata value with three bands of distinct names. *)
Definition three_bands : RaquetMetadata :=
  mkMeta "none" 256 256 0 26 0 0 "quadbin" ""
         [("red", "uint8"); ("nir", "int16"); ("dem", "float32")].

(** A 2 by 3 [uint16] band. *)
Definition sample_u16 : list byte :=
  [x01; x00; x02; x00; x03; x00; x04; x00; x05; x00; x06; x01].

(** A descriptor for a 2 by 2 [uint8] band. *)
Definition small_descriptor : string :=
  json_text "{'tiling':{'block_width':2,'block_height':2},'bands':[{'name':'a','type':'uint8'}]}".

(** *** The extractors on the text *)

(** The longest prefix of [s] whose characters satisfy [p], and the rest. *)
Fixpoint take_while (p : ascii -> bool) (s : string) : string :=
  match s with
  | EmptyString => EmptyString
  | String c r => if p c then String c (take_while p r) else EmptyString
  end.

Fixpoint drop_while (p : ascii -> bool) (s : string) : string :=
  match s with
  | EmptyString => EmptyString
  | String c r => if p c then drop_while p r else s
  end.

(** The value read from the text that follows ["key":]: blanks and tabs are
    passed over; an opening double quote starts a value that runs to the next
    double quote (and is empty if there is none); anything else starts a value
    that runs to the first comma, closing brace or closing bracket and loses
    its trailing blanks and tabs. *)
Definition value_text (rest : string) : string :=
  match drop_while is_blank rest with
  | EmptyString => EmptyString
  | String c r =>
      if Ascii.eqb c dquote then
        match split_at dquote r with
        | Some (v, _) => v
        | None => EmptyString
        end
      else rtrim (take_while not_delim (String c r))
  end.

(** Every character of [s] satisfies [p]. *)
Fixpoint all_chars (p : ascii -> bool) (s : string) : bool :=
  match s with
  | EmptyString => true
  | String c r => p c && all_chars p r
  end.

Definition not_dquote (c : ascii) : bool := negb (Ascii.eqb c dquote).

(** The first occurrence of [key] in [pre ++ key] is the one at its end:
    [key] does not occur earlier, not even overlapping the end of [pre]. *)
Definition first_at (pre key : string) : Prop :=
  after_first key (pre ++ key) = Some "".

Fixpoint last_char (s : string) : option ascii :=
  match s with
  | EmptyString => None
  | String c EmptyString => Some c
  | String _ r => last_char r
  end.

(** [s] does not end with a blank or a tab. *)
Definition no_trailing_blank (s : string) : bool :=
  match last_char s with
  | Some c => negb (is_blank c)
  | None => true
  end.

(** [t] starts a value that is not quoted: its first character is neither a
    blank, nor a tab, nor a double quote. *)
Definition starts_unquoted (t : string) : bool :=
  match t with
  | EmptyString => false
  | String c _ => negb (is_blank c) && not_dquote c
  end.

(** [tail] ends an unquoted value: it is empty or starts with a comma, a
    closing brace or a closing bracket. *)
Definition ends_unquoted (tail : string) : bool :=
  match tail with
  | EmptyString => true
  | String c _ => negb (not_delim c)
  end.

(** The number a string of decimal digits denotes, most significant digit
    first, continuing from [acc]. *)
Fixpoint uint_value (d : Decimal.uint) (acc : Z) : Z :=
  match d with
  | Decimal.Nil => acc
  | Decimal.D0 l => uint_value l (10 * acc)
  | Decimal.D1 l => uint_value l (10 * acc + 1)
  | Decimal.D2 l => uint_value l (10 * acc + 2)
  | Decimal.D3 l => uint_value l (10 * acc + 3)
  | Decimal.D4 l => uint_value l (10 * acc + 4)
  | Decimal.D5 l => uint_value l (10 * acc + 5)
  | Decimal.D6 l => uint_value l (10 * acc + 6)
  | Decimal.D7 l => uint_value l (10 * acc + 7)
  | Decimal.D8 l => uint_value l (10 * acc + 8)
  | Decimal.D9 l => uint_value l (10 * acc + 9)
  end%Z.

(** [rest] does not start with a decimal digit. *)
Definition no_digit_ahead (rest : string) : bool :=
  match rest with
  | EmptyString => true
  | String c _ => match digit_val c with Some _ => false | None => true end
  end.

(** A character of a decimal number: a digit or the minus sign. *)
Definition is_decimal_char (c : ascii) : bool :=
  match digit_val c with
  | Some _ => true
  | None => Ascii.eqb c "-"
  end.

(** The characters the brace-matching loop passes over, starting at depth
    [depth]: it stops where the depth reaches zero or the text ends. *)
Fixpoint object_text (rest : string) (depth : Z) : string :=
  match rest with
  | EmptyString => EmptyString
  | String c r =>
      if (0 <? depth)%Z then
        String c (object_text r (if Ascii.eqb c "{" then depth + 1
                                 else if Ascii.eqb c "}" then depth - 1
                                 else depth)%Z)
      else EmptyString
  end.

(** With [open] braces already open, the braces of [s] close them all, never
    closing more than are open, and leave none open. *)
Fixpoint balanced_from (s : string) (open : nat) : bool :=
  match s with
  | EmptyString => Nat.eqb open 0
  | String c r =>
      if Ascii.eqb c "{" then balanced_from r (S open)
      else if Ascii.eqb c "}" then
             match open with
             | O => false
             | S o => balanced_from r o
             end
      else balanced_from r open
  end.

(** The braces of [s] never close more than [s] has opened. *)
Fixpoint never_closes (s : string) (open : nat) : bool :=
  match s with
  | EmptyString => true
  | String c r =>
      if Ascii.eqb c "{" then never_closes r (S open)
      else if Ascii.eqb c "}" then
             match open with
             | O => false
             | S o => never_closes r o
             end
      else never_closes r open
  end.

(** [prefix], computed with [Ascii.eqb]. *)
Fixpoint prefixb (key s : string) : bool :=
  match key with
  | EmptyString => true
  | String a key' =>
      match s with
      | EmptyString => false
      | String b s' => Ascii.eqb a b && prefixb key' s'
      end
  end.

Definition starts_with_dquote (key : string) : bool :=
  match key with
  | EmptyString => false
  | String c _ => Ascii.eqb c dquote
  end.

(** *** The text of a descriptor

    The sources read descriptors and never write one.  The definitions from
    here to [writable] lay out the text of a descriptor from its metadata,
    with the keys the parser looks for, so that what the parser reads can be
    compared with what was written. *)

(** A value between double quotes. *)
Definition quoted (v : string) : string := String dquote (v ++ str1 dquote).

(** The characters a band name or type can be made of and still be read
    back: any but the double quote, the closing brace and the closing
    bracket. *)
Definition band_char (c : ascii) : bool :=
  not_dquote c && negb (Ascii.eqb c "}") && negb (Ascii.eqb c "]").

Definition band_ok (band : string * string) : bool :=
  negb (is_empty (fst band)) && all_chars band_char (fst band) &&
  negb (is_empty (snd band)) && all_chars band_char (snd band).

(** A band object, and a band list with its objects separated by commas. *)
Definition band_fields (band : string * string) : string :=
  search_key "name" ++ quoted (fst band) ++ "," ++
  search_key "type" ++ quoted (snd band).

Definition render_band (band : string * string) : string :=
  "{" ++ band_fields band ++ "}".

Fixpoint render_more (bs : list (string * string)) : string :=
  match bs with
  | [] => ""
  | band :: rest => "," ++ render_band band ++ render_more rest
  end.

Definition render_bands (bs : list (string * string)) : string :=
  match bs with
  | [] => ""
  | band :: rest => render_band band ++ render_more rest
  end.

Definition tiling_fields (m : RaquetMetadata) : string :=
  search_key "min_zoom" ++ to_string (min_zoom m) ++ "," ++
  search_key "max_zoom" ++ to_string (max_zoom m) ++ "," ++
  search_key "pixel_zoom" ++ to_string (pixel_zoom m) ++ "," ++
  search_key "num_blocks" ++ to_string (num_blocks m) ++ "," ++
  search_key "block_width" ++ to_string (block_width m) ++ "," ++
  search_key "block_height" ++ to_string (block_height m) ++ "," ++
  search_key "scheme" ++ quoted (scheme m).

Definition render_tiling (m : RaquetMetadata) : string :=
  "{" ++ tiling_fields m ++ "}".

(** The text of a descriptor: compression, reference system, tiling object
    and band list, in that order and without blanks. *)
Definition render_metadata (m : RaquetMetadata) : string :=
  "{" ++ search_key "compression" ++ quoted (compression m) ++ "," ++
  search_key "crs" ++ quoted (crs m) ++ "," ++
  search_key "tiling" ++ render_tiling m ++ "," ++
  search_key "bands" ++ "[" ++ render_bands (bands m) ++ "]}".

(** The nodata argument of the six-argument overload that stands for what an
    overload with metadata computes from the band information: the slot is
    valid when the band has a nodata value, and holds it. *)
Definition nodata_cell (nd : bool * float) : cell float := mkCell (fst nd) (snd nd).

Definition brace_free (c : ascii) : bool :=
  negb (Ascii.eqb c "{") && negb (Ascii.eqb c "}").

Definition int_ok (z : Z) : bool := (INT_MIN <=? z)%Z && (z <=? INT_MAX)%Z.

(** The metadata that [render_metadata] writes in a form [parse_metadata]
    reads back: a compression that is not empty, no double quote in the
    compression, the reference system and the scheme, no brace in the scheme,
    numbers in the range of [int], and bands as [band_ok] wants them. *)
Definition writable (m : RaquetMetadata) : bool :=
  negb (is_empty (compression m)) &&
  all_chars not_dquote (compression m) &&
  all_chars not_dquote (crs m) &&
  all_chars not_dquote (scheme m) &&
  all_chars brace_free (scheme m) &&
  int_ok (min_zoom m) && int_ok (max_zoom m) && int_ok (pixel_zoom m) &&
  int_ok (num_blocks m) && int_ok (block_width m) && int_ok (block_height m) &&
  forallb band_ok (bands m).

(* ================================================================== *)
(** * Part II.  Properties                                             *)
(* ================================================================== *)

(** ** Facts about the [std::string] primitives *)

Lemma prefix_nil : forall s, prefix "" s = true.
Proof. intros s. with_strategy transparent [prefix] (destruct s; reflexivity). Qed.

Lemma prefix_cons : forall a s1 b s2,
  prefix (String a s1) (String b s2) = Ascii.eqb a b && prefix s1 s2.
Proof.
  intros a s1 b s2.
  with_strategy transparent [prefix] (cbn [prefix]).
  destruct (ascii_dec a b) as [Heq | Hneq].
  - subst. rewrite Ascii.eqb_refl. reflexivity.
  - apply Ascii.eqb_neq in Hneq. rewrite Hneq. reflexivity.
Qed.

Lemma prefix_empty_r : forall a s1, prefix (String a s1) "" = false.
Proof. intros a s1. with_strategy transparent [prefix] reflexivity. Qed.






(** ** The descriptor parser *)

(** [json_text] leaves no apostrophe behind, and the example starts with
    an opening brace and a double quote. *)
Example descriptor_example_text :
  find_char descriptor_example "'" 0 = None /\
  substr descriptor_example 0 2 = String "{" (str1 dquote) /\
  String.length descriptor_example = 182.
Proof. vm_compute. repeat split; reflexivity. Qed.

(** C8: the descriptor of the spec's example parses to compression "gzip",
    block width and height 512, maximal zoom 10, and the single band
    ("elevation", "float32"). *)
Theorem parse_metadata_example :
  let meta := parse_metadata descriptor_example in
  compression meta = "gzip" /\
  block_width meta = 512%Z /\
  block_height meta = 512%Z /\
  max_zoom meta = 10%Z /\
  bands meta = [("elevation", "float32")].
Proof. vm_compute. repeat split; reflexivity. Qed.

(** *** Defaults *)

Lemma extract_json_int_default : forall json key default_val,
  extract_json_string json key = "" \/ stoi (extract_json_string json key) = None ->
  extract_json_int json key default_val = default_val.
Proof.
  intros json key default_val [Hempty | Hfail]; unfold extract_json_int.
  - rewrite Hempty. reflexivity.
  - rewrite Hfail. destruct (is_empty (extract_json_string json key)); reflexivity.
Qed.

Lemma parse_metadata_compression_default : forall json,
  extract_json_string json "compression" = "" ->
  compression (parse_metadata json) = "none".
Proof.
  intros json Hempty. unfold parse_metadata. rewrite Hempty.
  destruct (negb (is_empty (extract_json_object json "tiling"))); reflexivity.
Qed.

Lemma parse_metadata_without_tiling : forall json,
  extract_json_object json "tiling" = "" ->
  let meta := parse_metadata json in
  block_width meta = 256%Z /\ block_height meta = 256%Z /\
  min_zoom meta = 0%Z /\ max_zoom meta = 26%Z /\ pixel_zoom meta = 0%Z /\
  num_blocks meta = 0%Z /\ scheme meta = "quadbin".
Proof.
  intros json Hempty. unfold parse_metadata. rewrite Hempty. cbn.
  repeat split; reflexivity.
Qed.

(** With a tiling object, [scheme] is whatever the extraction gives. *)
Lemma parse_metadata_scheme_with_tiling : forall json,
  extract_json_object json "tiling" <> "" ->
  scheme (parse_metadata json) =
  extract_json_string (extract_json_object json "tiling") "scheme".
Proof.
  intros json Htiling. unfold parse_metadata.
  destruct (extract_json_object json "tiling") as [| a t]; [contradiction |].
  reflexivity.
Qed.

(** *** The positions handed to [substr] lie inside the string *)

Lemma char_at_bound : forall s pos c,
  char_at s pos = Some c -> pos < String.length s.
Proof.
  unfold char_at. induction s as [| a s IH]; intros pos c Hget.
  - destruct pos; discriminate.
  - destruct pos as [| pos]; cbn [String.length]; [lia |].
    cbn [get] in Hget. apply IH in Hget. lia.
Qed.

Lemma find_char_bound : forall c s pos e,
  find_char s c pos = Some e -> pos <= e < String.length s.
Proof.
  intros c. unfold find_char, str1. induction s as [| a s IH]; intros pos e Hfind.
  - destruct pos; discriminate.
  - destruct pos as [| pos]; cbn [index String.length] in *.
    + destruct (prefix (String c "") (String a s)).
      * injection Hfind as <-. lia.
      * destruct (index 0 (String c "") s) as [e' |] eqn:Hrest; [| discriminate].
        injection Hfind as <-. apply IH in Hrest. lia.
    + destruct (index pos (String c "") s) as [e' |] eqn:Hrest; [| discriminate].
      injection Hfind as <-. apply IH in Hrest. lia.
Qed.

(** C5: on a descriptor whose tiling object carries no scheme key,
    [parse_metadata] leaves [scheme] empty; the default "quadbin" is only
    set on the branch without a tiling object, as it is on the empty
    descriptor. *)
Theorem parse_metadata_scheme_not_defaulted :
  scheme (parse_metadata tiling_without_scheme) = "" /\
  scheme (parse_metadata "") = "quadbin".
Proof. vm_compute. split; reflexivity. Qed.

(** ** The band list: [parse_bands] against its description *)

(** *** Positions and suffixes *)

Lemma drop_nil : forall n, drop n "" = "".
Proof. intros [| n]; reflexivity. Qed.

Lemma drop_app_length : forall u v, drop (String.length u) (u ++ v) = v.
Proof. induction u as [| a u IH]; intros v; [reflexivity | apply IH]. Qed.

Lemma drop_add : forall n m s, drop (n + m) s = drop m (drop n s).
Proof.
  induction n as [| n IH]; intros m s.
  - reflexivity.
  - destruct s as [| a s]; cbn [Nat.add drop].
    + rewrite drop_nil. reflexivity.
    + apply IH.
Qed.

Lemma length_drop : forall n s, String.length (drop n s) = String.length s - n.
Proof.
  induction n as [| n IH]; intros s.
  - cbn. lia.
  - destruct s as [| a s]; cbn [drop String.length]; [reflexivity | apply IH].
Qed.

Lemma substr_drop : forall s pos n, substr s pos n = substr (drop pos s) 0 n.
Proof.
  unfold substr. induction s as [| a s IH]; intros pos n.
  - destruct pos, n; reflexivity.
  - destruct pos as [| pos]; [reflexivity |]. cbn [substring drop]. apply IH.
Qed.

Lemma substr_app_length : forall u v, substr (u ++ v) 0 (String.length u) = u.
Proof.
  unfold substr. induction u as [| a u IH]; intros v.
  - destruct v; reflexivity.
  - cbn. rewrite IH. reflexivity.
Qed.

Lemma length_app_string : forall u v,
  String.length (u ++ v) = String.length u + String.length v.
Proof. induction u as [| a u IH]; intros v; cbn; [reflexivity | rewrite IH; reflexivity]. Qed.

Lemma app_assoc_string : forall u v w : string, (u ++ v) ++ w = u ++ (v ++ w).
Proof. induction u as [| a u IH]; intros v w; cbn; [reflexivity | rewrite IH; reflexivity]. Qed.

Lemma split_at_app : forall c s u v,
  split_at c s = Some (u, v) -> s = u ++ String c v.
Proof.
  intros c. induction s as [| a s IH]; intros u v Hsplit; [discriminate |].
  cbn [split_at] in Hsplit. destruct (Ascii.eqb_spec a c) as [-> | Hneq].
  - injection Hsplit as <- <-. reflexivity.
  - destruct (split_at c s) as [[u' v'] |]; [| discriminate].
    injection Hsplit as <- <-. cbn. rewrite (IH u' v' eq_refl). reflexivity.
Qed.

(** [find_char] is the cut of the suffix at [pos], counted from [pos]. *)
Lemma find_char_split : forall c s pos,
  find_char s c pos =
  match split_at c (drop pos s) with
  | Some (u, _) => Some (pos + String.length u)
  | None => None
  end.
Proof.
  intros c. unfold find_char, str1. induction s as [| a s IH]; intros pos.
  - destruct pos; reflexivity.
  - destruct pos as [| pos]; cbn [index drop].
    + rewrite prefix_cons, prefix_nil, andb_true_r.
      cbn [split_at]. rewrite (Ascii.eqb_sym a c).
      destruct (Ascii.eqb c a); [reflexivity |].
      rewrite (IH 0). cbn [drop].
      destruct (split_at c s) as [[u v] |]; reflexivity.
    + rewrite (IH pos).
      destruct (split_at c (drop pos s)) as [[u v] |]; reflexivity.
Qed.

Lemma prefix_app_drop : forall u w,
  prefix u w = true -> w = u ++ drop (String.length u) w.
Proof.
  induction u as [| a u IH]; intros w Hprefix.
  - reflexivity.
  - destruct w as [| b w]; [rewrite prefix_empty_r in Hprefix; discriminate |].
    rewrite prefix_cons in Hprefix. apply andb_true_iff in Hprefix.
    destruct Hprefix as [Hab Hrest]. apply Ascii.eqb_eq in Hab. subst b.
    cbn. f_equal. apply IH. exact Hrest.
Qed.

(** [find] from position 0 is the first occurrence. *)
Lemma find_after_first : forall key s,
  key <> "" ->
  match find s key 0 with
  | Some p => after_first key s = Some (drop (p + String.length key) s) /\
              drop p s = key ++ drop (p + String.length key) s
  | None => after_first key s = None
  end.
Proof.
  intros key s Hkey. unfold find.
  destruct key as [| k key]; [contradiction |]. clear Hkey.
  induction s as [| a s IH].
  - cbn [index after_first]. rewrite prefix_empty_r. reflexivity.
  - cbn [index after_first].
    destruct (prefix (String k key) (String a s)) eqn:Hprefix.
    + split; [reflexivity |]. apply prefix_app_drop. exact Hprefix.
    + destruct (index 0 (String k key) s) as [p |].
      * destruct IH as [Hafter Hdrop]. split; [exact Hafter | exact Hdrop].
      * exact IH.
Qed.

(** *** The object scan, one object at a time *)

Lemma objects_outside : forall s,
  objects_from None s =
  match split_at "{" s with
  | Some (_, r) => objects_from (Some "{") r
  | None => []
  end.
Proof.
  induction s as [| a s IH]; [reflexivity |].
  cbn [objects_from split_at]. destruct (Ascii.eqb a "{"); [reflexivity |].
  rewrite IH. destruct (split_at "{" s) as [[u v] |]; reflexivity.
Qed.

Lemma objects_inside : forall s obj,
  objects_from (Some obj) s =
  match split_at "}" s with
  | Some (body, rest) => (obj ++ body ++ "}") :: objects_from None rest
  | None => []
  end.
Proof.
  induction s as [| a s IH]; intros obj; [reflexivity |].
  cbn [objects_from split_at]. destruct (Ascii.eqb a "}"); [reflexivity |].
  rewrite IH. destruct (split_at "}" s) as [[body rest] |]; [| reflexivity].
  unfold str1. rewrite app_assoc_string. reflexivity.
Qed.

Lemma length_zero_empty : forall s, String.length s = 0 -> s = "".
Proof. intros [| a s]; [reflexivity | discriminate]. Qed.

(** The loop of [parse_bands], started at [pos] with enough iterations left,
    yields the entries of the objects of the suffix at [pos]. *)
Lemma parse_bands_loop_objects : forall fuel bands_str pos,
  String.length (drop pos bands_str) <= fuel ->
  parse_bands_loop fuel bands_str pos =
  flat_map band_entry (objects_from None (drop pos bands_str)).
Proof.
  induction fuel as [| fuel IH]; intros bands_str pos Hfuel.
  - rewrite (length_zero_empty (drop pos bands_str)) by lia. reflexivity.
  - cbn [parse_bands_loop].
    destruct (Nat.ltb_spec pos (String.length bands_str)) as [Hlt | Hge].
    + rewrite find_char_split, objects_outside.
      destruct (split_at "{" (drop pos bands_str)) as [[u r] |] eqn:Hopen;
        [| reflexivity].
      pose proof (split_at_app _ _ _ _ Hopen) as Hsuffix.
      assert (Hstart : drop (pos + String.length u) bands_str = String "{" r)
        by (rewrite drop_add, Hsuffix; apply drop_app_length).
      rewrite find_char_split, Hstart. cbn [split_at].
      change (Ascii.eqb "{" "}") with false. cbv iota.
      rewrite objects_inside.
      destruct (split_at "}" r) as [[body rest] |] eqn:Hclose; [| reflexivity].
      pose proof (split_at_app _ _ _ _ Hclose) as Hr.
      cbn [String.length].
      set (obj_start := pos + String.length u).
      set (obj_end := obj_start + S (String.length body)).
      assert (Hobj : substr bands_str obj_start (obj_end - obj_start + 1)
                     = "{" ++ body ++ "}").
      { rewrite substr_drop. fold obj_start in Hstart. rewrite Hstart, Hr.
        replace (obj_end - obj_start + 1)
          with (String.length ("{" ++ body ++ "}"))
          by (subst obj_end; cbn [append String.length];
              rewrite length_app_string; cbn [String.length]; lia).
        change (String "{" (body ++ String "}" rest))
          with ("{" ++ (body ++ String "}" rest)).
        replace ("{" ++ (body ++ String "}" rest))
          with (("{" ++ body ++ "}") ++ rest)
          by (cbn [append]; rewrite app_assoc_string; reflexivity).
        apply substr_app_length. }
      assert (Hnext : drop (obj_end + 1) bands_str = rest).
      { subst obj_end. rewrite <- Nat.add_assoc, drop_add.
        fold obj_start in Hstart. rewrite Hstart, Hr.
        replace (S (String.length body) + 1)
          with (String.length ("{" ++ body ++ "}"))
          by (cbn [append String.length];
              rewrite length_app_string; cbn [String.length]; lia).
        replace (String "{" (body ++ String "}" rest))
          with (("{" ++ body ++ "}") ++ rest)
          by (cbn [append]; rewrite app_assoc_string; reflexivity).
        apply drop_app_length. }
      rewrite Hobj, IH, Hnext.
      * cbn [flat_map]. unfold band_entry.
        destruct (is_empty (extract_json_string ("{" ++ body ++ "}") "name"));
          destruct (is_empty (extract_json_string ("{" ++ body ++ "}") "type"));
          reflexivity.
      * rewrite Hnext. rewrite Hsuffix, Hr in Hfuel.
        rewrite !length_app_string in Hfuel. cbn [String.length] in Hfuel.
        rewrite length_app_string in Hfuel. cbn [String.length] in Hfuel. lia.
    + rewrite (length_zero_empty (drop pos bands_str))
        by (rewrite length_drop; lia).
      reflexivity.
Qed.

Lemma split_at_bracket_after_key : forall rest,
  split_at "[" (search_key "bands" ++ rest) =
  match split_at "[" rest with
  | Some (u, v) => Some (search_key "bands" ++ u, v)
  | None => None
  end.
Proof.
  intros rest. cbn. destruct (split_at "[" rest) as [[u v] |]; reflexivity.
Qed.

(** C9: for every descriptor, [parse_bands] returns the entries, in order,
    of the objects found in the span between the first '[' after the first
    ["bands":] and the first ']' after that '[', an object running from a '{'
    to the first '}' after it; entries with an empty name or type are
    dropped. *)
Theorem parse_bands_as_described :
  forall json : string, parse_bands json = bands_described json.
Proof.
  intros json. unfold parse_bands, bands_described, bands_span.
  pose proof (find_after_first (search_key "bands") json) as Hfind.
  destruct (find json (search_key "bands") 0) as [bands_pos |].
  - destruct Hfind as [Hafter Hdrop]; [discriminate |].
    rewrite Hafter. set (rest := drop (bands_pos + String.length (search_key "bands")) json) in *.
    rewrite find_char_split, Hdrop, split_at_bracket_after_key.
    destruct (split_at "[" rest) as [[u inner] |] eqn:Hopen; [| reflexivity].
    pose proof (split_at_app _ _ _ _ Hopen) as Hrest.
    set (arr_start := bands_pos + String.length (search_key "bands" ++ u)).
    assert (Hstart : drop arr_start json = String "[" inner).
    { subst arr_start. rewrite drop_add, Hdrop, Hrest, <- app_assoc_string.
      apply drop_app_length. }
    rewrite find_char_split, Hstart. cbn [split_at].
    change (Ascii.eqb "[" "]") with false. cbv iota.
    destruct (split_at "]" inner) as [[span tail] |] eqn:Hclose; [| reflexivity].
    pose proof (split_at_app _ _ _ _ Hclose) as Hinner.
    cbn [String.length].
    assert (Hspan : substr json (arr_start + 1)
                      (arr_start + S (String.length span) - arr_start - 1) = span).
    { rewrite substr_drop, drop_add, Hstart. cbn [drop]. rewrite Hinner.
      replace (arr_start + S (String.length span) - arr_start - 1)
        with (String.length span) by lia.
      apply substr_app_length. }
    rewrite Hspan. apply parse_bands_loop_objects. cbn [drop]. lia.
  - rewrite Hfind; [reflexivity | discriminate].
Qed.

(** ** Decompression *)

Lemma length_zeros : forall n, (0 <= n)%Z -> Z.of_nat (List.length (zeros n)) = n.
Proof. intros n Hn. unfold zeros. rewrite repeat_length. lia. Qed.

Lemma length_written : forall out buf,
  (List.length out <= List.length buf)%nat ->
  List.length (written out buf) = List.length buf.
Proof.
  intros out buf Hle. unfold written.
  rewrite length_app, length_skipn. lia.
Qed.

Lemma length_resize : forall v n,
  (0 <= n)%Z -> Z.of_nat (List.length (resize v n)) = n.
Proof.
  intros v n Hn. unfold resize, zeros.
  rewrite length_app, length_firstn, repeat_length. lia.
Qed.

Lemma to_uInt_range : forall z, (0 <= to_uInt z < 2 ^ 32)%Z.
Proof. intros z. unfold to_uInt. apply Z.mod_pos_bound. lia. Qed.

Lemma to_uInt_le : forall z, (0 <= z)%Z -> (to_uInt z <= z)%Z.
Proof. intros z Hz. unfold to_uInt. apply Z.mod_le; lia. Qed.

Lemma estimated_size_bounds : forall size,
  (0 < size)%Z -> (size * 200 < 2 ^ 64)%Z ->
  (0 < estimated_size size)%Z /\ (estimated_size size * 4 < 2 ^ 64)%Z.
Proof.
  intros size Hpos Hsmall. unfold estimated_size, wrap64.
  destruct (Z.ltb_spec 100 size).
  - rewrite Z.mod_small by lia. lia.
  - lia.
Qed.

(** C6: a declared size of zero gives the empty output whatever the pointer,
    null included, and a null pointer with a nonzero declared size is an
    error; in both cases nothing is read and the codec is not called. *)
Theorem decompress_empty_and_null :
  forall (zlib : Zlib) (data : option (list byte)) (size : Z),
    decompress_gzip_log data 0 = ([], Ok []) /\
    decompress_gzip data 0 = Ok [] /\
    (size <> 0%Z ->
     decompress_gzip_log None size =
       ([], Throw (runtime_error "Null data pointer for decompression")) /\
     decompress_gzip None size =
       Throw (runtime_error "Null data pointer for decompression")).
Proof.
  intros zlib data size. split; [reflexivity |]. split; [reflexivity |].
  intros Hsize. unfold decompress_gzip, decompress_gzip_log.
  destruct (Z.eqb_spec size 0) as [Heq | _]; [contradiction |].
  split; reflexivity.
Qed.

Lemma decompress_empty_and_null_witness :
  decompress_gzip (zlib := stored_zlib) None 0 = Ok [] /\
  decompress_gzip (zlib := stored_zlib) None 7 =
    Throw (runtime_error "Null data pointer for decompression").
Proof.
  destruct (decompress_empty_and_null stored_zlib None 7) as [_ [Hempty Hnull]].
  split.
  - exact Hempty.
  - apply Hnull. discriminate.
Defined.

(** Splits a statement by cases into its cases and closes each of them: by
    computation, by a contradiction among the hypotheses, or by exhibiting the
    value returned or the message thrown. *)
Ltac settle_cases :=
  repeat match goal with
         | |- _ /\ _ => split
         | |- _ -> _ => intro
         end;
  solve [ reflexivity
        | discriminate
        | contradiction
        | eexists; reflexivity
        | simpl; lia
        | auto ].

(** The passes of [decompress_gzip]: [inflate] is called at most twice.
    When the first pass reports the output buffer exhausted, the one retry
    runs on a vector four times the size of the first, with the room that
    [static_cast<uInt>] leaves of it, and its outcome is final: end of stream
    returns, anything else throws.  A first pass that fails in any other way
    throws with no retry, and so does a stream that cannot be initialised. *)
Lemma decompress_gzip_attempts :
  forall (zlib : Zlib) (mem : list byte) (size : Z),
    (0 < size)%Z -> (size * 200 < 2 ^ 64)%Z ->
    let est := estimated_size size in
    let a1 := mkAttempt est (to_uInt est) in
    let a2 := mkAttempt (4 * est) (to_uInt (4 * est)) in
    let log := fst (decompress_gzip_log (Some mem) size) in
    let res := decompress_gzip (Some mem) size in
    (List.length log <= 2)%nat /\
    (inflateInit2 0 <> Z_OK -> log = [] /\ throws_runtime_error res) /\
    (inflateInit2 0 = Z_OK ->
     (first_pass_exhausted mem size = true ->
        (inflateInit2 1 = Z_OK ->
           log = [a1; a2] /\
           buffer_size a2 = (4 * buffer_size a1)%Z /\
           (4 * est < 2 ^ 32 -> room a2 = 4 * room a1)%Z /\
           (fst (retry_pass mem size) = Z_STREAM_END -> returns res) /\
           (fst (retry_pass mem size) <> Z_STREAM_END -> throws_runtime_error res)) /\
        (inflateInit2 1 <> Z_OK -> log = [a1] /\ throws_runtime_error res)) /\
     (first_pass_exhausted mem size = false ->
        log = [a1] /\
        (fst (first_pass mem size) = Z_STREAM_END -> returns res) /\
        (fst (first_pass mem size) <> Z_STREAM_END -> throws_runtime_error res))).
Proof.
  intros zlib mem size Hpos Hsmall est a1 a2 log res.
  destruct (estimated_size_bounds size Hpos Hsmall) as [Hest Hest4].
  fold est in Hest, Hest4.
  assert (Hlen0 : Z.of_nat (List.length (zeros est)) = est)
    by (apply length_zeros; lia).
  subst log res. unfold decompress_gzip, decompress_gzip_log.
  destruct (Z.eqb_spec size 0) as [Hz | _]; [lia |].
  fold est.
  destruct (Z.eqb_spec (inflateInit2 0) Z_OK) as [Hinit | Hinit]; cbn [negb].
  2:{ settle_cases. }
  rewrite Hlen0.
  unfold first_pass_exhausted, first_pass, retry_pass. fold est.
  pose proof (inflate_fits (stream_input mem size) (to_uInt est)
                (proj1 (to_uInt_range est))) as Hfit1.
  destruct (inflate (stream_input mem size) (to_uInt est)) as [ret1 out1] eqn:Hp1.
  cbn [fst snd] in *.
  assert (Hlen1 : Z.of_nat (List.length (written out1 (zeros est))) = est).
  { rewrite length_written; [exact Hlen0 |].
    pose proof (to_uInt_le est ltac:(lia)). lia. }
  rewrite Hlen1.
  assert (Hw : wrap64 (est * 4) = (4 * est)%Z)
    by (unfold wrap64; rewrite Z.mod_small; lia).
  rewrite Hw.
  assert (Hlen2 : Z.of_nat (List.length (resize (written out1 (zeros est)) (4 * est)))
                  = (4 * est)%Z)
    by (apply length_resize; lia).
  rewrite Hlen2.
  assert (Hroom : (4 * est < 2 ^ 32 -> room a2 = 4 * room a1)%Z).
  { intros Hfit. subst a1 a2. cbn [room]. unfold to_uInt.
    rewrite !Z.mod_small by lia. reflexivity. }
  destruct (buffer_exhausted ret1 (to_uInt est - Z.of_nat (List.length out1))) eqn:Hex.
  - (* exhausted: the retry *)
    destruct (Z.eqb_spec (inflateInit2 1) Z_OK) as [Hinit2 | Hinit2]; cbn [negb].
    + destruct (inflate (stream_input mem size) (to_uInt (4 * est)))
        as [ret2 out2] eqn:Hp2.
      cbn [fst snd].
      destruct (Z.eqb_spec ret2 Z_STREAM_END) as [Hend | Hend];
        cbn [negb fst snd]; settle_cases.
    + settle_cases.
  - (* any other first-pass outcome *)
    destruct (Z.eqb_spec ret1 Z_STREAM_END) as [Hend | Hend];
      cbn [negb fst snd]; settle_cases.
Qed.

Lemma length_zeros_any : forall n, Z.of_nat (List.length (zeros n)) = Z.max 0 n.
Proof. intros n. unfold zeros. rewrite repeat_length. lia. Qed.

Lemma flood_first_pass_exhausted : forall total mem size,
  (to_uInt (estimated_size size) < total)%Z ->
  first_pass_exhausted (zlib := flood_zlib total) mem size = true.
Proof.
  intros total mem size Htotal.
  pose proof (to_uInt_range (estimated_size size)) as Hroom.
  unfold first_pass_exhausted, first_pass. cbn [inflate flood_zlib].
  unfold flood_inflate.
  destruct (Z.leb_spec total (to_uInt (estimated_size size))) as [Hle | _]; [lia |].
  cbn [fst snd]. rewrite length_zeros_any. unfold buffer_exhausted.
  rewrite Z.eqb_refl. cbn [andb]. apply Z.eqb_eq. lia.
Qed.

Lemma flood_retry_pass : forall total mem size,
  (to_uInt (4 * estimated_size size) < total)%Z ->
  fst (retry_pass (zlib := flood_zlib total) mem size) = Z_BUF_ERROR.
Proof.
  intros total mem size Htotal. unfold retry_pass. cbn [inflate flood_zlib].
  unfold flood_inflate.
  destruct (Z.leb_spec total (to_uInt (4 * estimated_size size))) as [Hle | _];
    [lia | reflexivity].
Qed.

(** C7: on an input of 21474837 bytes whose first pass exhausts its buffer,
    the retry does not run with four times the output space.  The first pass
    hands zlib the 1073741850 bytes of its vector; the vector is then resized
    to 4294967400 bytes, four times as many, and the retry hands zlib the 104
    bytes that [static_cast<uInt>] leaves of that size, less than the first
    pass had.  The retry can write 104 bytes at most, and when it does not
    reach the end of the stream the call throws. *)
Theorem decompress_retry_room_truncated :
  forall (zlib : Zlib) (mem : list byte),
    inflateInit2 0 = Z_OK -> inflateInit2 1 = Z_OK ->
    first_pass_exhausted mem 21474837 = true ->
    let first := mkAttempt 1073741850 1073741850 in
    let retry := mkAttempt 4294967400 104 in
    fst (decompress_gzip_log (Some mem) 21474837) = [first; retry] /\
    buffer_size retry = (4 * buffer_size first)%Z /\
    (room retry < room first)%Z /\
    (Z.of_nat (List.length (snd (retry_pass mem 21474837))) <= 104)%Z /\
    (fst (retry_pass mem 21474837) <> Z_STREAM_END ->
     throws_runtime_error (decompress_gzip (Some mem) 21474837)).
Proof.
  intros zlib mem Hinit Hinit2 Hexhausted first retry.
  destruct (decompress_gzip_attempts zlib mem 21474837 eq_refl eq_refl)
    as [_ [_ Hpasses]].
  destruct (Hpasses Hinit) as [Hretry _].
  destruct (Hretry Hexhausted) as [Hsecond _].
  destruct (Hsecond Hinit2) as [Hlog [_ [_ [_ Hthrows]]]].
  split; [exact Hlog |].
  split; [reflexivity |]. split; [reflexivity |]. split.
  - unfold retry_pass.
    apply (inflate_fits (stream_input mem 21474837) 104). discriminate.
  - exact Hthrows.
Qed.

Lemma decompress_retry_room_truncated_witness :
  let zlib := flood_zlib (2 ^ 31) in
  let mem := zeros 21474837 in
  fst (decompress_gzip_log (Some mem) 21474837) =
    [mkAttempt 1073741850 1073741850; mkAttempt 4294967400 104] /\
  throws_runtime_error (decompress_gzip (Some mem) 21474837).
Proof.
  intros zlib mem.
  destruct (decompress_retry_room_truncated zlib mem eq_refl eq_refl
              (flood_first_pass_exhausted (2 ^ 31) mem 21474837 eq_refl))
    as [Hlog [_ [_ [_ Hthrows]]]].
  split; [exact Hlog |].
  apply Hthrows. subst zlib.
  rewrite (flood_retry_pass (2 ^ 31) mem 21474837 eq_refl). discriminate.
Defined.

(** ** Pixel decoding *)

Lemma pixel_offset_mod : forall pixel_x pixel_y width,
  pixel_offset pixel_x pixel_y width = ((pixel_y * width + pixel_x) mod 2 ^ 64)%Z.
Proof.
  intros pixel_x pixel_y width. unfold pixel_offset, wrap64.
  rewrite <- Z.mul_mod by lia. rewrite <- Z.add_mod by lia. reflexivity.
Qed.

Lemma get_pixel_value_inside : forall data offset dtype,
  (0 <= offset)%Z ->
  ((offset + 1) * dtype_size dtype <= Z.of_nat (List.length data))%Z ->
  exists v, get_pixel_value data offset dtype = Some v.
Proof.
  intros data offset dtype Hoff Hin. unfold get_pixel_value.
  destruct (Z.leb_spec (offset * dtype_size dtype + dtype_size dtype)
                       (Z.of_nat (List.length data))) as [_ | Hout].
  - eexists. reflexivity.
  - lia.
Qed.

Lemma get_pixel_value_outside : forall data offset dtype,
  (Z.of_nat (List.length data) < (offset + 1) * dtype_size dtype)%Z ->
  get_pixel_value data offset dtype = None.
Proof.
  intros data offset dtype Hout. unfold get_pixel_value.
  destruct (Z.leb_spec (offset * dtype_size dtype + dtype_size dtype)
                       (Z.of_nat (List.length data))) as [Hin | _].
  - lia.
  - reflexivity.
Qed.

(** C1, as stated, fails: on the 2 by 2 [uint8] band [1 2 3 4], the column
    [x = 5] is outside the grid and the call reads element 5 of a buffer of
    four; the column [x = 2] is outside the grid and the call returns the
    value of pixel (0, 1).  Neither call throws. *)
Lemma decode_pixel_out_of_range_reads :
  decode_pixel (zlib := stored_zlib) (Some sample_bytes) 4 "uint8" 5 0 2 false
    = ReadsPastEnd 5 /\
  decode_pixel (zlib := stored_zlib) (Some sample_bytes) 4 "uint8" 2 0 2 false
    = Returns 3%float /\
  (forall e,
     decode_pixel (zlib := stored_zlib) (Some sample_bytes) 4 "uint8" 5 0 2 false
       <> Throws e).
Proof.
  assert (Hpast : decode_pixel (zlib := stored_zlib) (Some sample_bytes) 4
                    "uint8" 5 0 2 false = ReadsPastEnd 5)
    by (vm_compute; reflexivity).
  split; [exact Hpast |]. split; [vm_compute; reflexivity |].
  intros e He. rewrite Hpast in He. discriminate.
Qed.

(** C1, amended: [decode_pixel] has no bounds check.  It throws only what
    the type parser or the decompressor throws.  Otherwise it reads the
    element at offset [(y * width + x) mod 2^64] of the buffer, whatever
    [(x, y)] is: when that element lies beyond the end of the buffer the call
    reads past the end, and it returns the element's value when the element
    is inside, as it is for every [(x, y)] of a grid the buffer holds. *)
Theorem decode_pixel_reads_unchecked :
  forall (zlib : Zlib) (band_data : option (list byte)) (band_size : Z)
         (dtype_str : string) (pixel_x pixel_y width : Z) (compressed : bool),
    let call := decode_pixel band_data band_size dtype_str pixel_x pixel_y width
                             compressed in
    let offset := ((pixel_y * width + pixel_x) mod 2 ^ 64)%Z in
    (forall e, call = Throws e ->
       parse_dtype dtype_str = Throw e \/
       (compressed = true /\ decompress_gzip band_data band_size = Throw e)) /\
    (forall dtype data,
       parse_dtype dtype_str = Ok dtype ->
       band_buffer band_data band_size compressed = Ok data ->
       (Z.of_nat (List.length data) < (offset + 1) * dtype_size dtype ->
        call = ReadsPastEnd offset)%Z /\
       ((offset + 1) * dtype_size dtype <= Z.of_nat (List.length data) ->
        call = match get_pixel_value data offset dtype with
               | Some v => Returns v
               | None => ReadsPastEnd offset
               end /\
        exists v, call = Returns v)%Z /\
       (forall height,
          (0 <= pixel_x < width)%Z -> (0 <= pixel_y < height)%Z ->
          (width * height < 2 ^ 64)%Z ->
          (width * height * dtype_size dtype <= Z.of_nat (List.length data))%Z ->
          exists v, call = Returns v)).
Proof.
  intros zlib band_data band_size dtype_str pixel_x pixel_y width compressed
         call offset.
  assert (Hoffset : pixel_offset pixel_x pixel_y width = offset)
    by apply pixel_offset_mod.
  assert (Hnonneg : (0 <= offset)%Z)
    by (apply Z.mod_pos_bound; lia).
  assert (Hinside : forall dtype data,
             parse_dtype dtype_str = Ok dtype ->
             band_buffer band_data band_size compressed = Ok data ->
             ((offset + 1) * dtype_size dtype <= Z.of_nat (List.length data))%Z ->
             exists v, call = Returns v).
  { intros dtype data Hdtype Hdata Hin. subst call. unfold decode_pixel.
    rewrite Hdtype, Hdata. unfold Ok. cbv iota. rewrite Hoffset.
    destruct (get_pixel_value_inside data offset dtype Hnonneg Hin) as [v Hv].
    rewrite Hv. exists v. reflexivity. }
  split.
  - intros e Hthrow. subst call. unfold decode_pixel in Hthrow.
    destruct (parse_dtype dtype_str) as [e1 | dtype] eqn:Hdtype.
    + left. injection Hthrow as <-. reflexivity.
    + right. unfold band_buffer in Hthrow. destruct compressed.
      * destruct (decompress_gzip band_data band_size) as [e2 | data] eqn:Hdata.
        -- split; [reflexivity |]. injection Hthrow as <-. reflexivity.
        -- destruct (get_pixel_value data (pixel_offset pixel_x pixel_y width) dtype);
             discriminate.
      * unfold Ok in Hthrow. cbv iota in Hthrow.
        destruct (get_pixel_value (extent band_data band_size)
                                  (pixel_offset pixel_x pixel_y width) dtype);
          discriminate.
  - intros dtype data Hdtype Hdata. split; [| split].
    + intros Hout. subst call. unfold decode_pixel.
      rewrite Hdtype, Hdata. unfold Ok. cbv iota. rewrite Hoffset.
      rewrite (get_pixel_value_outside data offset dtype Hout). reflexivity.
    + intros Hin. split.
      * subst call. unfold decode_pixel.
        rewrite Hdtype, Hdata. unfold Ok. cbv iota. rewrite Hoffset. reflexivity.
      * exact (Hinside dtype data Hdtype Hdata Hin).
    + intros height Hx Hy Hgrid Hholds.
      apply (Hinside dtype data Hdtype Hdata).
      assert (Hsmall : (0 <= pixel_y * width + pixel_x < width * height)%Z) by nia.
      assert (Hsize : (0 < dtype_size dtype)%Z) by (destruct dtype; reflexivity).
      subst offset. rewrite Z.mod_small by lia. nia.
Qed.

Lemma decode_pixel_reads_unchecked_witness :
  decode_pixel (zlib := stored_zlib) (Some sample_bytes) 4 "uint8" 7 3 2 false
    = ReadsPastEnd 13 /\
  exists v,
    decode_pixel (zlib := stored_zlib) (Some sample_bytes) 4 "uint8" 1 1 2 false
      = Returns v.
Proof.
  destruct (decode_pixel_reads_unchecked stored_zlib (Some sample_bytes) 4
              "uint8" 7 3 2 false) as [_ Hread].
  destruct (Hread UINT8 sample_bytes eq_refl eq_refl) as [Hpast _].
  destruct (decode_pixel_reads_unchecked stored_zlib (Some sample_bytes) 4
              "uint8" 1 1 2 false) as [_ Hgrid].
  destruct (Hgrid UINT8 sample_bytes eq_refl eq_refl) as [_ [_ Hin]].
  split.
  - apply Hpast. reflexivity.
  - apply (Hin 2%Z); [lia | lia | reflexivity | vm_compute; discriminate].
Defined.

(** ** The nodata filter of the statistics engine *)

Lemma SFeqb_true : forall x y : spec_float,
  SFeqb x y = true ->
  x = y \/ exists sx sy, x = S754_zero sx /\ y = S754_zero sy.
Proof.
  intros x y. unfold SFeqb, SFcompare.
  destruct x as [sx | sx | | sx mx ex], y as [sy | sy | | sy my ey];
    try discriminate;
    try (destruct sx; discriminate);
    try (destruct sy; discriminate).
  - intros _. right. exists sx, sy. split; reflexivity.
  - destruct sx, sy; try discriminate; intros _; left; reflexivity.
  - destruct sx, sy; try discriminate;
      destruct (Z.compare ex ey) eqn:He; try discriminate;
      destruct (Pos.compare_cont Eq mx my) eqn:Hm; try discriminate;
      intros _; left;
      apply Z.compare_eq in He; apply Pos.compare_eq in Hm; subst; reflexivity.
Qed.

Lemma SFeqb_zero : forall sx sy, SFeqb (S754_zero sx) (S754_zero sy) = true.
Proof. reflexivity. Qed.

Lemma is_zero_spec : forall v : float,
  is_zero v = true <-> exists sv, Prim2SF v = S754_zero sv.
Proof.
  intros v. unfold is_zero. rewrite eqb_spec.
  change (Prim2SF zero) with (S754_zero false). split.
  - intros Heq. destruct (SFeqb_true _ _ Heq) as [Hsame | [sv [sz [Hv _]]]].
    + exists false. exact Hsame.
    + exists sv. exact Hv.
  - intros [sv Hv]. rewrite Hv. reflexivity.
Qed.

(** IEEE equality on binary64: two values compare equal exactly when they
    are one and the same number, or are both zeros (of either sign). *)
Lemma float_eqb_true : forall v w : float,
  (v =? w)%float = true <->
  (v = w /\ is_nan w = false) \/ (is_zero v = true /\ is_zero w = true).
Proof.
  intros v w. split.
  - intros Heq. pose proof Heq as Hsf. rewrite eqb_spec in Hsf.
    destruct (SFeqb_true _ _ Hsf) as [Hsame | [sv [sw [Hv Hw]]]].
    + left. apply Prim2SF_inj in Hsame. subst w. split; [reflexivity |].
      unfold is_nan. rewrite Heq. reflexivity.
    + right. split; apply is_zero_spec; eauto.
  - intros [[Hsame Hnan] | [Hv Hw]].
    + subst w. unfold is_nan in Hnan. destruct (v =? v)%float; [reflexivity | discriminate].
    + apply is_zero_spec in Hv, Hw. destruct Hv as [sv Hv], Hw as [sw Hw].
      rewrite eqb_spec, Hv, Hw. reflexivity.
Qed.

Lemma visit_unfiltered : forall nodata a v, Engine.visit false nodata a v = Engine.step a v.
Proof. reflexivity. Qed.

Lemma fold_visit_filter : forall nodata samples a,
  fold_left (Engine.visit true nodata) samples a =
  fold_left (Engine.visit false 0%float)
            (filter (fun v => negb (Engine.matches_nodata nodata v)) samples) a.
Proof.
  intros nodata samples. induction samples as [| v vs IH]; intros a.
  - reflexivity.
  - cbn [fold_left filter]. unfold Engine.visit at 2. unfold Engine.excluded.
    cbn [andb]. destruct (Engine.matches_nodata nodata v); cbn [negb].
    + apply IH.
    + cbn [fold_left]. rewrite visit_unfiltered. apply IH.
Qed.

Lemma fold_step_count : forall samples a,
  Engine.n (fold_left (Engine.visit false 0%float) samples a) =
  (Engine.n a + Z.of_nat (List.length samples))%Z.
Proof.
  induction samples as [| v vs IH]; intros a.
  - cbn. lia.
  - cbn [fold_left List.length]. rewrite IH, visit_unfiltered. cbn [Engine.step Engine.n]. lia.
Qed.

Lemma finish_count : forall a, BandStats.count (Engine.finish a) = Engine.n a.
Proof.
  intros a. unfold Engine.finish.
  destruct (Z.eqb_spec (Engine.n a) 0) as [Hz | Hnz]; cbn; congruence.
Qed.

(** The end-to-end example of the spec: the 2 by 2 [uint8] band [1 2 3 4],
    uncompressed, no nodata. *)
Example stats_of_2x2_band :
  Engine.compute_band_stats (zlib := stored_zlib) (Some sample_bytes) 4
    "uint8" 2 2 false false 0%float =
  Ok (BandStats.mk 4 10%float 2.5%float 1%float 4%float 0x1.1e3779b97f4a8p+0%float).
Proof. vm_compute. reflexivity. Qed.

(** C3, as stated, fails for zeros: with the sentinel [+0.0], the sample
    [-0.0] is another binary64 value and is excluded all the same. *)
Lemma nodata_zero_excludes_negative_zero :
  is_nan 0%float = false /\
  neg_zero <> 0%float /\
  Engine.excluded true 0%float neg_zero = true /\
  BandStats.count (Engine.stats_of_samples true 0%float [neg_zero; 1%float]) = 1%Z.
Proof.
  split; [reflexivity |]. split.
  - intros Heq. apply (f_equal get_sign) in Heq. vm_compute in Heq. discriminate.
  - split; vm_compute; reflexivity.
Qed.

(** C3, amended: with nodata filtering enabled, the aggregate is the
    unfiltered aggregate of the samples that do not match the sentinel, and
    its count is their number.  For a not-a-number sentinel the samples that
    match are exactly the not-a-number samples.  For any other sentinel a
    sample matches exactly when it equals the sentinel under IEEE
    floating-point equality with no tolerance: it is the same value, or both
    are zeros of either sign. *)
Theorem nodata_filter :
  forall (zlib : Zlib) (band_data : option (list byte)) (band_size : Z)
         (dtype_str : string) (width height : Z) (compressed : bool)
         (nodata : float),
    Engine.compute_band_stats band_data band_size dtype_str width height
                              compressed true nodata =
      (samples <- Engine.decoded_samples band_data band_size dtype_str
                    width height compressed ;;
       Ok (Engine.stats_of_samples false 0%float (kept nodata samples))) /\
    (forall samples,
       BandStats.count (Engine.stats_of_samples true nodata samples) =
       Z.of_nat (List.length (kept nodata samples))) /\
    (is_nan nodata = true ->
     forall v, Engine.excluded true nodata v = is_nan v) /\
    (is_nan nodata = false ->
     forall v, Engine.excluded true nodata v = true <->
               (v = nodata \/ (is_zero v = true /\ is_zero nodata = true))).
Proof.
  intros zlib band_data band_size dtype_str width height compressed nodata.
  assert (Hstats : forall samples,
             Engine.stats_of_samples true nodata samples =
             Engine.stats_of_samples false 0%float (kept nodata samples)).
  { intros samples. unfold Engine.stats_of_samples, kept.
    rewrite fold_visit_filter. reflexivity. }
  split; [| split; [| split]].
  - unfold Engine.compute_band_stats.
    destruct (Engine.decoded_samples band_data band_size dtype_str width height
                                     compressed) as [e | samples];
      cbn [bind]; [reflexivity |].
    rewrite Hstats. reflexivity.
  - intros samples. rewrite Hstats. unfold Engine.stats_of_samples.
    rewrite finish_count, fold_step_count. reflexivity.
  - intros Hnan v. unfold Engine.excluded, Engine.matches_nodata.
    rewrite Hnan. reflexivity.
  - intros Hnan v. unfold Engine.excluded, Engine.matches_nodata.
    rewrite Hnan. cbn [andb]. rewrite float_eqb_true. split.
    + intros [[Hsame _] | Hzeros]; [left; exact Hsame | right; exact Hzeros].
    + intros [Hsame | Hzeros]; [left; split; assumption | right; exact Hzeros].
Qed.

Lemma nodata_filter_witness :
  Engine.excluded true nan nan = true /\
  Engine.excluded true nan 1%float = false /\
  (Engine.excluded true 3%float 3%float = true) /\
  (Engine.excluded true 0%float neg_zero = true).
Proof.
  destruct (nodata_filter stored_zlib (Some sample_bytes) 4 "uint8" 2 2 false nan)
    as [_ [_ [Hnan _]]].
  destruct (nodata_filter stored_zlib (Some sample_bytes) 4 "uint8" 2 2 false 3%float)
    as [_ [_ [_ Hthree]]].
  destruct (nodata_filter stored_zlib (Some sample_bytes) 4 "uint8" 2 2 false 0%float)
    as [_ [_ [_ Hzero]]].
  split; [rewrite (Hnan eq_refl); reflexivity |].
  split; [rewrite (Hnan eq_refl); reflexivity |].
  split.
  - apply (Hthree eq_refl). left. reflexivity.
  - apply (Hzero eq_refl). right. split; reflexivity.
Defined.

(** ** The row-wise adapters *)

Lemma for_each_row_total :
  forall (A : Type) (body : A -> result row_result) (rows : list A),
    (forall r, exists o, body r = Ok o) ->
    exists out, for_each_row body rows = Ok out /\
                Forall2 (fun r o => body r = Ok o) rows out.
Proof.
  intros A body rows Htotal. induction rows as [| r rs IH].
  - exists []. split; [reflexivity | constructor].
  - destruct (Htotal r) as [o Ho]. destruct IH as [out [Hout Hall]].
    exists (o :: out). split.
    + cbn [for_each_row]. rewrite Ho, Hout. reflexivity.
    + constructor; assumption.
Qed.

Lemma try_catch_null :
  forall (body : result BandStats.t),
    try_catch (stats <- body ;; Ok (Some stats)) (fun _ => Ok None) =
    Ok match body with
       | inr stats => Some stats
       | inl _ => None
       end.
Proof. intros [e | stats]; reflexivity. Qed.


Section RowProperties.
Context {backend : Backend}.

Lemma row6_spec : forall r,
  STRasterSummaryStats_row r =
  Ok (if negb (is_valid (band6 r)) then None
      else if (size_of (value (band6 r)) =? 0)%Z then None
      else match STRasterSummaryStats_try r with
           | inr stats => Some stats
           | inl _ => None
           end).
Proof.
  intros [[[[[band dtype] width] height] compression] nodata].
  unfold STRasterSummaryStats_row, band6.
  destruct (negb (is_valid band)); [reflexivity |].
  destruct (size_of (value band) =? 0)%Z; [reflexivity |].
  apply try_catch_null.
Qed.

Lemma row5_spec : forall r,
  STRasterSummaryStatsSimple_row r =
  Ok (if negb (is_valid (band5 r)) then None
      else if (size_of (value (band5 r)) =? 0)%Z then None
      else match STRasterSummaryStatsSimple_try r with
           | inr stats => Some stats
           | inl _ => None
           end).
Proof.
  intros [[[[band dtype] width] height] compression].
  unfold STRasterSummaryStatsSimple_row, band5.
  destruct (negb (is_valid band)); [reflexivity |].
  destruct (size_of (value band) =? 0)%Z; [reflexivity |].
  apply try_catch_null.
Qed.

Lemma row2_spec : forall r,
  STRasterSummaryStatsMetadata_row r =
  Ok (if negb (is_valid (band2 r)) then None
      else if (size_of (value (band2 r)) =? 0)%Z then None
      else match STRasterSummaryStatsMetadata_try r with
           | inr stats => Some stats
           | inl _ => None
           end).
Proof.
  intros [band metadata].
  unfold STRasterSummaryStatsMetadata_row, band2.
  destruct (negb (is_valid band)); [reflexivity |].
  destruct (size_of (value band) =? 0)%Z; [reflexivity |].
  apply try_catch_null.
Qed.

Lemma row3_spec : forall r,
  STRasterSummaryStatsMetadataBand_row r =
  Ok (if negb (is_valid (band3 r)) then None
      else if (size_of (value (band3 r)) =? 0)%Z || (snd r <? 0)%Z then None
      else match STRasterSummaryStatsMetadataBand_try r with
           | inr stats => Some stats
           | inl _ => None
           end).
Proof.
  intros [[band metadata] band_idx].
  unfold STRasterSummaryStatsMetadataBand_row, band3. cbn [snd].
  destruct (negb (is_valid band)); [reflexivity |].
  destruct ((size_of (value band) =? 0)%Z || (band_idx <? 0)%Z); [reflexivity |].
  apply try_catch_null.
Qed.

(** The shape shared by the four row functions is enough for the null rules. *)
Lemma null_rules_of_spec :
  forall (A : Type) (band_of : A -> cell (list byte))
         (try_block : A -> result BandStats.t)
         (row : A -> result row_result) (extra : A -> bool),
    (forall r, row r =
       Ok (if negb (is_valid (band_of r)) then None
           else if (size_of (value (band_of r)) =? 0)%Z || extra r then None
           else match try_block r with
                | inr stats => Some stats
                | inl _ => None
                end)) ->
    null_rules band_of try_block row (for_each_row row).
Proof.
  intros A band_of try_block row extra Hspec args.
  destruct (for_each_row_total A row args) as [out [Hout Hall]].
  { intros r. rewrite Hspec. eexists. reflexivity. }
  exists out. split; [exact Hout |]. clear Hout.
  induction Hall as [| r o rs os Hr _ IH]; [constructor |].
  constructor; [| exact IH].
  split; [exact Hr |].
  intros Hcause. rewrite Hspec in Hr. injection Hr as Hr. subst o.
  destruct Hcause as [Hnull | [Hempty | [e He]]].
  - rewrite Hnull. reflexivity.
  - rewrite Hempty. cbn. destruct (negb (is_valid (band_of r))); reflexivity.
  - rewrite He.
    destruct (negb (is_valid (band_of r))); [reflexivity |].
    destruct ((size_of (value (band_of r)) =? 0)%Z || extra r); reflexivity.
Qed.

(** C4: in each of the four overloads the batch function returns a result
    for every batch, and a row whose band is NULL or empty, or whose [try]
    block raises any exception, is a null row of that result; the other rows
    are what their own row function gives. *)
Theorem null_rows_in_all_overloads :
  null_rules band6 STRasterSummaryStats_try
             STRasterSummaryStats_row STRasterSummaryStatsFunction /\
  null_rules band5 STRasterSummaryStatsSimple_try
             STRasterSummaryStatsSimple_row STRasterSummaryStatsSimpleFunction /\
  null_rules band2 STRasterSummaryStatsMetadata_try
             STRasterSummaryStatsMetadata_row STRasterSummaryStatsMetadataFunction /\
  null_rules band3 STRasterSummaryStatsMetadataBand_try
             STRasterSummaryStatsMetadataBand_row
             STRasterSummaryStatsMetadataBandFunction.
Proof.
  repeat split.
  - apply (null_rules_of_spec row6 band6 _ _ (fun _ => false)).
    intros r. rewrite row6_spec, orb_false_r. reflexivity.
  - apply (null_rules_of_spec row5 band5 _ _ (fun _ => false)).
    intros r. rewrite row5_spec, orb_false_r. reflexivity.
  - apply (null_rules_of_spec row2 band2 _ _ (fun _ => false)).
    intros r. rewrite row2_spec, orb_false_r. reflexivity.
  - apply (null_rules_of_spec row3 band3 _ _ (fun r => (snd r <? 0)%Z)).
    intros r. apply row3_spec.
Qed.

End RowProperties.

Lemma null_rows_in_all_overloads_witness :
  exists out,
    STRasterSummaryStatsSimpleFunction (backend := model_backend) sample_batch = Ok out /\
    nth_error out 1 = Some None /\
    nth_error out 2 = Some None.
Proof.
  destruct (null_rows_in_all_overloads (backend := model_backend))
    as [_ [Hsimple _]].
  destruct (Hsimple sample_batch) as [out [Hout Hall]].
  exists out. split; [exact Hout |].
  unfold sample_batch in Hall.
  inversion Hall as [| r0 o0 rs0 os0 _ Hall1]; subst.
  inversion Hall1 as [| r1 o1 rs1 os1 [_ Hnull1] Hall2]; subst.
  inversion Hall2 as [| r2 o2 rs2 os2 [_ Hnull2] _]; subst.
  split; cbn [nth_error]; f_equal.
  - apply Hnull1. left. reflexivity.
  - apply Hnull2. right. right.
    exists (unknown_pixel_type "uint9"). vm_compute. reflexivity.
Defined.

(** C2, as stated, fails: band index 0 against a descriptor that declares no
    band is non-negative and out of range, and the call returns a null row. *)
Lemma out_of_range_band_index_not_an_error :
  let r : row3 := (mkCell true sample_bytes, "", 0%Z) in
  (0 <= 0)%Z /\
  (Z.of_nat (List.length (bands (parse_metadata ""))) <= 0)%Z /\
  STRasterSummaryStatsMetadataBandFunction (backend := model_backend) [r] = Ok [None] /\
  ~ surfaces_hard_error (backend := model_backend) r.
Proof.
  intros r.
  assert (Hrun : STRasterSummaryStatsMetadataBandFunction (backend := model_backend) [r]
                 = Ok [None]) by (vm_compute; reflexivity).
  split; [lia |].
  split; [vm_compute; discriminate |].
  split; [exact Hrun |].
  intros [e He]. rewrite Hrun in He. discriminate.
Qed.

(** C2, amended: a band index at or beyond the number of declared bands
    makes [get_band_type] throw [invalid_argument] inside the row's [try]
    block, whose handler turns it into a null row; a negative index or an
    empty band is a null row as well.  No row of this overload ends in an
    exception. *)
Theorem band_index_out_of_range_is_null :
  forall (backend : Backend) (band : cell (list byte)) (metadata : string)
         (band_idx : Z),
    ((0 <= band_idx)%Z ->
     (Z.of_nat (List.length (bands (parse_metadata metadata))) <= band_idx)%Z ->
     get_band_type (parse_metadata metadata) band_idx =
       Throw (invalid_argument "Band index out of range") /\
     STRasterSummaryStatsMetadataBand_row (band, metadata, band_idx) = Ok None) /\
    ((band_idx < 0)%Z \/ value band = [] ->
     STRasterSummaryStatsMetadataBand_row (band, metadata, band_idx) = Ok None) /\
    (exists o, STRasterSummaryStatsMetadataBand_row (band, metadata, band_idx) = Ok o).
Proof.
  intros backend band metadata band_idx.
  split; [intros Hpos Hrange; split | split].
  - unfold get_band_type.
    destruct (Z.leb_spec (Z.of_nat (List.length (bands (parse_metadata metadata)))) band_idx);
      [| lia].
    rewrite orb_true_r. reflexivity.
  - rewrite row3_spec. cbn [band3 snd].
    unfold STRasterSummaryStatsMetadataBand_try, get_band_type.
    destruct (Z.leb_spec (Z.of_nat (List.length (bands (parse_metadata metadata)))) band_idx);
      [| lia].
    rewrite orb_true_r. cbn [bind Throw].
    destruct (negb (is_valid band)); [reflexivity |].
    destruct ((size_of (value band) =? 0)%Z || (band_idx <? 0)%Z); reflexivity.
  - intros Hcause. rewrite row3_spec. cbn [band3 snd].
    destruct (negb (is_valid band)); [reflexivity |].
    destruct Hcause as [Hneg | Hempty].
    + destruct (Z.ltb_spec band_idx 0); [| lia]. rewrite orb_true_r. reflexivity.
    + rewrite Hempty. reflexivity.
  - rewrite row3_spec. eexists. reflexivity.
Qed.

Lemma band_index_out_of_range_is_null_witness :
  STRasterSummaryStatsMetadataBand_row (backend := model_backend)
    (mkCell true sample_bytes, descriptor_example, 1%Z) = Ok None /\
  STRasterSummaryStatsMetadataBand_row (backend := model_backend)
    (mkCell true sample_bytes, descriptor_example, (-1)%Z) = Ok None.
Proof.
  destruct (band_index_out_of_range_is_null model_backend
              (mkCell true sample_bytes) descriptor_example 1) as [Hrange _].
  destruct (band_index_out_of_range_is_null model_backend
              (mkCell true sample_bytes) descriptor_example (-1)) as [_ [Hneg _]].
  split.
  - apply Hrange; [lia | vm_compute; discriminate].
  - apply Hneg. left. lia.
Defined.

(** ** The [(band, metadata)] overload on descriptors that are not JSON *)








(* ================================================================== *)
(** * Part III.  Further properties of the code                        *)
(* ================================================================== *)

(** ** Band lookup by index and by name *)

Lemma find_band_type_some : forall bs name type,
  find_band_type bs name = Some type <->
  exists before after,
    bs = (before ++ (name, type) :: after)%list /\ ~ In name (map fst before).
Proof.
  induction bs as [| [n t] rest IH]; intros name type; cbn [find_band_type fst snd].
  - split; [discriminate |].
    intros [before [after [Heq _]]]. destruct before; discriminate.
  - destruct (String.eqb_spec n name) as [-> | Hneq].
    + split.
      * intros [= ->]. exists [], rest. split; [reflexivity | intros []].
      * intros [before [after [Heq Hnotin]]].
        destruct before as [| [n' t'] before].
        -- cbn in Heq. injection Heq as -> _. reflexivity.
        -- cbn in Heq. injection Heq as <- _ _. exfalso. apply Hnotin. left. reflexivity.
    + rewrite IH. split.
      * intros [before [after [-> Hnotin]]].
        exists ((n, t) :: before), after. split; [reflexivity |].
        intros [Hhead | Htail]; [exact (Hneq Hhead) | exact (Hnotin Htail)].
      * intros [before [after [Heq Hnotin]]].
        destruct before as [| [n' t'] before].
        -- cbn in Heq. injection Heq as -> _. contradiction.
        -- cbn in Heq. injection Heq as <- <- ->.
           exists before, after. split; [reflexivity |].
           intros Hin. apply Hnotin. right. exact Hin.
Qed.

Lemma find_band_type_none : forall bs name,
  find_band_type bs name = None <-> ~ In name (map fst bs).
Proof.
  induction bs as [| [n t] rest IH]; intros name; cbn [find_band_type fst snd map].
  - split; [intros _ [] | reflexivity].
  - destruct (String.eqb_spec n name) as [-> | Hneq].
    + split; [discriminate |]. intros Hnotin. exfalso. apply Hnotin. left. reflexivity.
    + rewrite IH. split.
      * intros Hnotin [Hhead | Htail]; [exact (Hneq Hhead) | exact (Hnotin Htail)].
      * intros Hnotin Hin. apply Hnotin. right. exact Hin.
Qed.

(** X1: the lookup of a band type by name returns the type of the first band
    carrying that name, and throws [invalid_argument] with the message
    "Band not found: " followed by the name exactly when no band carries it. *)
Theorem get_band_type_by_name_first_match :
  forall (meta : RaquetMetadata) (name : string),
    (forall type,
       get_band_type_by_name meta name = Ok type <->
       exists before after,
         bands meta = (before ++ (name, type) :: after)%list /\
         ~ In name (map fst before)) /\
    (get_band_type_by_name meta name =
       Throw (invalid_argument ("Band not found: " ++ name)) <->
     ~ In name (map fst (bands meta))).
Proof.
  intros meta name. unfold get_band_type_by_name. split.
  - intros type. rewrite <- find_band_type_some.
    destruct (find_band_type (bands meta) name) as [t |].
    + split; [intros [= ->]; reflexivity | intros [= ->]; reflexivity].
    + split; discriminate.
  - rewrite <- find_band_type_none.
    destruct (find_band_type (bands meta) name) as [t |].
    + split; discriminate.
    + split; reflexivity.
Qed.

Lemma get_band_type_in_range : forall meta i band,
  nth_error (bands meta) i = Some band ->
  get_band_type meta (Z.of_nat i) = Ok (snd band).
Proof.
  intros meta i band Hnth. unfold get_band_type.
  assert (Hlt : i < List.length (bands meta))
    by (apply nth_error_Some; rewrite Hnth; discriminate).
  destruct (Z.ltb_spec (Z.of_nat i) 0) as [Hneg | _]; [lia |].
  destruct (Z.leb_spec (Z.of_nat (List.length (bands meta))) (Z.of_nat i)) as [Hge | _];
    [lia |].
  cbn [orb]. rewrite Nat2Z.id.
  rewrite (nth_error_nth _ _ _ Hnth). reflexivity.
Qed.

(** X2: for every metadata value the lookup of a band type by index
    succeeds exactly for the indices from 0 to the number of bands less one,
    and then returns the type of the band at that index; and when the band
    names are pairwise distinct, looking a band up by its name and by its
    index give the same type. *)
Theorem get_band_type_name_index_agree :
  forall meta : RaquetMetadata,
    (forall k : Z,
       (exists t, get_band_type meta k = Ok t) <->
       (0 <= k < Z.of_nat (List.length (bands meta)))%Z) /\
    (forall (i : nat) (band : string * string),
       nth_error (bands meta) i = Some band ->
       get_band_type meta (Z.of_nat i) = Ok (snd band)) /\
    (NoDup (map fst (bands meta)) ->
     forall (i : nat) (name type : string),
       nth_error (bands meta) i = Some (name, type) ->
       get_band_type_by_name meta name = Ok type /\
       get_band_type_by_name meta name = get_band_type meta (Z.of_nat i)).
Proof.
  intros meta. split; [| split].
  - intros k. unfold get_band_type.
    destruct (Z.ltb_spec k 0) as [Hneg | Hpos];
      destruct (Z.leb_spec (Z.of_nat (List.length (bands meta))) k) as [Hge | Hlt];
      cbn [orb]; split;
      try (intros [t Ht]; discriminate); try lia.
    intros _. eexists. reflexivity.
  - intros i band Hnth. apply (get_band_type_in_range meta i band Hnth).
  - intros Hnodup i name type Hnth.
    assert (Hname : get_band_type_by_name meta name = Ok type).
    { unfold get_band_type_by_name.
      destruct (nth_error_split _ _ Hnth) as [before [after [Hsplit Hlen]]].
      assert (Hfind : find_band_type (bands meta) name = Some type).
      { apply find_band_type_some. exists before, after. split; [exact Hsplit |].
        rewrite Hsplit, map_app in Hnodup. cbn [map fst] in Hnodup.
        apply NoDup_remove_2 in Hnodup. intros Hin. apply Hnodup.
        apply in_or_app. left. exact Hin. }
      rewrite Hfind. reflexivity. }
    split; [exact Hname |].
    rewrite Hname. symmetry.
    apply (get_band_type_in_range meta i (name, type) Hnth).
Qed.

Lemma get_band_type_name_index_agree_witness :
  get_band_type_by_name three_bands "dem" = Ok "float32" /\
  get_band_type_by_name three_bands "dem" = get_band_type three_bands 2 /\
  ((exists t, get_band_type three_bands 3 = Ok t) -> False) /\
  ((exists t, get_band_type (parse_metadata "") 0 = Ok t) -> False).
Proof.
  destruct (get_band_type_name_index_agree three_bands) as [Hrange [_ Hagree]].
  destruct (get_band_type_name_index_agree (parse_metadata "")) as [Hnone _].
  assert (Hnodup : NoDup (map fst (bands three_bands))).
  { cbn. repeat constructor; cbn; intuition discriminate. }
  destruct (Hagree Hnodup 2 "dem" "float32" eq_refl) as [Hname Hsame].
  split; [exact Hname |]. split; [exact Hsame |]. split.
  - intros Hsome. apply Hrange in Hsome. cbn in Hsome. lia.
  - intros Hsome. apply Hnone in Hsome. vm_compute in Hsome.
    destruct Hsome as [Hlo Hhi]. discriminate.
Defined.

(** ** [decode_band], [decode_pixel] and row-major addressing *)

Lemma read_elements_returns : forall data dtype n i vs,
  read_elements data dtype i n = Returns vs ->
  List.length vs = n /\
  forall k v, nth_error vs k = Some v ->
              get_pixel_value data (i + Z.of_nat k) dtype = Some v.
Proof.
  intros data dtype. induction n as [| n IH]; intros i vs Hread.
  - cbn in Hread. injection Hread as <-. split; [reflexivity |].
    intros [| k] v Hnth; discriminate.
  - cbn [read_elements] in Hread.
    destruct (get_pixel_value data i dtype) as [v0 |] eqn:Hv0; [| discriminate].
    destruct (read_elements data dtype (i + 1) n) as [vs' | e | off] eqn:Hrest;
      try discriminate.
    injection Hread as <-. destruct (IH _ _ Hrest) as [Hlen Hnth]. split.
    + cbn. rewrite Hlen. reflexivity.
    + intros [| k] v Hk.
      * cbn in Hk. injection Hk as <-. rewrite Z.add_0_r. exact Hv0.
      * cbn [nth_error] in Hk. apply Hnth in Hk.
        replace (i + Z.of_nat (S k))%Z with (i + 1 + Z.of_nat k)%Z by lia.
        exact Hk.
Qed.

(** X3: the grid [decode_band] returns has [width * height] elements (in
    [size_t] arithmetic), and its element at index [y * width + x] is the
    value [decode_pixel] returns for the pixel [(x, y)] of the same band. *)
Theorem decode_band_agrees_with_decode_pixel :
  forall (zlib : Zlib) (heap : Heap) (band_data : option (list byte)) (band_size : Z)
         (dtype_str : string) (width height : Z) (compressed : bool)
         (vs : list float),
    decode_band band_data band_size dtype_str width height compressed = Returns vs ->
    Z.of_nat (List.length vs) = wrap64 (wrap64 width * wrap64 height) /\
    forall x y,
      (0 <= x < width)%Z -> (0 <= y < height)%Z -> (width * height < 2 ^ 64)%Z ->
      exists v,
        nth_error vs (Z.to_nat (y * width + x)) = Some v /\
        decode_pixel band_data band_size dtype_str x y width compressed = Returns v.
Proof.
  intros zlib heap band_data band_size dtype_str width height compressed vs Hband.
  unfold decode_band in Hband. unfold decode_pixel.
  destruct (parse_dtype dtype_str) as [e | dtype]; [discriminate |].
  destruct (band_buffer band_data band_size compressed) as [e | data];
    [discriminate |].
  destruct (max_size <? wrap64 (wrap64 width * wrap64 height))%Z; [discriminate |].
  destruct (negb (allocates (wrap64 (wrap64 width * wrap64 height))));
    [discriminate |].
  destruct (read_elements_returns _ _ _ _ _ Hband) as [Hlen Hnth].
  assert (Hcount : (0 <= wrap64 (wrap64 width * wrap64 height))%Z)
    by (apply Z.mod_pos_bound; lia).
  split; [rewrite Hlen; lia |].
  intros x y Hx Hy Hgrid.
  assert (Hsmall : (0 <= y * width + x < width * height)%Z) by nia.
  assert (Hw : wrap64 width = width) by (unfold wrap64; apply Z.mod_small; nia).
  assert (Hh : wrap64 height = height) by (unfold wrap64; apply Z.mod_small; nia).
  assert (Hwh : wrap64 (width * height) = (width * height)%Z)
    by (unfold wrap64; apply Z.mod_small; nia).
  rewrite Hw, Hh, Hwh in Hlen.
  destruct (nth_error vs (Z.to_nat (y * width + x))) as [v |] eqn:Hv.
  - exists v. split; [reflexivity |].
    rewrite pixel_offset_mod, Z.mod_small by lia.
    apply Hnth in Hv. rewrite Z2Nat.id in Hv by lia. cbn in Hv. rewrite Hv.
    reflexivity.
  - apply nth_error_None in Hv. lia.
Qed.

Lemma decode_band_agrees_with_decode_pixel_witness :
  exists v,
    nth_error [1; 2; 3; 4; 5; 262]%float (Z.to_nat (2 * 2 + 1)) = Some v /\
    decode_pixel (zlib := stored_zlib) (Some sample_u16) 12 "uint16" 1 2 2 false
      = Returns v.
Proof.
  assert (Hband : decode_band (zlib := stored_zlib) (heap := model_heap)
                    (Some sample_u16) 12 "uint16" 2 3 false
                  = Returns [1; 2; 3; 4; 5; 262]%float)
    by (vm_compute; reflexivity).
  destruct (decode_band_agrees_with_decode_pixel stored_zlib model_heap
              _ _ _ _ _ _ _ Hband)
    as [_ Hpixel].
  apply (Hpixel 1%Z 2%Z); [lia | lia | reflexivity].
Defined.

Lemma read_elements_inside : forall data dtype n i,
  (0 <= i)%Z ->
  ((i + Z.of_nat n) * dtype_size dtype <= Z.of_nat (List.length data))%Z ->
  exists vs, read_elements data dtype i n = Returns vs.
Proof.
  intros data dtype.
  assert (Hsize : (0 < dtype_size dtype)%Z) by (destruct dtype; reflexivity).
  induction n as [| n IH]; intros i Hi Hfit.
  - exists []. reflexivity.
  - cbn [read_elements].
    destruct (get_pixel_value_inside data i dtype Hi) as [v Hv]; [nia |].
    rewrite Hv. destruct (IH (i + 1)%Z) as [vs Hvs]; [lia | nia |].
    rewrite Hvs. eexists. reflexivity.
Qed.

Lemma read_elements_past_end : forall data dtype n i,
  (0 <= i)%Z ->
  (i * dtype_size dtype <= Z.of_nat (List.length data))%Z ->
  (Z.of_nat (List.length data) < (i + Z.of_nat n) * dtype_size dtype)%Z ->
  read_elements data dtype i n =
    ReadsPastEnd (Z.of_nat (List.length data) / dtype_size dtype).
Proof.
  intros data dtype.
  assert (Hsize : (0 < dtype_size dtype)%Z) by (destruct dtype; reflexivity).
  induction n as [| n IH]; intros i Hi Hle Hlt.
  - lia.
  - cbn [read_elements].
    destruct (Z.le_gt_cases ((i + 1) * dtype_size dtype) (Z.of_nat (List.length data)))
      as [Hin | Hout].
    + destruct (get_pixel_value_inside data i dtype Hi Hin) as [v Hv].
      rewrite Hv, (IH (i + 1)%Z); [reflexivity | lia | exact Hin | nia].
    + rewrite (get_pixel_value_outside data i dtype) by lia.
      f_equal. apply Z.div_unique with
        (r := (Z.of_nat (List.length data) - i * dtype_size dtype)%Z); lia.
Qed.

(** X4: [decode_band] checks the buffer against [width * height] no more than
    [decode_pixel] does; what stands before its reads is the allocation of
    the result.  With a known pixel type and a buffer in hand: an element
    count above the vector's [max_size()] throws [std::length_error], as it
    does for a negative width with height 1; a count the free store refuses
    throws [std::bad_alloc]; a count of zero returns the empty grid; and once
    the result is allocated the call
    returns a grid when the buffer holds [width * height] elements, and
    otherwise reads on until the first element that is not wholly inside the
    buffer, the element of index [length / element size]. *)
Theorem decode_band_reads_unchecked :
  forall (zlib : Zlib) (heap : Heap) (band_data : option (list byte)) (band_size : Z)
         (dtype_str : string) (width height : Z) (compressed : bool)
         (dtype : BandDataType) (data : list byte),
    parse_dtype dtype_str = Ok dtype ->
    band_buffer band_data band_size compressed = Ok data ->
    let pixel_count := wrap64 (wrap64 width * wrap64 height) in
    let call := decode_band band_data band_size dtype_str width height compressed in
    (max_size < pixel_count -> exists what, call = Throws (length_error what))%Z /\
    ((- 2 ^ 31 <= width < 0)%Z -> height = 1%Z ->
     exists what, call = Throws (length_error what)) /\
    ((pixel_count <= max_size)%Z -> allocates pixel_count = false ->
     call = Throws bad_alloc) /\
    (pixel_count = 0%Z -> call = Returns []) /\
    ((pixel_count <= max_size)%Z -> allocates pixel_count = true ->
     (pixel_count * dtype_size dtype <= Z.of_nat (List.length data) ->
      exists vs, call = Returns vs)%Z /\
     (Z.of_nat (List.length data) < pixel_count * dtype_size dtype ->
      call = ReadsPastEnd (Z.of_nat (List.length data) / dtype_size dtype))%Z).
Proof.
  intros zlib heap band_data band_size dtype_str width height compressed dtype data
         Hdtype Hdata pixel_count call.
  assert (Hcount : (0 <= pixel_count)%Z) by (apply Z.mod_pos_bound; lia).
  assert (Hlarge : (max_size < pixel_count ->
                    exists what, call = Throws (length_error what))%Z).
  { intros Hmax. subst call. unfold decode_band. rewrite Hdtype, Hdata.
    unfold Ok. cbv iota. fold pixel_count.
    destruct (Z.ltb_spec max_size pixel_count) as [_ | Hle]; [| lia].
    eexists. reflexivity. }
  split; [exact Hlarge | split; [| split; [| split]]].
  - intros Hwidth Hheight. apply Hlarge. subst pixel_count height.
    pose proof max_size_fits as Hfits.
    change ((2 ^ 64 - 1) / 8)%Z with 2305843009213693951%Z in Hfits.
    unfold wrap64.
    replace (width mod 2 ^ 64)%Z with (width + 2 ^ 64)%Z
      by (apply Z.mod_unique with (q := (-1)%Z); lia).
    rewrite (Z.mod_small 1) by lia. rewrite Z.mul_1_r.
    rewrite Z.mod_small by lia. lia.
  - intros Hmax Hrefused. subst call. unfold decode_band. rewrite Hdtype, Hdata.
    unfold Ok. cbv iota. fold pixel_count.
    destruct (Z.ltb_spec max_size pixel_count) as [Hlt | _]; [lia |].
    rewrite Hrefused. reflexivity.
  - intros Hzero. subst call. unfold decode_band. rewrite Hdtype, Hdata.
    unfold Ok. cbv iota. fold pixel_count. rewrite Hzero.
    pose proof max_size_fits as Hfits.
    destruct (Z.ltb_spec max_size 0) as [Hlt | _]; [lia |].
    rewrite allocates_zero. reflexivity.
  - intros Hmax Hgranted. subst call. unfold decode_band. rewrite Hdtype, Hdata.
    unfold Ok. cbv iota. fold pixel_count.
    destruct (Z.ltb_spec max_size pixel_count) as [Hlt | _]; [lia |].
    rewrite Hgranted. cbn [negb]. split.
    + intros Hfit. apply read_elements_inside; [lia |].
      rewrite Z2Nat.id by lia. exact Hfit.
    + intros Hshort. apply read_elements_past_end; [lia | lia |].
      rewrite Z2Nat.id by lia. exact Hshort.
Qed.

Lemma decode_band_reads_unchecked_witness :
  (exists vs, decode_band (zlib := stored_zlib) (heap := model_heap)
                (Some sample_u16) 12 "uint16" 2 3 false = Returns vs) /\
  decode_band (zlib := stored_zlib) (heap := model_heap)
    (Some sample_u16) 11 "uint16" 2 3 false = ReadsPastEnd 5 /\
  (exists what, decode_band (zlib := stored_zlib) (heap := model_heap)
                  (Some sample_u16) 12 "uint16" (-1) 1 false
                = Throws (length_error what)) /\
  decode_band (zlib := stored_zlib) (heap := model_heap)
    (Some sample_u16) 12 "uint16" 2048 1024 false = Throws bad_alloc.
Proof.
  destruct (decode_band_reads_unchecked stored_zlib model_heap (Some sample_u16) 12
              "uint16" 2 3 false UINT16 sample_u16 eq_refl eq_refl)
    as [_ [_ [_ [_ Hfits]]]].
  destruct (decode_band_reads_unchecked stored_zlib model_heap (Some sample_u16) 11
              "uint16" 2 3 false UINT16 (firstn 11 sample_u16) eq_refl eq_refl)
    as [_ [_ [_ [_ Hshort]]]].
  destruct (decode_band_reads_unchecked stored_zlib model_heap (Some sample_u16) 12
              "uint16" (-1) 1 false UINT16 sample_u16 eq_refl eq_refl)
    as [_ [Hnegative _]].
  destruct (decode_band_reads_unchecked stored_zlib model_heap (Some sample_u16) 12
              "uint16" 2048 1024 false UINT16 sample_u16 eq_refl eq_refl)
    as [_ [_ [Hrefused _]]].
  destruct (Hfits ltac:(vm_compute; discriminate) eq_refl) as [Hgrid _].
  destruct (Hshort ltac:(vm_compute; discriminate) eq_refl) as [_ Hpast].
  split; [| split; [| split]].
  - apply Hgrid. vm_compute. discriminate.
  - apply Hpast. reflexivity.
  - apply Hnegative; [lia | reflexivity].
  - apply Hrefused; [vm_compute; discriminate | reflexivity].
Defined.

(** X5: row-major addressing.  Inside a [width] by [height] grid the offset
    of a pixel is below [width * height] and two pixels with the same offset
    are the same pixel.  Outside it nothing is rejected: a column index that
    is [width] too large addresses the pixel one row further down. *)
Theorem pixel_offset_row_major :
  (forall x y width,
     pixel_offset (x + width) y width = pixel_offset x (y + 1) width) /\
  (forall x1 y1 x2 y2 width height,
     (0 <= x1 < width)%Z -> (0 <= y1 < height)%Z ->
     (0 <= x2 < width)%Z -> (0 <= y2 < height)%Z ->
     (width * height < 2 ^ 64)%Z ->
     (0 <= pixel_offset x1 y1 width < width * height)%Z /\
     (pixel_offset x1 y1 width = pixel_offset x2 y2 width -> x1 = x2 /\ y1 = y2)).
Proof.
  split.
  - intros x y width. rewrite !pixel_offset_mod. f_equal. lia.
  - intros x1 y1 x2 y2 width height Hx1 Hy1 Hx2 Hy2 Hgrid.
    rewrite !pixel_offset_mod.
    rewrite (Z.mod_small (y1 * width + x1)) by nia.
    rewrite (Z.mod_small (y2 * width + x2)) by nia.
    split; [nia |].
    intros Heq.
    assert (Hy : y1 = y2) by nia.
    subst y2. split; [lia | reflexivity].
Qed.

Lemma pixel_offset_row_major_witness :
  pixel_offset (1 + 2) 0 2 = pixel_offset 1 (0 + 1) 2 /\
  (0 <= pixel_offset 1 2 2 < 2 * 3)%Z.
Proof.
  destruct pixel_offset_row_major as [Halias Hgrid]. split.
  - apply Halias.
  - apply (Hgrid 1 2 1 2 2 3)%Z; lia.
Defined.

(** ** What [decompress_gzip] returns *)

Lemma resize_written_exact : forall out buf room,
  Z.of_nat (List.length buf) = room ->
  (Z.of_nat (List.length out) <= room)%Z ->
  resize (written out buf)
         (Z.of_nat (List.length (written out buf)) - (room - Z.of_nat (List.length out)))
  = out.
Proof.
  intros out buf room Hroom Hfit.
  rewrite length_written by lia. rewrite Hroom.
  replace (room - (room - Z.of_nat (List.length out)))%Z
    with (Z.of_nat (List.length out)) by lia.
  unfold resize, written, zeros. rewrite Nat2Z.id.
  rewrite firstn_app, Nat.sub_diag, firstn_all. cbn [firstn].
  rewrite length_app, length_skipn.
  replace (Z.to_nat (Z.of_nat (List.length out) -
                     Z.of_nat (List.length out + (List.length buf - List.length out))))
    with 0 by lia.
  cbn [repeat]. rewrite !app_nil_r. reflexivity.
Qed.

(** X6: for inputs whose buffers stay below 4 GiB ([size * 200 < 2^32]), a
    successful [decompress_gzip] returns exactly the bytes zlib wrote, with no
    padding left from the oversized buffer: those of the first pass when it
    reaches the end of the stream, those of the retry after an exhausted first
    pass. *)
Theorem decompress_returns_written_bytes :
  forall (zlib : Zlib) (mem : list byte) (size : Z),
    (0 < size)%Z -> (size * 200 < 2 ^ 32)%Z -> inflateInit2 0 = Z_OK ->
    (first_pass_exhausted mem size = false ->
     fst (first_pass mem size) = Z_STREAM_END ->
     decompress_gzip (Some mem) size = Ok (snd (first_pass mem size))) /\
    (first_pass_exhausted mem size = true ->
     inflateInit2 1 = Z_OK ->
     fst (retry_pass mem size) = Z_STREAM_END ->
     decompress_gzip (Some mem) size = Ok (snd (retry_pass mem size))).
Proof.
  intros zlib mem size Hpos Hsmall Hinit.
  destruct (estimated_size_bounds size Hpos ltac:(lia)) as [Hest _].
  assert (Hest32 : (4 * estimated_size size < 2 ^ 32)%Z).
  { unfold estimated_size, wrap64 in *.
    destruct (Z.ltb_spec 100 size); [rewrite Z.mod_small by lia |]; lia. }
  set (est := estimated_size size) in *.
  assert (Hlen0 : Z.of_nat (List.length (zeros est)) = est)
    by (apply length_zeros; lia).
  assert (Hroom1 : to_uInt est = est) by (unfold to_uInt; apply Z.mod_small; lia).
  assert (Hroom2 : to_uInt (4 * est) = (4 * est)%Z)
    by (unfold to_uInt; apply Z.mod_small; lia).
  unfold first_pass_exhausted, first_pass, retry_pass.
  unfold decompress_gzip, decompress_gzip_log.
  destruct (Z.eqb_spec size 0) as [Hz | _]; [lia |].
  fold est. rewrite Hinit. change (negb (Z_OK =? Z_OK)%Z) with false. cbv iota.
  rewrite Hlen0, Hroom1, Hroom2.
  pose proof (inflate_fits (stream_input mem size) est ltac:(lia)) as Hfit1.
  destruct (inflate (stream_input mem size) est) as [ret1 out1].
  cbn [fst snd] in *.
  assert (Hlen1 : Z.of_nat (List.length (written out1 (zeros est))) = est)
    by (rewrite length_written; lia).
  split.
  - intros Hex Hend. rewrite Hex. subst ret1.
    change (negb (Z_STREAM_END =? Z_STREAM_END)%Z) with false. cbn [snd].
    f_equal. apply resize_written_exact; assumption.
  - intros Hex Hinit2 Hend. rewrite Hex, Hinit2.
    change (negb (Z_OK =? Z_OK)%Z) with false. cbv iota.
    rewrite Hlen1.
    assert (Hw : wrap64 (est * 4) = (4 * est)%Z)
      by (unfold wrap64; rewrite Z.mod_small; lia).
    rewrite Hw.
    assert (Hlen2 : Z.of_nat (List.length (resize (written out1 (zeros est)) (4 * est)))
                    = (4 * est)%Z)
      by (apply length_resize; lia).
    rewrite Hlen2, Hroom2.
    pose proof (inflate_fits (stream_input mem size) (4 * est)%Z ltac:(lia)) as Hfit2.
    destruct (inflate (stream_input mem size) (4 * est)) as [ret2 out2].
    cbn [fst snd] in *. subst ret2.
    change (negb (Z_STREAM_END =? Z_STREAM_END)%Z) with false. cbn [snd].
    f_equal. apply resize_written_exact; assumption.
Qed.

Lemma decompress_returns_written_bytes_witness :
  let mem := repeat x01 101 in
  decompress_gzip (zlib := expanding_zlib 100) (Some mem) 101 =
    Ok (expand 100 mem) /\
  decompress_gzip (zlib := expanding_zlib 2) (Some mem) 101 =
    Ok (expand 2 mem).
Proof.
  intros mem.
  destruct (decompress_returns_written_bytes (expanding_zlib 100) mem 101
              eq_refl eq_refl eq_refl) as [_ Hretry].
  destruct (decompress_returns_written_bytes (expanding_zlib 2) mem 101
              eq_refl eq_refl eq_refl) as [Hfirst _].
  split.
  - rewrite Hretry; [| vm_compute; reflexivity | reflexivity | vm_compute; reflexivity].
    vm_compute. reflexivity.
  - rewrite Hfirst; [| vm_compute; reflexivity | vm_compute; reflexivity].
    vm_compute. reflexivity.
Defined.

(** X7: the output of [decompress_gzip] is capped by its buffers: whatever
    the stream, a call that returns gives at most [4 * estimated_size] bytes,
    that is 200 times the input size for inputs of more than 100 bytes and
    262144 bytes for shorter ones; and at most [estimated_size] bytes when the
    first pass did not exhaust its buffer. *)
Theorem decompress_output_capped :
  forall (zlib : Zlib) (mem : list byte) (size : Z) (out : list byte),
    (0 < size)%Z -> (size * 200 < 2 ^ 64)%Z ->
    decompress_gzip (Some mem) size = Ok out ->
    (Z.of_nat (List.length out) <= 4 * estimated_size size)%Z /\
    (first_pass_exhausted mem size = false ->
     Z.of_nat (List.length out) <= estimated_size size)%Z /\
    (estimated_size size = if (100 <? size)%Z then size * 50 else 65536)%Z.
Proof.
  intros zlib mem size out Hpos Hsmall Hres.
  destruct (estimated_size_bounds size Hpos Hsmall) as [Hest Hest4].
  assert (Hval : (estimated_size size = if (100 <? size)%Z then size * 50 else 65536)%Z).
  { unfold estimated_size, wrap64.
    destruct (Z.ltb_spec 100 size); [apply Z.mod_small; lia | reflexivity]. }
  split; [| split; [| exact Hval]];
    revert Hres; unfold first_pass_exhausted, first_pass;
    unfold decompress_gzip, decompress_gzip_log;
    set (est := estimated_size size) in *;
    (destruct (Z.eqb_spec size 0) as [Hz | _]; [lia |]);
    (destruct (negb (inflateInit2 0 =? Z_OK)%Z); [discriminate |]);
    (assert (Hlen0 : Z.of_nat (List.length (zeros est)) = est)
       by (apply length_zeros; lia));
    rewrite Hlen0;
    pose proof (to_uInt_range est) as Hr1;
    pose proof (to_uInt_le est ltac:(lia)) as Hr1';
    pose proof (inflate_fits (stream_input mem size) (to_uInt est) (proj1 Hr1)) as Hfit1;
    (destruct (inflate (stream_input mem size) (to_uInt est)) as [ret1 out1]);
    unfold fst, snd in *;
    (assert (Hlen1 : Z.of_nat (List.length (written out1 (zeros est))) = est)
       by (rewrite length_written; lia));
    rewrite Hlen1;
    (assert (Hw : wrap64 (est * 4) = (4 * est)%Z)
       by (unfold wrap64; rewrite Z.mod_small; lia));
    rewrite Hw;
    (remember (4 * est)%Z as est4 eqn:Hest4def);
    (assert (Hlen2 : Z.of_nat (List.length (resize (written out1 (zeros est)) est4))
                     = est4)
       by (apply length_resize; lia));
    rewrite Hlen2;
    pose proof (to_uInt_range est4) as Hr2;
    pose proof (to_uInt_le est4 ltac:(lia)) as Hr2';
    pose proof (inflate_fits (stream_input mem size) (to_uInt est4) (proj1 Hr2))
      as Hfit2;
    (destruct (inflate (stream_input mem size) (to_uInt est4)) as [ret2 out2]);
    unfold fst, snd in *;
    (assert (Hlen3 : Z.of_nat (List.length
                       (written out2 (resize (written out1 (zeros est)) est4)))
                     = est4)
       by (rewrite length_written; lia));
    rewrite Hlen3.
  - destruct (buffer_exhausted ret1 (to_uInt est - Z.of_nat (List.length out1))).
    + destruct (negb (inflateInit2 1 =? Z_OK)%Z); [discriminate |].
      destruct (negb (ret2 =? Z_STREAM_END)%Z); [discriminate |].
      unfold snd. intros [= <-]. rewrite length_resize; lia.
    + destruct (negb (ret1 =? Z_STREAM_END)%Z); [discriminate |].
      unfold snd. intros [= <-]. rewrite length_resize; lia.
  - destruct (buffer_exhausted ret1 (to_uInt est - Z.of_nat (List.length out1))).
    + intros _ Hfalse. discriminate.
    + destruct (negb (ret1 =? Z_STREAM_END)%Z); [discriminate |].
      unfold snd. intros [= <-] _. rewrite length_resize; lia.
Qed.

Lemma decompress_output_capped_witness :
  let mem := repeat x01 101 in
  (Z.of_nat (List.length (expand 100 mem)) <= 4 * estimated_size 101)%Z.
Proof.
  intros mem.
  assert (Hres : decompress_gzip (zlib := expanding_zlib 100) (Some mem) 101
                 = Ok (expand 100 mem)) by (vm_compute; reflexivity).
  exact (proj1 (decompress_output_capped (expanding_zlib 100) mem 101
                  (expand 100 mem) eq_refl eq_refl Hres)).
Defined.

(** ** The metadata overloads against each other *)

Lemma indexed_band_nodata_zero : forall info,
  indexed_band_nodata info 0 = first_band_nodata info.
Proof. intros [| info0 rest]; reflexivity. Qed.

(** X8: on a descriptor that declares at least one band, the
    [(band, metadata, band_index)] overload called with index 0 gives the
    row of the [(band, metadata)] overload; on a descriptor that declares
    none, the first is a null row whatever the band, while the second decodes
    the band as "uint8". *)
Theorem band_index_zero_is_default :
  forall (backend : Backend) (band : cell (list byte)) (metadata : string),
    (bands (parse_metadata metadata) <> [] ->
     STRasterSummaryStatsMetadataBand_row (band, metadata, 0%Z) =
     STRasterSummaryStatsMetadata_row (band, metadata)) /\
    (bands (parse_metadata metadata) = [] ->
     STRasterSummaryStatsMetadataBand_row (band, metadata, 0%Z) = Ok None /\
     first_band_type (parse_metadata metadata) = "uint8").
Proof.
  intros backend band metadata. split.
  - intros Hbands. rewrite row3_spec, row2_spec. cbn [band3 band2 snd].
    change (0 <? 0)%Z with false. rewrite orb_false_r.
    unfold STRasterSummaryStatsMetadataBand_try, STRasterSummaryStatsMetadata_try.
    rewrite indexed_band_nodata_zero.
    unfold get_band_type, first_band_type.
    destruct (bands (parse_metadata metadata)) as [| band0 rest]; [contradiction |].
    reflexivity.
  - intros Hbands. split.
    + rewrite row3_spec. cbn [band3 snd].
      unfold STRasterSummaryStatsMetadataBand_try, get_band_type.
      rewrite Hbands. cbn.
      destruct (negb (is_valid band)); [reflexivity |].
      destruct (size_of (value band) =? 0)%Z; reflexivity.
    + unfold first_band_type. rewrite Hbands. reflexivity.
Qed.

Lemma band_index_zero_is_default_witness :
  STRasterSummaryStatsMetadataBand_row (backend := model_backend)
    (mkCell true sample_bytes, small_descriptor, 0%Z) =
  STRasterSummaryStatsMetadata_row (backend := model_backend)
    (mkCell true sample_bytes, small_descriptor) /\
  STRasterSummaryStatsMetadataBand_row (backend := model_backend)
    (mkCell true sample_bytes, "", 0%Z) = Ok None.
Proof.
  destruct (band_index_zero_is_default model_backend (mkCell true sample_bytes)
              small_descriptor) as [Hsame _].
  destruct (band_index_zero_is_default model_backend (mkCell true sample_bytes) "")
    as [_ Hnone].
  split.
  - apply Hsame. vm_compute. discriminate.
  - apply Hnone. vm_compute. reflexivity.
Defined.

(** ** [extract_json_string] on the text *)

Lemma take_drop_while : forall p s, take_while p s ++ drop_while p s = s.
Proof.
  intros p. induction s as [| c s IH]; [reflexivity |].
  cbn. destruct (p c); [cbn; rewrite IH |]; reflexivity.
Qed.

Lemma advance_while_take : forall p rest pos,
  advance_while p rest pos = pos + String.length (take_while p rest).
Proof.
  intros p. induction rest as [| c rest IH]; intros pos; cbn.
  - lia.
  - destruct (p c); cbn; [rewrite IH |]; lia.
Qed.

Lemma skip_while_text : forall p json pos rest,
  drop pos json = rest ->
  skip_while p json pos = pos + String.length (take_while p rest) /\
  drop (skip_while p json pos) json = drop_while p rest.
Proof.
  intros p json pos rest Hdrop. unfold skip_while.
  rewrite Hdrop, advance_while_take. split; [reflexivity |].
  rewrite drop_add, Hdrop.
  rewrite <- (take_drop_while p rest) at 2. apply drop_app_length.
Qed.

Lemma char_at_drop : forall json pos,
  char_at json pos =
  match drop pos json with
  | EmptyString => None
  | String c _ => Some c
  end.
Proof.
  unfold char_at. induction json as [| a json IH]; intros pos.
  - destruct pos; reflexivity.
  - destruct pos as [| pos]; [reflexivity |]. cbn. apply IH.
Qed.

Lemma search_key_nonempty : forall key, search_key key <> "".
Proof. intros key. unfold search_key. discriminate. Qed.

Lemma extract_json_string_text :
  forall json key : string,
    extract_json_string json key =
    match after_first (search_key key) json with
    | Some rest => value_text rest
    | None => ""
    end.
Proof.
  intros json key. unfold extract_json_string.
  pose proof (find_after_first (search_key key) json (search_key_nonempty key))
    as Hfind.
  destruct (find json (search_key key) 0) as [p |]; [| rewrite Hfind; reflexivity].
  destruct Hfind as [Hafter Hdrop]. rewrite Hafter.
  set (rest := drop (p + String.length (search_key key)) json) in *.
  destruct (skip_while_text is_blank json _ rest eq_refl) as [Hpos Htail].
  set (pos := skip_while is_blank json (p + String.length (search_key key))) in *.
  unfold value_text. rewrite char_at_drop, Htail.
  destruct (drop_while is_blank rest) as [| c r] eqn:Hvalue; [reflexivity |].
  destruct (Ascii.eqb c dquote).
  - rewrite find_char_split.
    assert (Hr : drop (S pos) json = r).
    { replace (S pos) with (pos + 1) by lia. rewrite drop_add, Htail. reflexivity. }
    rewrite Hr. destruct (split_at dquote r) as [[v t] |] eqn:Hsplit; [| reflexivity].
    rewrite substr_drop, Hr, (split_at_app _ _ _ _ Hsplit).
    replace (S pos + String.length v - S pos) with (String.length v) by lia.
    apply substr_app_length.
  - f_equal.
    destruct (skip_while_text not_delim json pos (String c r) Htail) as [Hend _].
    rewrite Hend, substr_drop, Htail.
    replace (pos + String.length (take_while not_delim (String c r)) - pos)
      with (String.length (take_while not_delim (String c r))) by lia.
    rewrite <- (take_drop_while not_delim (String c r)) at 1.
    apply substr_app_length.
Qed.

Lemma prefix_app_self : forall key rest, prefix key (key ++ rest) = true.
Proof.
  induction key as [| a key IH]; intros rest; [apply prefix_nil |].
  cbn [append]. rewrite prefix_cons, Ascii.eqb_refl, IH. reflexivity.
Qed.

Lemma prefix_app_r : forall key s t,
  String.length key <= String.length s -> prefix key (s ++ t) = prefix key s.
Proof.
  induction key as [| a key IH]; intros s t Hlen.
  - rewrite !prefix_nil. reflexivity.
  - destruct s as [| b s]; [cbn in Hlen; lia |].
    cbn [append]. rewrite !prefix_cons. cbn in Hlen.
    rewrite IH by lia. reflexivity.
Qed.

Lemma after_first_here : forall key s,
  prefix key s = true -> after_first key s = Some (drop (String.length key) s).
Proof. intros key [| a s] Hprefix; cbn [after_first]; rewrite Hprefix; reflexivity. Qed.

Lemma after_first_at : forall pre key rest,
  key <> "" -> first_at pre key ->
  after_first key (pre ++ key ++ rest) = Some rest.
Proof.
  intros pre key rest Hkey. unfold first_at.
  induction pre as [| a pre IH]; intros Hfirst.
  - cbn [append]. rewrite after_first_here by apply prefix_app_self.
    rewrite drop_app_length. reflexivity.
  - cbn [append after_first] in *.
    destruct (prefix key (String a (pre ++ key))) eqn:Hprefix.
    + exfalso. injection Hfirst as Hdrop.
      apply (f_equal String.length) in Hdrop.
      rewrite length_drop in Hdrop. cbn [String.length] in Hdrop.
      rewrite length_app_string in Hdrop. lia.
    + assert (Hlonger : prefix key (String a (pre ++ key ++ rest)) = false).
      { change (String a (pre ++ key ++ rest)) with (String a pre ++ key ++ rest).
        rewrite <- app_assoc_string, prefix_app_r.
        - exact Hprefix.
        - rewrite length_app_string. lia. }
      rewrite Hlonger. apply IH. exact Hfirst.
Qed.

Lemma drop_while_blanks : forall ws c rest,
  all_chars is_blank ws = true -> is_blank c = false ->
  drop_while is_blank (ws ++ String c rest) = String c rest.
Proof.
  induction ws as [| a ws IH]; intros c rest Hws Hc; cbn.
  - rewrite Hc. reflexivity.
  - cbn in Hws. apply andb_true_iff in Hws. destruct Hws as [Ha Hws].
    rewrite Ha. apply IH; assumption.
Qed.

Lemma split_at_first : forall c v rest,
  all_chars (fun a => negb (Ascii.eqb a c)) v = true ->
  split_at c (v ++ String c rest) = Some (v, rest).
Proof.
  intros c. induction v as [| a v IH]; intros rest Hv; cbn.
  - rewrite Ascii.eqb_refl. reflexivity.
  - cbn in Hv. apply andb_true_iff in Hv. destruct Hv as [Ha Hv].
    apply negb_true_iff in Ha. rewrite Ha, IH by exact Hv. reflexivity.
Qed.

(** X9: [extract_json_string] depends only on the text that follows the
    first occurrence of ["key":] in the input and returns the value read
    there as [value_text] describes, the empty string when there is no
    occurrence.  In particular a quoted value is returned verbatim up to the
    next double quote, with no escape decoding, whatever precedes the key
    and whatever follows the closing quote. *)
Theorem extract_json_string_by_text :
  forall key : string,
    (forall json,
       extract_json_string json key =
       match after_first (search_key key) json with
       | Some rest => value_text rest
       | None => ""
       end) /\
    (forall pre ws v rest,
       first_at pre (search_key key) ->
       all_chars is_blank ws = true ->
       all_chars not_dquote v = true ->
       extract_json_string
         (pre ++ search_key key ++ ws ++ String dquote (v ++ String dquote rest)) key
       = v).
Proof.
  intros key. split; [intros json; apply extract_json_string_text |].
  intros pre ws v rest Hfirst Hws Hv.
  rewrite extract_json_string_text.
  rewrite (after_first_at pre (search_key key) _ (search_key_nonempty key) Hfirst).
  unfold value_text. rewrite drop_while_blanks by (exact Hws || reflexivity).
  rewrite Ascii.eqb_refl, split_at_first by exact Hv. reflexivity.
Qed.

Lemma extract_json_string_by_text_witness :
  extract_json_string
    (json_text "{'a':1, 'crs':" ++ "  " ++ json_text "'EPSG:\'" ++ "tail") "crs"
  = "EPSG:\".
Proof.
  destruct (extract_json_string_by_text "crs") as [_ Hquoted].
  apply (Hquoted (json_text "{'a':1, ") "  " "EPSG:\" "tail");
    vm_compute; reflexivity.
Defined.

(** *** Unquoted values *)

Lemma rtrim_parts : forall s,
  exists ws, s = rtrim s ++ ws /\ all_chars is_blank ws = true /\
             no_trailing_blank (rtrim s) = true.
Proof.
  induction s as [| c s [ws [Hs [Hws Hlast]]]].
  - exists "". repeat split.
  - cbn [rtrim]. destruct (rtrim s) as [| c' r'] eqn:Hr.
    + destruct (is_blank c) eqn:Hc.
      * exists (String c ws). cbn in *. rewrite Hc, Hws. subst s. repeat split.
      * exists ws. cbn in *. unfold no_trailing_blank. cbn. rewrite Hc.
        subst s. repeat split. exact Hws.
    + exists ws. split; [cbn; rewrite Hs at 1; reflexivity |].
      split; [exact Hws |]. exact Hlast.
Qed.

Lemma take_while_app : forall p t tail,
  all_chars p t = true ->
  match tail with EmptyString => true | String c _ => negb (p c) end = true ->
  take_while p (t ++ tail) = t.
Proof.
  intros p. induction t as [| a t IH]; intros tail Ht Htail.
  - cbn. destruct tail as [| c tail]; [reflexivity |].
    cbn. apply negb_true_iff in Htail. rewrite Htail. reflexivity.
  - cbn in *. apply andb_true_iff in Ht. destruct Ht as [Ha Ht].
    rewrite Ha, IH by assumption. reflexivity.
Qed.

Lemma value_text_unquoted : forall ws t tail,
  all_chars is_blank ws = true ->
  starts_unquoted t = true ->
  all_chars not_delim t = true ->
  ends_unquoted tail = true ->
  value_text (ws ++ t ++ tail) = rtrim t.
Proof.
  intros ws t tail Hws Hstart Ht Htail.
  destruct t as [| c t]; [discriminate |].
  cbn in Hstart. apply andb_true_iff in Hstart. destruct Hstart as [Hblank Hquote].
  apply negb_true_iff in Hblank. unfold not_dquote in Hquote.
  apply negb_true_iff in Hquote.
  unfold value_text. cbn [append].
  rewrite drop_while_blanks by assumption. rewrite Hquote.
  change (String c (t ++ tail)) with (String c t ++ tail).
  rewrite (take_while_app not_delim (String c t) tail Ht).
  - reflexivity.
  - destruct tail; [reflexivity | exact Htail].
Qed.

(** X10: a value that is not quoted runs from the first character after the
    blanks that follow ["key":] to the first comma, closing brace or closing
    bracket, or to the end of the input, and comes back without its trailing
    blanks and tabs: what is cut off is made of blanks and tabs only, and
    blanks inside the value are kept. *)
Theorem extract_json_string_unquoted :
  forall pre key ws t tail : string,
    first_at pre (search_key key) ->
    all_chars is_blank ws = true ->
    starts_unquoted t = true ->
    all_chars not_delim t = true ->
    ends_unquoted tail = true ->
    let value := extract_json_string (pre ++ search_key key ++ ws ++ t ++ tail) key in
    value = rtrim t /\
    no_trailing_blank value = true /\
    exists trimmed, t = value ++ trimmed /\ all_chars is_blank trimmed = true.
Proof.
  intros pre key ws t tail Hfirst Hws Hstart Ht Htail value.
  assert (Hvalue : value = rtrim t).
  { subst value. rewrite extract_json_string_text.
    rewrite (after_first_at pre (search_key key) _ (search_key_nonempty key) Hfirst).
    apply value_text_unquoted; assumption. }
  rewrite Hvalue. split; [reflexivity |].
  destruct (rtrim_parts t) as [trimmed [Hparts [Hblank Hlast]]].
  split; [exact Hlast |]. exists trimmed. split; assumption.
Qed.

Lemma extract_json_string_unquoted_witness :
  extract_json_string (json_text "{'scheme': quad bin  ,'x':1}") "scheme" = "quad bin".
Proof.
  refine (proj1 (extract_json_string_unquoted "{" "scheme" " "
                   "quad bin  " (json_text ",'x':1}") _ _ _ _ _));
    vm_compute; reflexivity.
Defined.

(** ** [extract_json_int] on decimal numbers *)

Lemma of_uint_acc_value : forall d acc,
  Z.pos (Pos.of_uint_acc d acc) = uint_value d (Z.pos acc).
Proof.
  induction d; intros acc; cbn [Pos.of_uint_acc uint_value];
    try rewrite IHd; try reflexivity; f_equal; lia.
Qed.

Lemma of_uint_value : forall d, Z.of_N (Pos.of_uint d) = uint_value d 0.
Proof.
  induction d; cbn [Pos.of_uint uint_value Z.of_N];
    try rewrite of_uint_acc_value; try reflexivity.
  exact IHd.
Qed.

Lemma read_digits_stop : forall rest seen acc,
  no_digit_ahead rest = true -> read_digits rest seen acc = (seen, acc).
Proof.
  intros [| c rest] seen acc Hstop; [reflexivity |].
  cbn in *. destruct (digit_val c); [discriminate | reflexivity].
Qed.

Lemma read_digits_uint : forall d rest seen acc,
  no_digit_ahead rest = true ->
  read_digits (NilEmpty.string_of_uint d ++ rest) seen acc =
  (match d with Decimal.Nil => seen | _ => true end, uint_value d acc).
Proof.
  induction d; intros rest seen acc Hstop;
    cbn [NilEmpty.string_of_uint append uint_value];
    try (apply read_digits_stop; exact Hstop);
    cbn [read_digits];
    match goal with
    | |- context [digit_val ?c] =>
        let v := eval vm_compute in (digit_val c) in
        change (digit_val c) with v
    end;
    cbv iota; rewrite IHd by exact Hstop;
    (replace (acc * 10 + 0)%Z with (10 * acc)%Z by lia || idtac);
    destruct d; f_equal; f_equal; lia.
Qed.

Lemma digit_not_sign : forall c,
  digit_val c <> None ->
  isspace c = false /\ Ascii.eqb c "-" = false /\ Ascii.eqb c "+" = false.
Proof.
  intros c Hdigit.
  destruct c as [[] [] [] [] [] [] [] []];
    try (exfalso; apply Hdigit; reflexivity); repeat split.
Qed.

Lemma digits_head : forall d,
  d <> Decimal.Nil ->
  exists c s, NilEmpty.string_of_uint d = String c s /\ digit_val c <> None.
Proof.
  intros d Hd. destruct d; [contradiction | ..];
    eexists; eexists; (split; [reflexivity | discriminate]).
Qed.

Lemma to_string_shape : forall z,
  exists d,
    d <> Decimal.Nil /\
    to_string z = (if (z <? 0)%Z then "-" else "") ++ NilEmpty.string_of_uint d /\
    uint_value d 0 = Z.abs z.
Proof.
  intros [| p | p]; unfold to_string; cbn [Z.to_int NilZero.string_of_int Z.ltb Z.compare].
  - exists (Decimal.D0 Decimal.Nil). repeat split. discriminate.
  - exists (Pos.to_uint p).
    pose proof (DecimalPos.Unsigned.to_uint_nonnil p) as Hnil.
    split; [exact Hnil |]. split.
    + destruct (Pos.to_uint p); [contradiction | ..]; reflexivity.
    + rewrite <- of_uint_value, DecimalPos.Unsigned.of_to. reflexivity.
  - exists (Pos.to_uint p).
    pose proof (DecimalPos.Unsigned.to_uint_nonnil p) as Hnil.
    split; [exact Hnil |]. split.
    + destruct (Pos.to_uint p); [contradiction | ..]; reflexivity.
    + rewrite <- of_uint_value, DecimalPos.Unsigned.of_to. reflexivity.
Qed.

(** [std::stoi] reads back what [std::to_string] writes, whatever follows
    the digits. *)
Lemma stoi_to_string : forall z rest,
  (INT_MIN <= z <= INT_MAX)%Z ->
  no_digit_ahead rest = true ->
  stoi (to_string z ++ rest) = Some z.
Proof.
  intros z rest Hrange Hstop.
  destruct (to_string_shape z) as [d [Hnil [Hshape Hvalue]]].
  destruct (digits_head d Hnil) as [c [s [Hdigits Hc]]].
  destruct (digit_not_sign c Hc) as [Hspace [Hminus Hplus]].
  assert (Hread : read_digits (String c s ++ rest) false 0 = (true, Z.abs z)).
  { rewrite <- Hdigits, read_digits_uint by exact Hstop.
    rewrite Hvalue. destruct d; [contradiction | ..]; reflexivity. }
  rewrite Hshape, Hdigits. unfold stoi.
  destruct (Z.ltb_spec z 0) as [Hneg | Hpos]; cbn [append drop_spaces].
  - change (isspace "-") with false. cbv iota.
    change (Ascii.eqb "-" "-") with true. cbv iota.
    change (String c (s ++ rest)) with (String c s ++ rest). rewrite Hread.
    replace (- Z.abs z)%Z with z by lia.
    destruct (Z.leb_spec INT_MIN z); [| lia].
    destruct (Z.leb_spec z INT_MAX); [| lia]. reflexivity.
  - rewrite Hspace, Hminus, Hplus.
    change (String c (s ++ rest)) with (String c s ++ rest). rewrite Hread.
    replace (Z.abs z) with z by lia.
    destruct (Z.leb_spec INT_MIN z); [| lia].
    destruct (Z.leb_spec z INT_MAX); [| lia]. reflexivity.
Qed.

Lemma append_nil_r : forall s : string, s ++ "" = s.
Proof. induction s as [| a s IH]; cbn; [| rewrite IH]; reflexivity. Qed.

Lemma all_chars_impl : forall (p q : ascii -> bool) s,
  (forall c, p c = true -> q c = true) ->
  all_chars p s = true -> all_chars q s = true.
Proof.
  intros p q s Himpl. induction s as [| c s IH]; [reflexivity |].
  cbn. intros Hall. apply andb_true_iff in Hall. destruct Hall as [Hc Hs].
  rewrite (Himpl c Hc), IH by exact Hs. reflexivity.
Qed.

Lemma string_of_uint_decimal : forall d,
  all_chars is_decimal_char (NilEmpty.string_of_uint d) = true.
Proof. induction d; cbn; try rewrite IHd; reflexivity. Qed.

Lemma to_string_decimal : forall z, all_chars is_decimal_char (to_string z) = true.
Proof.
  intros z. destruct (to_string_shape z) as [d [_ [Hshape _]]]. rewrite Hshape.
  destruct (z <? 0)%Z; cbn; apply string_of_uint_decimal.
Qed.

Lemma decimal_char_plain : forall c,
  is_decimal_char c = true ->
  not_delim c = true /\ is_blank c = false /\ not_dquote c = true.
Proof.
  intros c. destruct c as [[] [] [] [] [] [] [] []];
    try discriminate; intros _; repeat split.
Qed.

Lemma rtrim_no_blank : forall s,
  all_chars (fun c => negb (is_blank c)) s = true -> rtrim s = s.
Proof.
  induction s as [| c s IH]; [reflexivity |].
  cbn. intros Hall. apply andb_true_iff in Hall. destruct Hall as [Hc Hs].
  rewrite IH by exact Hs. apply negb_true_iff in Hc. rewrite Hc.
  destruct s; reflexivity.
Qed.

(** X11: [extract_json_int] reads back a decimal number written after the
    key: for every [int] value [z], the text ["key":] followed by blanks, the
    decimal form of [z] and a comma, closing brace, closing bracket or the
    end of the input yields [z], whatever the default.  When the key does not
    occur the default comes back. *)
Theorem extract_json_int_reads_decimal :
  forall (pre key ws tail : string) (z default_val : Z),
    first_at pre (search_key key) ->
    all_chars is_blank ws = true ->
    (INT_MIN <= z <= INT_MAX)%Z ->
    ends_unquoted tail = true ->
    extract_json_int (pre ++ search_key key ++ ws ++ to_string z ++ tail) key
                     default_val = z /\
    (forall json,
       after_first (search_key key) json = None ->
       extract_json_int json key default_val = default_val).
Proof.
  intros pre key ws tail z default_val Hfirst Hws Hrange Htail. split.
  - assert (Hplain : forall p, (forall c, is_decimal_char c = true -> p c = true) ->
                               all_chars p (to_string z) = true).
    { intros p Hp. apply (all_chars_impl is_decimal_char p); [exact Hp |].
      apply to_string_decimal. }
    destruct (to_string_shape z) as [d [Hnil [Hshape _]]].
    assert (Hstart : starts_unquoted (to_string z) = true).
    { pose proof (to_string_decimal z) as Hall.
      destruct (to_string z) as [| c s] eqn:Hstr.
      - destruct (digits_head d Hnil) as [c [s [Hdigits _]]].
        rewrite Hdigits in Hshape. destruct (z <? 0)%Z; discriminate.
      - cbn in Hall. apply andb_true_iff in Hall. destruct Hall as [Hc _].
        destruct (decimal_char_plain c Hc) as [_ [Hblank Hquote]].
        cbn. rewrite Hblank, Hquote. reflexivity. }
    unfold extract_json_int. rewrite extract_json_string_text.
    rewrite (after_first_at pre (search_key key) _ (search_key_nonempty key) Hfirst).
    rewrite value_text_unquoted; try assumption.
    + rewrite rtrim_no_blank.
      * assert (Hstoi : stoi (to_string z) = Some z).
        { rewrite <- (stoi_to_string z "" Hrange eq_refl), append_nil_r.
          reflexivity. }
        rewrite Hstoi. destruct (to_string z); [discriminate | reflexivity].
      * apply Hplain. intros c Hc. destruct (decimal_char_plain c Hc) as [_ [Hb _]].
        rewrite Hb. reflexivity.
    + apply Hplain. intros c Hc. apply (decimal_char_plain c Hc).
  - intros json Habsent. unfold extract_json_int.
    rewrite extract_json_string_text, Habsent. reflexivity.
Qed.

Lemma extract_json_int_reads_decimal_witness :
  extract_json_int (json_text "{'min_zoom':0,'max_zoom': -17}") "max_zoom" 26 = (-17)%Z.
Proof.
  refine (proj1 (extract_json_int_reads_decimal (json_text "{'min_zoom':0,")
                   "max_zoom" " " "}" (-17) 26 _ _ _ _));
    vm_compute; try reflexivity.
  split; discriminate.
Defined.

(** ** [extract_json_object] on the text *)

Lemma match_braces_text : forall rest pos depth,
  match_braces rest pos depth = pos + String.length (object_text rest depth).
Proof.
  induction rest as [| c rest IH]; intros pos depth; cbn [match_braces object_text].
  - cbn. lia.
  - destruct (0 <? depth)%Z; cbn [String.length]; [rewrite IH |]; lia.
Qed.

Lemma object_text_prefix : forall rest depth,
  exists tail, rest = object_text rest depth ++ tail.
Proof.
  induction rest as [| c rest IH]; intros depth; cbn [object_text].
  - exists "". reflexivity.
  - destruct (0 <? depth)%Z.
    + destruct (IH (if Ascii.eqb c "{" then depth + 1
                    else if Ascii.eqb c "}" then depth - 1 else depth)%Z)
        as [tail Htail].
      exists tail. cbn. rewrite <- Htail. reflexivity.
    + exists (String c rest). reflexivity.
Qed.

Lemma extract_json_object_text : forall json key,
  extract_json_object json key =
  match after_first (search_key key) json with
  | None => ""
  | Some rest =>
      match drop_while is_blank_nl rest with
      | EmptyString => ""
      | String c r => if Ascii.eqb c "{" then String "{" (object_text r 1) else ""
      end
  end.
Proof.
  intros json key. unfold extract_json_object.
  pose proof (find_after_first (search_key key) json (search_key_nonempty key))
    as Hfind.
  destruct (find json (search_key key) 0) as [p |]; [| rewrite Hfind; reflexivity].
  destruct Hfind as [Hafter Hdrop]. rewrite Hafter.
  set (rest := drop (p + String.length (search_key key)) json) in *.
  destruct (skip_while_text is_blank_nl json _ rest eq_refl) as [_ Htail].
  set (pos := skip_while is_blank_nl json (p + String.length (search_key key))) in *.
  rewrite char_at_drop, Htail.
  destruct (drop_while is_blank_nl rest) as [| c r]; [reflexivity |].
  destruct (Ascii.eqb_spec c "{") as [-> | _]; [| reflexivity].
  assert (Hr : drop (S pos) json = r).
  { replace (S pos) with (pos + 1) by lia. rewrite drop_add, Htail. reflexivity. }
  rewrite Hr, match_braces_text, substr_drop, Htail.
  replace (S pos + String.length (object_text r 1) - pos)
    with (S (String.length (object_text r 1))) by lia.
  destruct (object_text_prefix r 1) as [tail Hprefix].
  unfold substr. cbn [substring]. f_equal.
  pose proof (substr_app_length (object_text r 1) tail) as Htake.
  rewrite <- Hprefix in Htake. exact Htake.
Qed.

Lemma object_text_balanced : forall body open depth tail,
  balanced_from body open = true -> (0 < depth)%Z ->
  object_text (body ++ tail) (depth + Z.of_nat open) = body ++ object_text tail depth.
Proof.
  induction body as [| c body IH]; intros open depth tail Hbal Hdepth.
  - cbn in Hbal. apply Nat.eqb_eq in Hbal. subst open.
    cbn [append]. f_equal. cbn. lia.
  - cbn [append object_text balanced_from] in *.
    destruct (Z.ltb_spec 0 (depth + Z.of_nat open)) as [_ | Hle]; [| lia].
    f_equal.
    destruct (Ascii.eqb c "{").
    + replace (depth + Z.of_nat open + 1)%Z with (depth + Z.of_nat (S open))%Z by lia.
      apply IH; assumption.
    + destruct (Ascii.eqb c "}").
      * destruct open as [| o]; [discriminate |].
        replace (depth + Z.of_nat (S o) - 1)%Z with (depth + Z.of_nat o)%Z by lia.
        apply IH; assumption.
      * apply IH; assumption.
Qed.

Lemma object_text_open : forall body open,
  never_closes body open = true ->
  object_text body (1 + Z.of_nat open) = body.
Proof.
  induction body as [| c body IH]; intros open Hopen; [reflexivity |].
  cbn [object_text never_closes] in *.
  destruct (Z.ltb_spec 0 (1 + Z.of_nat open)) as [_ | Hle]; [| lia].
  f_equal.
  destruct (Ascii.eqb c "{").
  - replace (1 + Z.of_nat open + 1)%Z with (1 + Z.of_nat (S open))%Z by lia.
    apply IH. exact Hopen.
  - destruct (Ascii.eqb c "}").
    + destruct open as [| o]; [discriminate |].
      replace (1 + Z.of_nat (S o) - 1)%Z with (1 + Z.of_nat o)%Z by lia.
      apply IH. exact Hopen.
    + apply IH. exact Hopen.
Qed.

Lemma drop_while_blanks_nl : forall ws c rest,
  all_chars is_blank_nl ws = true -> is_blank_nl c = false ->
  drop_while is_blank_nl (ws ++ String c rest) = String c rest.
Proof.
  induction ws as [| a ws IH]; intros c rest Hws Hc; cbn.
  - rewrite Hc. reflexivity.
  - cbn in Hws. apply andb_true_iff in Hws. destruct Hws as [Ha Hws].
    rewrite Ha. apply IH; assumption.
Qed.

(** X12: [extract_json_object] returns, from the first occurrence of
    ["key":] followed by blanks, tabs or newlines and an opening brace, the
    object up to the brace that closes it, nested objects included, whatever
    follows.  An object that is never closed is returned up to the end of the
    input, and a value that does not start with an opening brace gives the
    empty string. *)
Theorem extract_json_object_balanced :
  forall pre key ws body : string,
    first_at pre (search_key key) ->
    all_chars is_blank_nl ws = true ->
    (forall tail,
       balanced_from body 0 = true ->
       extract_json_object
         (pre ++ search_key key ++ ws ++ "{" ++ body ++ "}" ++ tail) key
       = "{" ++ body ++ "}") /\
    (never_closes body 0 = true ->
     extract_json_object (pre ++ search_key key ++ ws ++ "{" ++ body) key
     = "{" ++ body) /\
    (forall c tail,
       is_blank_nl c = false -> c <> "{"%char ->
       extract_json_object (pre ++ search_key key ++ ws ++ String c tail) key = "").
Proof.
  intros pre key ws body Hfirst Hws.
  assert (Hafter : forall rest,
             after_first (search_key key) (pre ++ search_key key ++ rest) = Some rest)
    by (intros rest; apply after_first_at;
        [apply search_key_nonempty | exact Hfirst]).
  split; [| split].
  - intros tail Hbal. rewrite extract_json_object_text, Hafter.
    cbn [append]. rewrite drop_while_blanks_nl by (exact Hws || reflexivity).
    change (Ascii.eqb "{" "{") with true. cbv iota. f_equal.
    pose proof (object_text_balanced body 0 1 (String "}" tail) Hbal ltac:(lia))
      as Hbody.
    change (1 + Z.of_nat 0)%Z with 1%Z in Hbody. rewrite Hbody.
    f_equal. cbn [object_text]. destruct tail; reflexivity.
  - intros Hopen. rewrite extract_json_object_text, Hafter.
    cbn [append]. rewrite drop_while_blanks_nl by (exact Hws || reflexivity).
    change (Ascii.eqb "{" "{") with true. cbv iota. f_equal.
    apply (object_text_open body 0 Hopen).
  - intros c tail Hc Hbrace. rewrite extract_json_object_text, Hafter.
    rewrite drop_while_blanks_nl by assumption.
    apply Ascii.eqb_neq in Hbrace. rewrite Hbrace. reflexivity.
Qed.

Lemma extract_json_object_balanced_witness :
  extract_json_object
    (json_text "{'crs':'x', 'tiling': {'a':{'b':1},'c':2}, 'bands':[{}]}") "tiling"
  = json_text "{'a':{'b':1},'c':2}" /\
  extract_json_object (json_text "{'tiling':{'a':{'b':1}") "tiling"
  = json_text "{'a':{'b':1}".
Proof.
  split.
  - refine (proj1 (extract_json_object_balanced (json_text "{'crs':'x', ")
                     "tiling" " " (json_text "'a':{'b':1},'c':2") _ _)
                  (json_text ", 'bands':[{}]}") _);
      vm_compute; reflexivity.
  - refine (proj1 (proj2 (extract_json_object_balanced "{" "tiling" ""
                            (json_text "'a':{'b':1}") _ _)) _);
      vm_compute; reflexivity.
Defined.

(** ** Descriptors written out and read back *)

Lemma prefix_prefixb : forall key s, prefix key s = prefixb key s.
Proof.
  induction key as [| a key IH]; intros s; [apply prefix_nil |].
  destruct s as [| b s]; [apply prefix_empty_r |].
  rewrite prefix_cons, IH. reflexivity.
Qed.

Lemma after_first_hit : forall key s,
  prefixb key s = true -> after_first key s = Some (drop (String.length key) s).
Proof. intros key s Hhit. apply after_first_here. rewrite prefix_prefixb. exact Hhit. Qed.

Lemma after_first_step : forall key a s,
  prefixb key (String a s) = false ->
  after_first key (String a s) = after_first key s.
Proof.
  intros key a s Hmiss. cbn [after_first]. rewrite prefix_prefixb, Hmiss. reflexivity.
Qed.

Lemma after_first_skip : forall key v s,
  starts_with_dquote key = true -> all_chars not_dquote v = true ->
  after_first key (v ++ s) = after_first key s.
Proof.
  intros key v s Hkey. induction v as [| a v IH]; intros Hv; [reflexivity |].
  cbn in Hv. apply andb_true_iff in Hv. destruct Hv as [Ha Hv].
  cbn [append]. rewrite after_first_step; [apply IH; exact Hv |].
  destruct key as [| k key]; [discriminate |].
  cbn in *. apply Ascii.eqb_eq in Hkey. subst k.
  unfold not_dquote in Ha. apply negb_true_iff in Ha.
  rewrite Ascii.eqb_sym, Ha. reflexivity.
Qed.

(** The pattern ["k":] does not match at the opening quote of a quoted value
    that is followed by anything but a colon. *)
Lemma prefixb_quoted_value : forall k v c t1 t2,
  all_chars not_dquote k = true -> all_chars not_dquote v = true ->
  Ascii.eqb c ":" = false ->
  prefixb (k ++ String dquote (String ":" t1)) (v ++ String dquote (String c t2)) = false.
Proof.
  induction k as [| a k IH]; intros v c t1 t2 Hk Hv Hc.
  - destruct v as [| b v]; cbn [append prefixb].
    + rewrite (Ascii.eqb_sym ":" c), Hc. apply andb_false_r.
    + cbn in Hv. apply andb_true_iff in Hv. destruct Hv as [Hb _].
      unfold not_dquote in Hb. apply negb_true_iff in Hb.
      rewrite (Ascii.eqb_sym dquote b), Hb. reflexivity.
  - cbn in Hk. apply andb_true_iff in Hk. destruct Hk as [Ha Hk].
    destruct v as [| b v]; cbn [append prefixb].
    + unfold not_dquote in Ha. apply negb_true_iff in Ha. rewrite Ha. reflexivity.
    + cbn in Hv. apply andb_true_iff in Hv. destruct Hv as [_ Hv].
      rewrite IH by assumption. apply andb_false_r.
Qed.

Lemma after_first_quoted : forall k v c s,
  all_chars not_dquote k = true -> all_chars not_dquote v = true ->
  Ascii.eqb c ":" = false ->
  after_first (search_key k) (String dquote (v ++ String dquote (String c s))) =
  after_first (search_key k) (String dquote (String c s)).
Proof.
  intros k v c s Hk Hv Hc.
  rewrite after_first_step.
  - apply after_first_skip; [reflexivity | exact Hv].
  - unfold search_key, str1. cbn [append prefixb]. rewrite Ascii.eqb_refl.
    cbn [andb]. apply prefixb_quoted_value; assumption.
Qed.

Lemma all_chars_app : forall p u v,
  all_chars p (u ++ v) = all_chars p u && all_chars p v.
Proof.
  intros p. induction u as [| a u IH]; intros v; [reflexivity |].
  cbn. rewrite IH. apply andb_assoc.
Qed.

Lemma drop_while_head : forall p c r,
  p c = false -> drop_while p (String c r) = String c r.
Proof. intros p c r Hc. cbn. rewrite Hc. reflexivity. Qed.

Lemma extract_json_string_after : forall json key v rest,
  after_first (search_key key) json = Some (String dquote (v ++ String dquote rest)) ->
  all_chars not_dquote v = true ->
  extract_json_string json key = v.
Proof.
  intros json key v rest Hafter Hv.
  rewrite extract_json_string_text, Hafter. unfold value_text.
  rewrite drop_while_head by reflexivity.
  rewrite Ascii.eqb_refl, split_at_first by exact Hv. reflexivity.
Qed.

Lemma to_string_chars : forall (p : ascii -> bool) z,
  (forall c, is_decimal_char c = true -> p c = true) ->
  all_chars p (to_string z) = true.
Proof.
  intros p z Hp. apply (all_chars_impl is_decimal_char p); [exact Hp |].
  apply to_string_decimal.
Qed.

Lemma to_string_no_dquote : forall z, all_chars not_dquote (to_string z) = true.
Proof.
  intros z. apply to_string_chars. intros c Hc. apply (decimal_char_plain c Hc).
Qed.

(** Spells a rendered text out, character by character up to the values. *)
Ltac spell :=
  repeat (progress (cbn [append fst snd]; rewrite ?app_assoc_string)).

(** Walks [after_first (search_key k) text] along a spelled text up to the
    first occurrence of the pattern. *)
Ltac walk k :=
  repeat first
    [ rewrite after_first_step by reflexivity
    | rewrite (after_first_quoted k) by (reflexivity || assumption)
    | rewrite after_first_skip
        by (reflexivity || assumption || apply to_string_no_dquote) ];
  rewrite after_first_hit by reflexivity;
  cbn [String.length drop search_key str1 append].

Lemma band_char_parts : forall s,
  all_chars band_char s = true ->
  all_chars not_dquote s = true /\
  all_chars (fun a => negb (Ascii.eqb a "}")) s = true /\
  all_chars (fun a => negb (Ascii.eqb a "]")) s = true.
Proof.
  intros s Hs. repeat split;
    (apply (all_chars_impl band_char); [| exact Hs]);
    intros c Hc; unfold band_char in Hc;
    apply andb_true_iff in Hc; destruct Hc as [Hc Hc3];
    apply andb_true_iff in Hc; destruct Hc as [Hc1 Hc2]; assumption.
Qed.

Lemma band_entry_render : forall band,
  band_ok band = true -> band_entry (render_band band) = [band].
Proof.
  intros [n t] Hok. unfold band_ok in Hok. cbn [fst snd] in Hok.
  apply andb_true_iff in Hok. destruct Hok as [Hok Ht].
  apply andb_true_iff in Hok. destruct Hok as [Hok Htne].
  apply andb_true_iff in Hok. destruct Hok as [Hnne Hn].
  destruct (band_char_parts n Hn) as [Hnq _].
  destruct (band_char_parts t Ht) as [Htq _].
  assert (Hname : extract_json_string (render_band (n, t)) "name" = n).
  { eapply extract_json_string_after; [| exact Hnq].
    unfold render_band, band_fields, quoted, search_key, str1. spell.
    walk "name". reflexivity. }
  assert (Htype : extract_json_string (render_band (n, t)) "type" = t).
  { eapply extract_json_string_after; [| exact Htq].
    unfold render_band, band_fields, quoted, search_key, str1. spell.
    walk "type". reflexivity. }
  unfold band_entry. rewrite Hname, Htype.
  destruct n; [discriminate |]. destruct t; [discriminate |]. reflexivity.
Qed.

(** [parse_bands] on a descriptor whose band list is known as text: what
    follows the first ["bands":], cut at its first '[' and at the first ']'
    after it. *)
Lemma parse_bands_after : forall json rest u inner span tail,
  after_first (search_key "bands") json = Some rest ->
  split_at "[" rest = Some (u, inner) ->
  split_at "]" inner = Some (span, tail) ->
  parse_bands json = flat_map band_entry (objects_from None span).
Proof.
  intros json rest0 u inner span tail Hrest0 Hopen Hclose. unfold parse_bands.
  pose proof (find_after_first (search_key "bands") json) as Hfind.
  destruct (find json (search_key "bands") 0) as [bands_pos |].
  - destruct Hfind as [Hafter Hdrop]; [discriminate |].
    assert (Heq : rest0 = drop (bands_pos + String.length (search_key "bands")) json)
      by congruence.
    rewrite Heq in Hopen. clear Heq Hrest0 Hafter rest0.
    set (rest := drop (bands_pos + String.length (search_key "bands")) json) in *.
    rewrite find_char_split, Hdrop, split_at_bracket_after_key, Hopen.
    pose proof (split_at_app _ _ _ _ Hopen) as Hrest.
    set (arr_start := bands_pos + String.length (search_key "bands" ++ u)).
    assert (Hstart : drop arr_start json = String "[" inner).
    { subst arr_start. rewrite drop_add, Hdrop, Hrest, <- app_assoc_string.
      apply drop_app_length. }
    rewrite find_char_split, Hstart. cbn [split_at].
    change (Ascii.eqb "[" "]") with false. cbv iota. rewrite Hclose.
    pose proof (split_at_app _ _ _ _ Hclose) as Hinner.
    cbn [String.length].
    assert (Hspan : substr json (arr_start + 1)
                      (arr_start + S (String.length span) - arr_start - 1) = span).
    { rewrite substr_drop, drop_add, Hstart. cbn [drop]. rewrite Hinner.
      replace (arr_start + S (String.length span) - arr_start - 1)
        with (String.length span) by lia.
      apply substr_app_length. }
    rewrite Hspan. apply parse_bands_loop_objects. cbn [drop]. lia.
  - rewrite Hfind in Hrest0; [discriminate | discriminate].
Qed.

Lemma all_chars_quoted : forall p v,
  p dquote = true -> all_chars p v = true -> all_chars p (quoted v) = true.
Proof.
  intros p v Hq Hv. unfold quoted, str1. cbn [all_chars].
  rewrite all_chars_app, Hq, Hv. cbn. rewrite Hq. reflexivity.
Qed.

Lemma band_fields_chars : forall p band,
  all_chars p (search_key "name" ++ "," ++ search_key "type") = true ->
  all_chars p (fst band) = true -> all_chars p (snd band) = true ->
  all_chars p (band_fields band) = true.
Proof.
  intros p [n t] Hlit Hn Ht. cbn [fst snd] in *.
  assert (Hq : p dquote = true).
  { cbn in Hlit. apply andb_true_iff in Hlit. destruct Hlit as [Hq _]. exact Hq. }
  unfold band_fields. cbn [fst snd].
  rewrite !all_chars_app in *.
  rewrite !all_chars_quoted by assumption.
  apply andb_true_iff in Hlit. destruct Hlit as [Hname Hlit].
  apply andb_true_iff in Hlit. destruct Hlit as [Hcomma Htype].
  rewrite Hname, Hcomma, Htype. reflexivity.
Qed.

Lemma band_ok_chars : forall band,
  band_ok band = true ->
  all_chars band_char (fst band) = true /\ all_chars band_char (snd band) = true.
Proof.
  intros band Hok. unfold band_ok in Hok.
  apply andb_true_iff in Hok. destruct Hok as [Hok Ht].
  apply andb_true_iff in Hok. destruct Hok as [Hok _].
  apply andb_true_iff in Hok. destruct Hok as [_ Hn]. split; assumption.
Qed.

Lemma objects_render_band : forall band rest,
  band_ok band = true ->
  objects_from None (render_band band ++ rest) =
  render_band band :: objects_from None rest.
Proof.
  intros band rest Hok. destruct (band_ok_chars band Hok) as [Hn Ht].
  destruct (band_char_parts _ Hn) as [_ [Hnb _]].
  destruct (band_char_parts _ Ht) as [_ [Htb _]].
  unfold render_band. cbn [append]. rewrite app_assoc_string. cbn [append].
  cbn [objects_from]. change (Ascii.eqb "{" "{") with true. cbv iota.
  rewrite objects_inside, split_at_first; [reflexivity |].
  apply band_fields_chars; [reflexivity | assumption | assumption].
Qed.

Lemma objects_render_more : forall bs rest,
  forallb band_ok bs = true ->
  objects_from None (render_more bs ++ rest) =
  (map render_band bs ++ objects_from None rest)%list.
Proof.
  induction bs as [| band bs IH]; intros rest Hok; [reflexivity |].
  cbn [forallb] in Hok. apply andb_true_iff in Hok. destruct Hok as [Hband Hok].
  cbn [render_more map]. rewrite !app_assoc_string. cbn [append objects_from].
  change (Ascii.eqb "," "{") with false. cbv iota.
  rewrite objects_render_band by exact Hband.
  rewrite IH by exact Hok. reflexivity.
Qed.

Lemma objects_render_bands : forall bs,
  forallb band_ok bs = true ->
  objects_from None (render_bands bs) = map render_band bs.
Proof.
  intros [| band bs] Hok; [reflexivity |].
  cbn [forallb] in Hok. apply andb_true_iff in Hok. destruct Hok as [Hband Hok].
  cbn [render_bands map].
  rewrite objects_render_band by exact Hband.
  rewrite <- (append_nil_r (render_more bs)), objects_render_more by exact Hok.
  cbn [objects_from]. rewrite app_nil_r. reflexivity.
Qed.

Lemma band_entries_render : forall bs,
  forallb band_ok bs = true -> flat_map band_entry (map render_band bs) = bs.
Proof.
  induction bs as [| band bs IH]; intros Hok; [reflexivity |].
  cbn [forallb] in Hok. apply andb_true_iff in Hok. destruct Hok as [Hband Hok].
  cbn [map flat_map]. rewrite band_entry_render, IH by assumption. reflexivity.
Qed.

Lemma render_band_chars : forall band,
  band_ok band = true ->
  all_chars (fun a => negb (Ascii.eqb a "]")) (render_band band) = true.
Proof.
  intros band Hok. destruct (band_ok_chars band Hok) as [Hn Ht].
  destruct (band_char_parts _ Hn) as [_ [_ Hnb]].
  destruct (band_char_parts _ Ht) as [_ [_ Htb]].
  unfold render_band. rewrite !all_chars_app.
  rewrite band_fields_chars; [reflexivity | reflexivity | assumption | assumption].
Qed.

Lemma render_more_chars : forall bs,
  forallb band_ok bs = true ->
  all_chars (fun a => negb (Ascii.eqb a "]")) (render_more bs) = true.
Proof.
  induction bs as [| band bs IH]; intros Hok; [reflexivity |].
  cbn [forallb] in Hok. apply andb_true_iff in Hok. destruct Hok as [Hband Hok].
  cbn [render_more]. rewrite !all_chars_app.
  rewrite render_band_chars, IH by assumption. reflexivity.
Qed.

Lemma render_bands_chars : forall bs,
  forallb band_ok bs = true ->
  all_chars (fun a => negb (Ascii.eqb a "]")) (render_bands bs) = true.
Proof.
  intros [| band bs] Hok; [reflexivity |].
  cbn [forallb] in Hok. apply andb_true_iff in Hok. destruct Hok as [Hband Hok].
  cbn [render_bands]. rewrite all_chars_app.
  rewrite render_band_chars, render_more_chars by assumption. reflexivity.
Qed.

Lemma parse_bands_render : forall json ws bs tail,
  after_first (search_key "bands") json =
    Some (ws ++ String "[" (render_bands bs ++ String "]" tail)) ->
  all_chars (fun a => negb (Ascii.eqb a "[")) ws = true ->
  forallb band_ok bs = true ->
  parse_bands json = bs.
Proof.
  intros json ws bs tail Hafter Hws Hok.
  rewrite (parse_bands_after json _ ws (render_bands bs ++ String "]" tail)
             (render_bands bs) tail Hafter).
  - rewrite objects_render_bands by exact Hok. apply band_entries_render. exact Hok.
  - apply split_at_first. exact Hws.
  - apply split_at_first. apply render_bands_chars. exact Hok.
Qed.

(** X13: a band list written as objects with a quoted name and a quoted
    type, separated by commas, is read back by [parse_bands] band for band
    and in order, wherever the first ["bands":] stands in the document,
    provided every name and type is non-empty and has no double quote, no
    closing brace and no closing bracket in it. *)
Theorem parse_bands_reads_back :
  forall (pre ws tail : string) (bs : list (string * string)),
    first_at pre (search_key "bands") ->
    all_chars (fun a => negb (Ascii.eqb a "[")) ws = true ->
    forallb band_ok bs = true ->
    parse_bands (pre ++ search_key "bands" ++ ws ++ "[" ++ render_bands bs ++ "]" ++ tail)
    = bs.
Proof.
  intros pre ws tail bs Hfirst Hws Hok.
  apply (parse_bands_render _ ws bs tail); [| exact Hws | exact Hok].
  apply after_first_at; [apply search_key_nonempty | exact Hfirst].
Qed.

Lemma parse_bands_reads_back_witness :
  parse_bands
    (json_text "{'crs':'x','bands': [{'name':'red','type':'uint8'},{'name':'nir {1','type':'int16'}],'n':[1]}")
  = [("red", "uint8"); ("nir {1", "int16")].
Proof.
  refine (parse_bands_reads_back (json_text "{'crs':'x',") " " (json_text ",'n':[1]}")
            [("red", "uint8"); ("nir {1", "int16")] _ _ _);
    vm_compute; reflexivity.
Defined.

(** *** A whole descriptor *)

Lemma int_ok_range : forall z, int_ok z = true -> (INT_MIN <= z <= INT_MAX)%Z.
Proof.
  intros z Hok. unfold int_ok in Hok. apply andb_true_iff in Hok.
  destruct Hok as [Hlo Hhi]. apply Z.leb_le in Hlo. apply Z.leb_le in Hhi.
  split; assumption.
Qed.

Lemma extract_json_int_after : forall json key z tail default_val,
  after_first (search_key key) json = Some (to_string z ++ tail) ->
  int_ok z = true ->
  ends_unquoted tail = true ->
  extract_json_int json key default_val = z.
Proof.
  intros json key z tail default_val Hafter Hok Htail.
  apply int_ok_range in Hok.
  destruct (to_string_shape z) as [d [Hnil [Hshape _]]].
  assert (Hstart : starts_unquoted (to_string z) = true).
  { pose proof (to_string_decimal z) as Hall.
    destruct (to_string z) as [| c s] eqn:Hstr.
    - destruct (digits_head d Hnil) as [c [s [Hdigits _]]].
      rewrite Hdigits in Hshape. destruct (z <? 0)%Z; discriminate.
    - cbn in Hall. apply andb_true_iff in Hall. destruct Hall as [Hc _].
      destruct (decimal_char_plain c Hc) as [_ [Hblank Hquote]].
      cbn. rewrite Hblank, Hquote. reflexivity. }
  unfold extract_json_int. rewrite extract_json_string_text, Hafter.
  change (to_string z ++ tail) with ("" ++ to_string z ++ tail).
  rewrite (value_text_unquoted "" (to_string z) tail eq_refl Hstart).
  - rewrite rtrim_no_blank.
    + assert (Hstoi : stoi (to_string z) = Some z).
      { rewrite <- (stoi_to_string z "" Hok eq_refl), append_nil_r. reflexivity. }
      rewrite Hstoi. destruct (to_string z); [discriminate | reflexivity].
    + apply to_string_chars. intros c Hc.
      destruct (decimal_char_plain c Hc) as [_ [Hb _]]. rewrite Hb. reflexivity.
  - apply to_string_chars. intros c Hc. apply (decimal_char_plain c Hc).
  - exact Htail.
Qed.

Lemma brace_free_balanced : forall u open,
  all_chars brace_free u = true -> balanced_from u open = Nat.eqb open 0.
Proof.
  induction u as [| c u IH]; intros open Hu; [reflexivity |].
  cbn [all_chars] in Hu. apply andb_true_iff in Hu. destruct Hu as [Hc Hu].
  unfold brace_free in Hc. apply andb_true_iff in Hc. destruct Hc as [Hopen Hclose].
  apply negb_true_iff in Hopen. apply negb_true_iff in Hclose.
  cbn [balanced_from]. rewrite Hopen, Hclose. apply IH. exact Hu.
Qed.

Lemma extract_json_object_after : forall json key body tail,
  after_first (search_key key) json = Some (String "{" (body ++ String "}" tail)) ->
  balanced_from body 0 = true ->
  extract_json_object json key = "{" ++ body ++ "}".
Proof.
  intros json key body tail Hafter Hbal.
  rewrite extract_json_object_text, Hafter.
  rewrite drop_while_head by reflexivity.
  change (Ascii.eqb "{" "{") with true. cbv iota. cbn [append]. f_equal.
  pose proof (object_text_balanced body 0 1 (String "}" tail) Hbal ltac:(lia))
    as Hbody.
  change (1 + Z.of_nat 0)%Z with 1%Z in Hbody. rewrite Hbody.
  f_equal. cbn [object_text]. destruct tail; reflexivity.
Qed.

Lemma decimal_brace_free : forall c, is_decimal_char c = true -> brace_free c = true.
Proof.
  intros c. destruct c as [[] [] [] [] [] [] [] []];
    try discriminate; intros _; reflexivity.
Qed.

Ltac split_andb :=
  repeat match goal with
         | H : (_ && _)%bool = true |- _ =>
             apply andb_true_iff in H; destruct H
         end.

Ltac spell_all :=
  unfold render_metadata, render_tiling, tiling_fields, quoted, search_key, str1;
  spell.

Ltac read_int k :=
  eapply extract_json_int_after;
  [ spell_all; walk k; reflexivity | assumption | reflexivity ].

Lemma tiling_fields_balanced : forall m,
  all_chars brace_free (scheme m) = true ->
  balanced_from (tiling_fields m) 0 = true.
Proof.
  intros m Hscheme. rewrite brace_free_balanced; [reflexivity |].
  unfold tiling_fields. rewrite !all_chars_app.
  rewrite !to_string_chars by exact decimal_brace_free.
  rewrite all_chars_quoted by (reflexivity || assumption). reflexivity.
Qed.

Section ReadBack.
Variable m : RaquetMetadata.
Hypothesis Hwritable : writable m = true.

Lemma read_compression :
  extract_json_string (render_metadata m) "compression" = compression m.
Proof.
  unfold writable in Hwritable. split_andb.
  eapply extract_json_string_after; [| eassumption].
  unfold render_metadata, quoted, search_key, str1. spell.
  walk "compression". reflexivity.
Qed.

Lemma read_crs : extract_json_string (render_metadata m) "crs" = crs m.
Proof.
  unfold writable in Hwritable. split_andb.
  eapply extract_json_string_after; [| eassumption].
  unfold render_metadata, quoted, search_key, str1. spell.
  walk "crs". reflexivity.
Qed.

Lemma read_tiling : extract_json_object (render_metadata m) "tiling" = render_tiling m.
Proof.
  unfold writable in Hwritable. split_andb.
  apply (extract_json_object_after _ "tiling" (tiling_fields m)
           ("," ++ search_key "bands" ++ "[" ++ render_bands (bands m) ++ "]}")).
  - unfold render_metadata, render_tiling, quoted, search_key, str1. spell.
    walk "tiling". reflexivity.
  - apply tiling_fields_balanced. assumption.
Qed.

Lemma read_bands : parse_bands (render_metadata m) = bands m.
Proof.
  unfold writable in Hwritable. split_andb.
  apply (parse_bands_render _ "" (bands m) "}"); [| reflexivity | assumption].
  spell_all. walk "bands". reflexivity.
Qed.

Lemma read_tiling_fields :
  forall d,
    extract_json_int (render_tiling m) "min_zoom" d = min_zoom m /\
    extract_json_int (render_tiling m) "max_zoom" d = max_zoom m /\
    extract_json_int (render_tiling m) "pixel_zoom" d = pixel_zoom m /\
    extract_json_int (render_tiling m) "num_blocks" d = num_blocks m /\
    extract_json_int (render_tiling m) "block_width" d = block_width m /\
    extract_json_int (render_tiling m) "block_height" d = block_height m /\
    extract_json_string (render_tiling m) "scheme" = scheme m.
Proof.
  intros d. unfold writable in Hwritable. split_andb.
  split; [read_int "min_zoom" |].
  split; [read_int "max_zoom" |].
  split; [read_int "pixel_zoom" |].
  split; [read_int "num_blocks" |].
  split; [read_int "block_width" |].
  split; [read_int "block_height" |].
  eapply extract_json_string_after; [| eassumption].
  spell_all. walk "scheme". reflexivity.
Qed.

End ReadBack.

Lemma parse_render_metadata : forall m : RaquetMetadata,
  writable m = true -> parse_metadata (render_metadata m) = m.
Proof.
  intros m Hw. unfold parse_metadata. cbv zeta.
  rewrite (read_compression m Hw), (read_crs m Hw), (read_tiling m Hw),
    (read_bands m Hw).
  destruct (read_tiling_fields m Hw 0) as [Hmin [_ [Hpixel [Hblocks _]]]].
  destruct (read_tiling_fields m Hw 26) as [_ [Hmax _]].
  destruct (read_tiling_fields m Hw 256) as [_ [_ [_ [_ [Hwidth [Hheight Hscheme]]]]]].
  rewrite Hmin, Hmax, Hpixel, Hblocks, Hwidth, Hheight, Hscheme.
  change (is_empty (render_tiling m)) with false. cbn [negb].
  unfold writable in Hw. split_andb.
  destruct m as [c bw bh z0 z1 pz nb sch cr bs]. cbn [compression] in *.
  destruct c; [discriminate | reflexivity].
Qed.

(** X14: [parse_metadata] reads back every field of a descriptor written in
    the layout of [render_metadata], for every metadata value that is
    [writable]: compression, reference system, the six numbers and the scheme
    of the tiling object, and the band list are those that were written. *)
Theorem parse_metadata_reads_back :
  forall m : RaquetMetadata,
    writable m = true -> parse_metadata (render_metadata m) = m.
Proof. intros m Hw. apply parse_render_metadata. exact Hw. Qed.

Lemma parse_metadata_reads_back_witness :
  parse_metadata
    (json_text "{'compression':'gzip','crs':'EPSG:3857','tiling':{'min_zoom':0,'max_zoom':12,'pixel_zoom':20,'num_blocks':-3,'block_width':512,'block_height':256,'scheme':'quadbin'},'bands':[{'name':'red','type':'uint8'},{'name':'nir','type':'int16'}]}")
  = mkMeta "gzip" 512 256 0 12 20 (-3) "quadbin" "EPSG:3857"
           [("red", "uint8"); ("nir", "int16")].
Proof.
  exact (parse_metadata_reads_back
           (mkMeta "gzip" 512 256 0 12 20 (-3) "quadbin" "EPSG:3857"
                   [("red", "uint8"); ("nir", "int16")]) eq_refl).
Defined.

(** *** The overloads with metadata on a written descriptor *)

(** X15: on the descriptor written from a [writable] metadata value, the
    overloads with metadata give the row of the six-argument overload called
    with the declared parameters: the type of the first band (or of the band
    at the given index), the block width and height, the compression, and
    the nodata value of the band information.  With no band declared the
    [(band, metadata)] overload decodes as "uint8". *)
Theorem metadata_overloads_decode_as_declared :
  forall (backend : Backend) (band : cell (list byte)) (m : RaquetMetadata),
    writable m = true ->
    let metadata := render_metadata m in
    STRasterSummaryStatsMetadata_row (band, metadata) =
    STRasterSummaryStats_row
      (band, first_band_type m, block_width m, block_height m, compression m,
       nodata_cell (first_band_nodata (band_info metadata))) /\
    (forall i declared,
       nth_error (bands m) i = Some declared ->
       STRasterSummaryStatsMetadataBand_row (band, metadata, Z.of_nat i) =
       STRasterSummaryStats_row
         (band, snd declared, block_width m, block_height m, compression m,
          nodata_cell (indexed_band_nodata (band_info metadata) (Z.of_nat i)))).
Proof.
  intros backend band m Hw metadata. subst metadata. split.
  - rewrite row2_spec, row6_spec. cbn [band2 band6].
    unfold STRasterSummaryStatsMetadata_try, STRasterSummaryStats_try.
    rewrite (parse_render_metadata m Hw).
    destruct (first_band_nodata (band_info (render_metadata m))) as [h v].
    reflexivity.
  - intros i declared Hnth. rewrite row3_spec, row6_spec. cbn [band3 band6 snd].
    destruct (Z.ltb_spec (Z.of_nat i) 0) as [Hneg | _]; [lia |].
    rewrite orb_false_r.
    unfold STRasterSummaryStatsMetadataBand_try, STRasterSummaryStats_try.
    rewrite (parse_render_metadata m Hw).
    rewrite (get_band_type_in_range m i declared Hnth). cbn [bind Ok].
    destruct (indexed_band_nodata (band_info (render_metadata m)) (Z.of_nat i))
      as [h v].
    reflexivity.
Qed.

Lemma metadata_overloads_decode_as_declared_witness :
  let m := mkMeta "none" 2 2 0 26 0 0 "quadbin" "" [("a", "uint8")] in
  STRasterSummaryStatsMetadata_row (backend := model_backend)
    (mkCell true sample_bytes, render_metadata m) =
  STRasterSummaryStats_row (backend := model_backend)
    (mkCell true sample_bytes, "uint8", 2%Z, 2%Z, "none", mkCell false 0%float).
Proof.
  intros m.
  exact (proj1 (metadata_overloads_decode_as_declared model_backend
                  (mkCell true sample_bytes) m eq_refl)).
Defined.

(** ** What [extract_json_int] accepts and what it gives up on *)

Lemma stoi_to_string_any : forall z rest,
  no_digit_ahead rest = true ->
  stoi (to_string z ++ rest) = if int_ok z then Some z else None.
Proof.
  intros z rest Hstop.
  destruct (to_string_shape z) as [d [Hnil [Hshape Hvalue]]].
  destruct (digits_head d Hnil) as [c [s [Hdigits Hc]]].
  destruct (digit_not_sign c Hc) as [Hspace [Hminus Hplus]].
  assert (Hread : read_digits (String c s ++ rest) false 0 = (true, Z.abs z)).
  { rewrite <- Hdigits, read_digits_uint by exact Hstop.
    rewrite Hvalue. destruct d; [contradiction | ..]; reflexivity. }
  rewrite Hshape, Hdigits. unfold stoi, int_ok.
  destruct (Z.ltb_spec z 0) as [Hneg | Hpos]; cbn [append drop_spaces].
  - change (isspace "-") with false. cbv iota.
    change (Ascii.eqb "-" "-") with true. cbv iota.
    change (String c (s ++ rest)) with (String c s ++ rest). rewrite Hread.
    replace (- Z.abs z)%Z with z by lia. reflexivity.
  - rewrite Hspace, Hminus, Hplus.
    change (String c (s ++ rest)) with (String c s ++ rest). rewrite Hread.
    replace (Z.abs z) with z by lia. reflexivity.
Qed.

Lemma to_string_nonempty : forall z, exists c s, to_string z = String c s.
Proof.
  intros z. destruct (to_string_shape z) as [d [Hnil [Hshape _]]].
  destruct (digits_head d Hnil) as [c [s [Hdigits _]]].
  rewrite Hshape, Hdigits. destruct (z <? 0)%Z; eexists; eexists; reflexivity.
Qed.

Lemma rtrim_app_plain : forall u j,
  all_chars (fun c => negb (is_blank c)) u = true -> rtrim (u ++ j) = u ++ rtrim j.
Proof.
  induction u as [| c u IH]; intros j Hu; [reflexivity |].
  cbn [all_chars] in Hu. apply andb_true_iff in Hu. destruct Hu as [Hc Hu].
  apply negb_true_iff in Hc.
  cbn [append rtrim]. rewrite IH by exact Hu. rewrite Hc.
  destruct (u ++ rtrim j); reflexivity.
Qed.

Lemma no_digit_rtrim : forall j,
  no_digit_ahead j = true -> no_digit_ahead (rtrim j) = true.
Proof.
  intros j Hj. destruct (rtrim_parts j) as [ws [Hparts _]].
  destruct (rtrim j) as [| c r]; [reflexivity |].
  rewrite Hparts in Hj. exact Hj.
Qed.

(** X16: [extract_json_int] is lenient.  A decimal number followed by text
    that does not start with a digit is read as the number, the text being
    ignored; a number between double quotes is read as well; and a number
    outside the range of [int] gives the default, with no error. *)
Theorem extract_json_int_lenient :
  forall (pre key ws tail : string) (z default_val : Z),
    first_at pre (search_key key) ->
    all_chars is_blank ws = true ->
    let expected := if int_ok z then z else default_val in
    (forall junk,
       no_digit_ahead junk = true ->
       all_chars not_delim junk = true ->
       ends_unquoted tail = true ->
       extract_json_int (pre ++ search_key key ++ ws ++ to_string z ++ junk ++ tail)
                        key default_val = expected) /\
    extract_json_int (pre ++ search_key key ++ ws ++ quoted (to_string z) ++ tail)
                     key default_val = expected.
Proof.
  intros pre key ws tail z default_val Hfirst Hws expected.
  assert (Hafter : forall rest,
             after_first (search_key key) (pre ++ search_key key ++ rest) = Some rest)
    by (intros rest; apply after_first_at;
        [apply search_key_nonempty | exact Hfirst]).
  destruct (to_string_nonempty z) as [c [s Hstr]].
  pose proof (to_string_decimal z) as Hdec.
  split.
  - intros junk Hjunk Hplain Htail.
    unfold extract_json_int. rewrite extract_json_string_text, Hafter.
    rewrite <- (app_assoc_string (to_string z) junk tail).
    rewrite value_text_unquoted; try assumption.
    + rewrite rtrim_app_plain.
      * rewrite stoi_to_string_any by (apply no_digit_rtrim; exact Hjunk).
        rewrite Hstr. cbn [append is_empty]. subst expected.
        destruct (int_ok z); reflexivity.
      * apply to_string_chars. intros a Ha.
        destruct (decimal_char_plain a Ha) as [_ [Hb _]]. rewrite Hb. reflexivity.
    + rewrite Hstr in *. cbn in Hdec. apply andb_true_iff in Hdec.
      destruct Hdec as [Hc _].
      destruct (decimal_char_plain c Hc) as [_ [Hblank Hquote]].
      cbn. rewrite Hblank, Hquote. reflexivity.
    + rewrite all_chars_app, Hplain, andb_true_r.
      apply to_string_chars. intros a Ha. apply (decimal_char_plain a Ha).
  - unfold extract_json_int. rewrite extract_json_string_text, Hafter.
    unfold value_text, quoted, str1. cbn [append].
    rewrite drop_while_blanks by (exact Hws || reflexivity).
    rewrite Ascii.eqb_refl, app_assoc_string. cbn [append].
    rewrite split_at_first by apply to_string_no_dquote.
    rewrite <- (append_nil_r (to_string z)) at 2.
    rewrite stoi_to_string_any by reflexivity.
    rewrite Hstr. cbn [is_empty]. subst expected.
    destruct (int_ok z); reflexivity.
Qed.

Lemma extract_json_int_lenient_witness :
  extract_json_int (json_text "{'block_width': 512px ,'x':1}") "block_width" 256 = 512%Z /\
  extract_json_int (json_text "{'num_blocks':3000000000}") "num_blocks" 7 = 7%Z /\
  extract_json_int (json_text "{'max_zoom':'12'}") "max_zoom" 26 = 12%Z.
Proof.
  split; [| split].
  - refine (proj1 (extract_json_int_lenient "{" "block_width" " "
                     (json_text ",'x':1}") 512 256 _ _) "px " _ _ _);
      vm_compute; reflexivity.
  - refine (proj1 (extract_json_int_lenient "{" "num_blocks" "" "}" 3000000000 7 _ _)
                  "" _ _ _);
      vm_compute; reflexivity.
  - refine (proj2 (extract_json_int_lenient "{" "max_zoom" "" "}" 12 26 _ _));
      vm_compute; reflexivity.
Defined.

(** ** What [parse_metadata] never returns *)

Lemma parse_bands_loop_nonempty : forall fuel bands_str pos,
  Forall (fun band => fst band <> "" /\ snd band <> "")
         (parse_bands_loop fuel bands_str pos).
Proof.
  induction fuel as [| fuel IH]; intros bands_str pos; cbn [parse_bands_loop];
    [constructor |].
  destruct (Nat.ltb pos (String.length bands_str)); [| constructor].
  destruct (find_char bands_str "{" pos) as [obj_start |]; [| constructor].
  destruct (find_char bands_str "}" obj_start) as [obj_end |]; [| constructor].
  set (band_obj := substr bands_str obj_start (obj_end - obj_start + 1)).
  destruct (extract_json_string band_obj "name") as [| a name];
    [apply IH |].
  destruct (extract_json_string band_obj "type") as [| b type];
    [apply IH |].
  cbn [is_empty negb andb]. constructor; [| apply IH].
  split; discriminate.
Qed.

Lemma parse_metadata_bands : forall json,
  bands (parse_metadata json) = parse_bands json.
Proof.
  intros json. unfold parse_metadata.
  destruct (negb (is_empty (extract_json_object json "tiling"))); reflexivity.
Qed.

(** X17: whatever the input text, the metadata [parse_metadata] returns has
    a compression that is not empty, and no band with an empty name or an
    empty type; so every type [get_band_type] returns, and the type the
    [(band, metadata)] overload decodes with, is a non-empty string. *)
Theorem parse_metadata_never_empty :
  forall json : string,
    compression (parse_metadata json) <> "" /\
    Forall (fun band => fst band <> "" /\ snd band <> "")
           (bands (parse_metadata json)) /\
    first_band_type (parse_metadata json) <> "" /\
    (forall band_index type,
       get_band_type (parse_metadata json) band_index = Ok type -> type <> "").
Proof.
  intros json.
  assert (Hbands : Forall (fun band => fst band <> "" /\ snd band <> "")
                          (bands (parse_metadata json))).
  { rewrite parse_metadata_bands. unfold parse_bands.
    destruct (find json (search_key "bands") 0) as [bands_pos |]; [| constructor].
    destruct (find_char json "[" bands_pos) as [arr_start |]; [| constructor].
    destruct (find_char json "]" arr_start) as [arr_end |]; [| constructor].
    apply parse_bands_loop_nonempty. }
  split; [| split; [exact Hbands | split]].
  - unfold parse_metadata.
    destruct (negb (is_empty (extract_json_object json "tiling")));
      cbn [compression];
      destruct (extract_json_string json "compression"); discriminate.
  - unfold first_band_type.
    destruct (bands (parse_metadata json)) as [| band0 rest]; [discriminate |].
    inversion Hbands as [| ? ? [_ Htype] _]. exact Htype.
  - intros band_index type Hget. unfold get_band_type in Hget.
    destruct ((band_index <? 0)%Z ||
              (Z.of_nat (List.length (bands (parse_metadata json))) <=? band_index)%Z)
      eqn:Hrange; [discriminate |].
    injection Hget as <-.
    apply orb_false_iff in Hrange. destruct Hrange as [Hneg Hge].
    apply Z.ltb_ge in Hneg. apply Z.leb_gt in Hge.
    rewrite Forall_forall in Hbands.
    apply (Hbands (nth (Z.to_nat band_index) (bands (parse_metadata json)) ("", ""))).
    apply nth_In. lia.
Qed.
